(** * quasar.config compilation, normalization and watch pipeline

    A shallow embedding of [app-webpack/lib/quasar-config-file.js]
    (class [QuasarConfigFile] and its helper functions) together with the
    properties of its specification.

    Conventions of the embedding
    - JavaScript values are trees ([JsValue]).  Numbers are the integers
      ([Z]); strings are sequences of 8-bit code units ([string]); a
      function value carries the text that [Function.prototype.toString]
      returns for it.  Object identity is not tracked, so [===] on two
      objects answers [false], as it does for two distinct allocations.
    - An object is an association list: insertion order is kept because
      [JSON.stringify] follows it.
    - Code that can throw, or end the process, returns a [Res].
    - Collaborators that live outside this file of the repository
      (webpack-merge, the extension runner, the webpack config generator,
      the derivations that do not touch the fields studied here) are the
      fields of a record [Externals]: every theorem holds for all of
      them. *)

From Stdlib Require Import ZArith List String Ascii Bool Lia DecimalString.
Import ListNotations.
Local Open Scope string_scope.
Local Open Scope Z_scope.
#[local] Set Warnings "-register-all".

(** ** JavaScript values *)

Inductive JsValue : Type :=
| JUndefined
| JNull
| JBool (b : bool)
| JNum (n : Z)
| JStr (s : string)
| JFun (src : string)
| JArr (items : list JsValue)
| JObj (props : list (string * JsValue)).

(** Outcome of a computation: a value, a thrown exception, or the end of
    the process ([process.exit]). *)
Inductive JsError : Type :=
| TypeError
| NetworkErrorThrown          (* new Error('NETWORK_ERROR') *)
| ForeignError (tag : string)  (* thrown by a collaborator *)
| Unmodelled.                  (* a named property written on an array or a
                                  function: outside the value model *)

Inductive Res (A : Type) : Type :=
| Ok (a : A)
| Throw (e : JsError)
| Exit (code : Z).
Arguments Ok {A} a.
Arguments Throw {A} e.
Arguments Exit {A} code.

Definition rbind {A B} (r : Res A) (f : A -> Res B) : Res B :=
  match r with
  | Ok a => f a
  | Throw e => Throw e
  | Exit c => Exit c
  end.

Module Js.

(** ToBoolean *)
Definition truthy (v : JsValue) : bool :=
  match v with
  | JUndefined | JNull => false
  | JBool b => b
  | JNum n => negb (n =? 0)
  | JStr s => negb (s =? "")%string
  | JFun _ | JArr _ | JObj _ => true
  end.

Definition is_undefined (v : JsValue) : bool :=
  match v with JUndefined => true | _ => false end.

Definition is_null (v : JsValue) : bool :=
  match v with JNull => true | _ => false end.

(** [typeof v === 'function'] *)
Definition is_function (v : JsValue) : bool :=
  match v with JFun _ => true | _ => false end.

(** [Object(v) === v]: true exactly for non-primitive values *)
Definition is_object (v : JsValue) : bool :=
  match v with
  | JFun _ | JArr _ | JObj _ => true
  | _ => false
  end.

(** [a === b] *)
Definition strict_eq (a b : JsValue) : bool :=
  match a, b with
  | JUndefined, JUndefined => true
  | JNull, JNull => true
  | JBool x, JBool y => Bool.eqb x y
  | JNum x, JNum y => x =? y
  | JStr x, JStr y => (x =? y)%string
  | _, _ => false
  end.

Fixpoint lookup (k : string) (l : list (string * JsValue)) : option JsValue :=
  match l with
  | [] => None
  | (k', v) :: tl => if (k =? k')%string then Some v else lookup k tl
  end.

(** Assignment to a property: an existing key keeps its position, a new
    key goes last. *)
Fixpoint assign (k : string) (v : JsValue) (l : list (string * JsValue))
  : list (string * JsValue) :=
  match l with
  | [] => [(k, v)]
  | (k', v') :: tl =>
      if (k =? k')%string then (k, v) :: tl else (k', v') :: assign k v tl
  end.

(** [o.k] without the exception: what the read yields when it does not
    throw. *)
Definition prop (o : JsValue) (k : string) : JsValue :=
  match o with
  | JObj l => match lookup k l with Some v => v | None => JUndefined end
  | JArr l => if (k =? "length")%string then JNum (Z.of_nat (List.length l))
              else JUndefined
  | JStr s => if (k =? "length")%string then JNum (Z.of_nat (String.length s))
              else JUndefined
  | _ => JUndefined
  end.

(** [o.k]: reading a property of [undefined] or [null] throws. *)
Definition get (o : JsValue) (k : string) : Res JsValue :=
  match o with
  | JUndefined | JNull => Throw TypeError
  | _ => Ok (prop o k)
  end.

(** [o.k = v] in strict mode (class bodies are strict): only an object
    takes the write. *)
Definition set (o : JsValue) (k : string) (v : JsValue) : Res JsValue :=
  match o with
  | JObj l => Ok (JObj (assign k v l))
  | JArr _ | JFun _ => Throw Unmodelled
  | _ => Throw TypeError
  end.

(** [o.k1. ... .kn], read left to right *)
Fixpoint get_path (o : JsValue) (path : list string) : Res JsValue :=
  match path with
  | [] => Ok o
  | k :: rest => rbind (get o k) (fun o1 => get_path o1 rest)
  end.

(** [o.k1. ... .kn = v]; the result is the updated [o] *)
Fixpoint set_path (o : JsValue) (path : list string) (v : JsValue)
  : Res JsValue :=
  match path with
  | [] => Ok v
  | [k] => set o k v
  | k :: rest =>
      rbind (get o k) (fun o1 =>
      rbind (set_path o1 rest v) (fun o1' => set o k o1'))
  end.

(** [a || b] *)
Definition or (a b : JsValue) : JsValue := if truthy a then a else b.

Definition dquote : string := String (ascii_of_nat 34) EmptyString.

Definition decimal (n : Z) : string := NilZero.string_of_int (Z.to_int n).

Definition hex_digit (n : nat) : ascii :=
  ascii_of_nat (if Nat.ltb n 10 then 48 + n else 87 + n).

(** QuoteJSONString, one code unit *)
Definition quote_char (c : ascii) : string :=
  let n := nat_of_ascii c in
  if Nat.eqb n 34 then String (ascii_of_nat 92) dquote
  else if Nat.eqb n 92 then String c (String c EmptyString)
  else if Nat.eqb n 8 then String (ascii_of_nat 92) "b"
  else if Nat.eqb n 9 then String (ascii_of_nat 92) "t"
  else if Nat.eqb n 10 then String (ascii_of_nat 92) "n"
  else if Nat.eqb n 12 then String (ascii_of_nat 92) "f"
  else if Nat.eqb n 13 then String (ascii_of_nat 92) "r"
  else if Nat.ltb n 32 then
    String (ascii_of_nat 92)
      ("u00" ++ String (hex_digit (Nat.div n 16))
                  (String (hex_digit (Nat.modulo n 16)) EmptyString))
  else String c EmptyString.

Fixpoint quote_body (s : string) : string :=
  match s with
  | EmptyString => EmptyString
  | String c r => quote_char c ++ quote_body r
  end.

Definition quote (s : string) : string := dquote ++ quote_body s ++ dquote.

(** ToString, as used by [Array.prototype.join] and template strings *)
Fixpoint to_string (v : JsValue) : string :=
  match v with
  | JUndefined => "undefined"
  | JNull => "null"
  | JBool b => if b then "true" else "false"
  | JNum n => decimal n
  | JStr s => s
  | JFun src => src
  | JArr l =>
      String.concat ","
        ((fix items (l : list JsValue) : list string :=
            match l with
            | [] => []
            | x :: tl =>
                (match x with
                 | JUndefined | JNull => ""
                 | _ => to_string x
                 end) :: items tl
            end) l)
  | JObj _ => "[object Object]"
  end.

(** One element of [Array.prototype.join] *)
Definition join_elem (v : JsValue) : string :=
  match v with
  | JUndefined | JNull => ""
  | _ => to_string v
  end.

End Js.

(** ** Helper functions of the module *)

(** [s.startsWith(p)] *)
Fixpoint startsWith (s p : string) {struct p} : bool :=
  match p with
  | EmptyString => true
  | String a p' =>
      match s with
      | EmptyString => false
      | String b s' => Ascii.eqb a b && startsWith s' p'
      end
  end.

(** [const urlRegex = /^http(s)?:\/\//] and [urlRegex.test(s)] *)
Definition urlRegex_test (s : string) : bool :=
  startsWith s "http://" || startsWith s "https://".

(** [s.endsWith(suf)] *)
Fixpoint endsWith (s suf : string) : bool :=
  (s =? suf)%string ||
  match s with
  | EmptyString => false
  | String _ r => endsWith r suf
  end.

(** [function formatPublicPath (path)], on a string argument *)
Definition formatPublicPath (path : string) : string :=
  if (path =? "")%string then ""
  else
    let path := if negb (endsWith path "/") then path ++ "/" else path in
    if urlRegex_test path then path
    else
      let path := if negb (startsWith path "/") then "/" ++ path else path in
      path.

(** [JSON.stringify(obj, replacer)] with the replacer of [encode]: a
    function value is replaced by the string [/fn(<its text>)] before it is
    serialized.  [None] stands for the result [undefined]. *)
Fixpoint stringify (v : JsValue) : option string :=
  match v with
  | JUndefined => None
  | JNull => Some "null"
  | JBool b => Some (if b then "true" else "false")
  | JNum n => Some (Js.decimal n)
  | JStr s => Some (Js.quote s)
  | JFun src => Some (Js.quote ("/fn(" ++ src ++ ")"))
  | JArr l =>
      Some ("[" ++
        String.concat ","
          ((fix items (l : list JsValue) : list string :=
              match l with
              | [] => []
              | x :: tl =>
                  (match stringify x with
                   | Some s => s
                   | None => "null"
                   end) :: items tl
              end) l) ++ "]")
  | JObj l =>
      Some ("{" ++
        String.concat ","
          ((fix members (l : list (string * JsValue)) : list string :=
              match l with
              | [] => []
              | (k, x) :: tl =>
                  match stringify x with
                  | Some s => (Js.quote k ++ ":" ++ s) :: members tl
                  | None => members tl
                  end
              end) l) ++ "}")
  end.

(** [function encode (obj)] *)
Definition encode (obj : JsValue) : option string := stringify obj.

(** ** Context, options and instance state *)

(** [ctx.mode] *)
Record Mode : Type := {
  mode_ssr : bool;
  mode_pwa : bool;
  mode_cordova : bool;
  mode_capacitor : bool;
  mode_electron : bool;
  mode_bex : bool
}.

(** [this.ctx] *)
Record Ctx : Type := {
  ctx_dev : bool;
  ctx_prod : bool;
  ctx_debug : bool;
  ctx_modeName : string;
  ctx_mode : Mode;
  ctx_targetName : JsValue
}.

(** The object that [ctx: this.ctx] places in the default skeleton. *)
Definition ctxToJs (c : Ctx) : JsValue :=
  JObj [ ("dev", JBool (ctx_dev c));
         ("prod", JBool (ctx_prod c));
         ("debug", JBool (ctx_debug c));
         ("modeName", JStr (ctx_modeName c));
         ("mode", JObj [ ("ssr", JBool (mode_ssr (ctx_mode c)));
                         ("pwa", JBool (mode_pwa (ctx_mode c)));
                         ("cordova", JBool (mode_cordova (ctx_mode c)));
                         ("capacitor", JBool (mode_capacitor (ctx_mode c)));
                         ("electron", JBool (mode_electron (ctx_mode c)));
                         ("bex", JBool (mode_bex (ctx_mode c))) ]);
         ("targetName", ctx_targetName c) ].

(** [this.opts].  [opts_watch] says whether [opts.watch !== void 0]; the
    two callbacks of [opts.watch] are observed through the log of the calls
    made to them. *)
Record Opts : Type := {
  opts_host : JsValue;
  opts_port : JsValue;
  opts_onAddress : option (JsValue -> Res JsValue);
  opts_watch : bool
}.

(** [this.address] *)
Record Address : Type := {
  from_host : JsValue;
  from_port : JsValue;
  to_host : JsValue;
  to_port : JsValue
}.

Inductive Message : Type :=
| Logged (text : string)        (* log(text) *)
| Warned (text : string)        (* warn(text) *)
| FatalMsg (text : string)      (* fatal(text, 'FAIL') *)
| ConsoleLog                    (* console.log() *)
| ConsoleError (e : JsError).   (* console.error(e) *)

(** The fields of a [QuasarConfigFile] that the normalizer reads and
    writes, with two observation logs: the console and the arguments
    passed to [opts.onAddress]. *)
Record Instance : Type := {
  ctx : Ctx;
  quasarConf : JsValue;
  webpackConf : JsValue;
  configSnapshot : option string;      (* #configSnapshot *)
  webpackConfChanged : option bool;    (* #webpackConfChanged *)
  address : option Address;
  console : list Message;
  addressCalls : list JsValue
}.

Definition set_ctx (c : Ctx) (i : Instance) : Instance :=
  {| ctx := c; quasarConf := quasarConf i; webpackConf := webpackConf i;
     configSnapshot := configSnapshot i;
     webpackConfChanged := webpackConfChanged i; address := address i;
     console := console i; addressCalls := addressCalls i |}.

Definition set_quasarConf (v : JsValue) (i : Instance) : Instance :=
  {| ctx := ctx i; quasarConf := v; webpackConf := webpackConf i;
     configSnapshot := configSnapshot i;
     webpackConfChanged := webpackConfChanged i; address := address i;
     console := console i; addressCalls := addressCalls i |}.

Definition set_webpackConf (v : JsValue) (i : Instance) : Instance :=
  {| ctx := ctx i; quasarConf := quasarConf i; webpackConf := v;
     configSnapshot := configSnapshot i;
     webpackConfChanged := webpackConfChanged i; address := address i;
     console := console i; addressCalls := addressCalls i |}.

Definition set_configSnapshot (v : option string) (i : Instance) : Instance :=
  {| ctx := ctx i; quasarConf := quasarConf i; webpackConf := webpackConf i;
     configSnapshot := v;
     webpackConfChanged := webpackConfChanged i; address := address i;
     console := console i; addressCalls := addressCalls i |}.

Definition set_webpackConfChanged (v : option bool) (i : Instance) : Instance :=
  {| ctx := ctx i; quasarConf := quasarConf i; webpackConf := webpackConf i;
     configSnapshot := configSnapshot i;
     webpackConfChanged := v; address := address i;
     console := console i; addressCalls := addressCalls i |}.

Definition set_address (v : option Address) (i : Instance) : Instance :=
  {| ctx := ctx i; quasarConf := quasarConf i; webpackConf := webpackConf i;
     configSnapshot := configSnapshot i;
     webpackConfChanged := webpackConfChanged i; address := v;
     console := console i; addressCalls := addressCalls i |}.

Definition set_console (v : list Message) (i : Instance) : Instance :=
  {| ctx := ctx i; quasarConf := quasarConf i; webpackConf := webpackConf i;
     configSnapshot := configSnapshot i;
     webpackConfChanged := webpackConfChanged i; address := address i;
     console := v; addressCalls := addressCalls i |}.

Definition set_addressCalls (v : list JsValue) (i : Instance) : Instance :=
  {| ctx := ctx i; quasarConf := quasarConf i; webpackConf := webpackConf i;
     configSnapshot := configSnapshot i;
     webpackConfChanged := webpackConfChanged i; address := address i;
     console := console i; addressCalls := v |}.

(** [constructor (ctx, opts = {})] *)
Definition newInstance (c : Ctx) : Instance :=
  {| ctx := c; quasarConf := JUndefined; webpackConf := JUndefined;
     configSnapshot := None; webpackConfChanged := None; address := None;
     console := []; addressCalls := [] |}.

(** ** The monad of the normalizer: instance state and outcomes *)

Definition M (A : Type) : Type := Instance -> Res A * Instance.

Definition ret {A} (a : A) : M A := fun i => (Ok a, i).

Definition bind {A B} (m : M A) (f : A -> M B) : M B :=
  fun i =>
    match m i with
    | (Ok a, i') => f a i'
    | (Throw e, i') => (Throw e, i')
    | (Exit c, i') => (Exit c, i')
    end.

Definition lift {A} (r : Res A) : M A := fun i => (r, i).

Definition read {A} (f : Instance -> A) : M A := fun i => (Ok (f i), i).

Definition modify (f : Instance -> Instance) : M unit :=
  fun i => (Ok tt, f i).

Declare Scope m_scope.
Delimit Scope m_scope with M.
Notation "x <- m ;; k" := (bind m (fun x => k))
  (at level 61, m at next level, right associativity) : m_scope.
Notation "m ;; k" := (bind m (fun _ => k))
  (at level 61, right associativity) : m_scope.

Definition emit (m : Message) : M unit :=
  modify (fun i => set_console (console i ++ [m]) i).

Definition log (text : string) : M unit := emit (Logged text).
Definition warn (text : string) : M unit := emit (Warned text).

(** Modelled from the spec: [./utils/logger.js] is not among the sources.
    [fatal] logs its message and terminates the process (section 7: a fatal
    error "terminates the process after logging context"); the code after a
    call to it relies on that. *)
Definition fatal {A} (text : string) : M A :=
  fun i => (Exit 1, set_console (console i ++ [FatalMsg text]) i).

(** [process.exit(code)] *)
Definition process_exit {A} (code : Z) : M A := fun i => (Exit code, i).

Definition nl : string := String (ascii_of_nat 10) EmptyString.

(** ** Collaborators outside this file *)

(** A derivation step acts on [this.ctx] and [cfg] only. *)
Definition Stage : Type := Ctx * JsValue -> Res (Ctx * JsValue).

Record Externals : Type := {
  (** [merge(a, b, ...)] of webpack-merge *)
  merge : list JsValue -> Res JsValue;
  (** [require('./utils/animations.js').animations] *)
  animations : JsValue;
  (** [extensionsRunner.runHook('extendQuasarConf', ...)]: every hook
      receives [cfg] and may mutate it *)
  runHook : Stage;
  (** [appPkg.productName], [appPkg.name], [appPkg.description] *)
  appPkg_productName : JsValue;
  appPkg_name : JsValue;
  appPkg_description : JsValue;
  (** the derivations between the snapshot and the router-mode overrides
      (rawDefine, vendor, css, boot, extras, framework, build defaults,
      transpile, dev/debug overrides) *)
  derive_build : Stage;
  (** the resolution of the output directories *)
  derive_distDir : Stage;
  (** router base, app base, source files, store, ssr and dev-server
      blocks, gzip *)
  derive_middle : Stage;
  (** APP_URL, env, bex and electron blocks, html variables, versions,
      env files *)
  derive_tail : Stage;
  (** [createWebpackConfig(cfg)] *)
  createWebpackConfig : JsValue -> Res JsValue
}.

(** Run a derivation step on the instance's [ctx] and the given [cfg]. *)
Definition stage (f : Stage) (cfg : JsValue) : M JsValue :=
  fun i =>
    match f (ctx i, cfg) with
    | Ok (c, cfg') => (Ok cfg', set_ctx c i)
    | Throw e => (Throw e, i)
    | Exit n => (Exit n, i)
    end.

(** The value a caller gets back: [{ quasarConf, webpackConf }] *)
Record Conf : Type := {
  conf_quasarConf : JsValue;
  conf_webpackConf : JsValue
}.

(** The loaded export [result.default || result] together with what a call
    of it does (when it is callable). *)
Record Factory : Type := {
  fn_value : JsValue;
  fn_call : Ctx -> Res JsValue
}.

(** ** The normalizer: [#computeConfig] *)

(** The first argument of [merge({ ... }, userCfg)] *)
Definition skeleton (c : Ctx) : JsValue :=
  JObj [
    ("ctx", ctxToJs c);
    ("css", JArr []);
    ("boot", JArr []);
    ("vendor", JObj [ ("add", JArr []); ("remove", JArr []) ]);
    ("build", JObj [
       ("transpileDependencies", JArr []);
       ("vueLoaderOptions", JObj [ ("transformAssetUrls", JObj []) ]);
       ("sassLoaderOptions", JObj []);
       ("scssLoaderOptions", JObj []);
       ("stylusLoaderOptions", JObj []);
       ("lessLoaderOptions", JObj []);
       ("tsLoaderOptions", JObj []);
       ("tsCheckerOptions", JObj []);
       ("env", JObj []);
       ("rawDefine", JObj []);
       ("envFiles", JArr []);
       ("uglifyOptions", JObj [ ("compress", JObj []); ("mangle", JObj []) ]) ]);
    ("devServer", JObj [ ("server", JObj []) ]);
    ("framework", JObj [
       ("components", JArr []);
       ("directives", JArr []);
       ("plugins", JArr []) ]);
    ("animations", JArr []);
    ("extras", JArr []);
    ("sourceFiles", JObj []);
    ("ssr", JObj [ ("middlewares", JArr []) ]);
    ("pwa", JObj [
       ("workboxOptions", JObj []);
       ("manifest", JObj [ ("icons", JArr []) ]);
       ("metaVariables", JObj []) ]);
    ("electron", JObj [
       ("inspectPort", JNum 5858);
       ("unPackagedInstallParams", JArr []);
       ("packager", JObj []);
       ("builder", JObj []) ]);
    ("cordova", JObj []);
    ("capacitor", JObj [ ("capacitorCliPreparationParams", JArr []) ]);
    ("bex", JObj [ ("builder", JObj [ ("directories", JObj []) ]) ]);
    ("bin", JObj []);
    ("htmlVariables", JObj [])
  ].

(** Lines 374-384: the symbolic animation list and the framework
    defaults. *)
Definition normalizeFramework (X : Externals) (cfg : JsValue) : Res JsValue :=
  rbind (Js.get cfg "animations") (fun a =>
  rbind (if Js.strict_eq a (JStr "all")
         then Js.set cfg "animations" (animations X) else Ok cfg) (fun cfg =>
  rbind (Js.get_path cfg ["framework"; "plugins"]) (fun p =>
  rbind (if negb (Js.truthy p)
         then Js.set_path cfg ["framework"; "plugins"] (JArr [])
         else Ok cfg) (fun cfg =>
  rbind (Js.get_path cfg ["framework"; "config"]) (fun c =>
  if negb (Js.truthy c)
  then Js.set_path cfg ["framework"; "config"] (JObj [])
  else Ok cfg))))).

(** Lines 387-399: the requested dev-server host and port. *)
Definition requestedField (k : string) (fromOpts dflt : JsValue)
    (cfg : JsValue) : Res JsValue :=
  if Js.truthy fromOpts then Js.set_path cfg ["devServer"; k] fromOpts
  else
    rbind (Js.get_path cfg ["devServer"; k]) (fun v =>
    if negb (Js.truthy v) then Js.set_path cfg ["devServer"; k] dflt
    else Ok cfg).

Definition resolveRequested (o : Opts) (cfg : JsValue) : Res JsValue :=
  rbind (requestedField "host" (opts_host o) (JStr "0.0.0.0") cfg) (fun cfg =>
  requestedField "port" (opts_port o) (JNum 8080) cfg).

Local Open Scope m_scope.

(** Lines 409-431: the [else] branch, negotiation through
    [opts.onAddress]. *)
Definition renegotiate (X : Externals) (o : Opts) (cfg h p : JsValue)
    : M JsValue :=
  let addr := JObj [ ("host", h); ("port", p) ] in
  to <- match opts_onAddress o with
        | Some f =>
            modify (fun i => set_addressCalls (addressCalls i ++ [addr]) i) ;;
            lift (f addr)
        | None => ret addr
        end ;;
  if Js.is_null to then lift (Throw NetworkErrorThrown)
  else
    ds <- lift (Js.get cfg "devServer") ;;
    merged <- lift (merge X [JObj []; ds; to]) ;;
    cfg <- lift (Js.set cfg "devServer" merged) ;;
    h' <- lift (Js.get merged "host") ;;
    p' <- lift (Js.get merged "port") ;;
    modify (set_address (Some {| from_host := h; from_port := p;
                                 to_host := h'; to_port := p' |})) ;;
    ret cfg.

(** Lines 401-431: reuse of the negotiated address, or negotiation. *)
Definition negotiateAddress (X : Externals) (o : Opts) (cfg : JsValue)
    : M JsValue :=
  h <- lift (Js.get_path cfg ["devServer"; "host"]) ;;
  p <- lift (Js.get_path cfg ["devServer"; "port"]) ;;
  prior <- read address ;;
  match prior with
  | Some a =>
      if Js.strict_eq (from_host a) h && Js.strict_eq (from_port a) p
      then
        cfg <- lift (Js.set_path cfg ["devServer"; "host"] (to_host a)) ;;
        lift (Js.set_path cfg ["devServer"; "port"] (to_port a))
      else renegotiate X o cfg h p
  | None => renegotiate X o cfg h p
  end.

(** Lines 386-432 *)
Definition resolveAddress (X : Externals) (o : Opts) (cfg : JsValue)
    : M JsValue :=
  c <- read ctx ;;
  if ctx_dev c then
    cfg <- lift (resolveRequested o cfg) ;;
    negotiateAddress X o cfg
  else ret cfg.

(** Lines 441-451: the array whose elements are joined into the snapshot.
    An element is a string, [undefined], or the raw value of
    [framework.autoImportComponentCase]. *)
Definition encoded (v : JsValue) : JsValue :=
  match encode v with
  | Some s => JStr s
  | None => JUndefined
  end.

Definition snapshotArray (cfg : JsValue) : list JsValue :=
  [ if Js.truthy (Js.prop cfg "build")
    then encoded (Js.prop cfg "build") else JStr "";
    if Js.truthy (Js.prop cfg "ssr")
       && Js.truthy (Js.prop (Js.prop cfg "ssr") "pwa")
    then encoded (Js.prop (Js.prop cfg "ssr") "pwa") else JStr "";
    if Js.truthy (Js.prop cfg "framework")
    then Js.prop (Js.prop cfg "framework") "autoImportComponentCase"
    else JStr "";
    if Js.truthy (Js.prop cfg "devServer")
    then encoded (Js.prop cfg "devServer") else JStr "";
    if Js.truthy (Js.prop cfg "pwa")
    then encoded (Js.prop cfg "pwa") else JStr "";
    if Js.truthy (Js.prop cfg "electron")
    then encoded (Js.prop cfg "electron") else JStr "";
    if Js.truthy (Js.prop cfg "bex")
    then encoded (Js.prop cfg "bex") else JStr "";
    if Js.truthy (Js.prop cfg "htmlVariables")
    then encoded (Js.prop cfg "htmlVariables") else JStr "" ].

(** [[ ... ].join('')] *)
Definition newConfigSnapshot (cfg : JsValue) : string :=
  String.concat "" (map Js.join_elem (snapshotArray cfg)).

(** [if (this.#configSnapshot)] *)
Definition snapshotTruthy (s : option string) : bool :=
  match s with
  | Some t => negb (t =? "")%string
  | None => false
  end.

(** Lines 441-458 *)
Definition takeSnapshot (o : Opts) (cfg : JsValue) : M unit :=
  if opts_watch o then
    match cfg with
    | JUndefined | JNull => lift (Throw TypeError)
    | _ =>
        let new := newConfigSnapshot cfg in
        old <- read configSnapshot ;;
        (if snapshotTruthy old
         then modify (set_webpackConfChanged
                        (Some (negb (String.eqb new
                                       (match old with
                                        | Some t => t
                                        | None => ""
                                        end)))))
         else ret tt) ;;
        modify (set_configSnapshot (Some new))
    end
  else ret tt.

(** [Object.assign(target, { k1: v1, ... })]: the updated target *)
Definition object_assign (target : JsValue) (src : list (string * JsValue))
    : Res JsValue :=
  match target with
  | JUndefined | JNull => Throw TypeError
  | JObj l =>
      Ok (JObj (fold_left (fun acc kv => Js.assign (fst kv) (snd kv) acc) src l))
  | JArr _ | JFun _ => Throw Unmodelled
  | _ => Ok target
  end.

Definition assignBuild (cfg : JsValue) (src : list (string * JsValue))
    : Res JsValue :=
  rbind (Js.get cfg "build") (fun b =>
  rbind (object_assign b src) (fun b' =>
  match b with
  | JObj _ => Js.set cfg "build" b'
  | _ => Ok cfg
  end)).

(** Lines 619-631: the router mode forced by the target mode. *)
Definition applyModeOverrides (c : Ctx) (cfg : JsValue) : Res JsValue :=
  let m := ctx_mode c in
  if mode_ssr m then
    assignBuild cfg [ ("vueRouterMode", JStr "history"); ("gzip", JBool false) ]
  else if mode_cordova m || mode_capacitor m || mode_electron m || mode_bex m
  then
    assignBuild cfg [ ("htmlFilename", JStr "index.html");
                      ("vueRouterMode", JStr "hash");
                      ("gzip", JBool false) ]
  else Ok cfg.

(** [formatPublicPath(path)] on an arbitrary value: a truthy value that is
    not a string has no [endsWith] method. *)
Definition formatPublicPathJs (path : JsValue) : Res JsValue :=
  if negb (Js.truthy path) then Ok (JStr "")
  else
    match path with
    | JStr s => Ok (JStr (formatPublicPath s))
    | _ => Throw TypeError
    end.

(** [[ 'spa', 'pwa', 'ssr' ].includes(this.ctx.modeName)] *)
Definition servesFromPath (modeName : string) : bool :=
  existsb (String.eqb modeName) [ "spa"; "pwa"; "ssr" ].

(** Lines 649-652: the value assigned to [cfg.build.publicPath]. *)
Definition derivedPublicPath (c : Ctx) (cfg : JsValue) : Res JsValue :=
  rbind (Js.get_path cfg ["build"; "publicPath"]) (fun pp =>
  if Js.truthy pp && servesFromPath (ctx_modeName c)
  then formatPublicPathJs pp
  else
    rbind (Js.get_path cfg ["build"; "vueRouterMode"]) (fun mode =>
    Ok (if Js.strict_eq mode (JStr "hash") then JStr "" else JStr "/"))).

Definition derivePublicPath (c : Ctx) (cfg : JsValue) : Res JsValue :=
  rbind (derivedPublicPath c cfg) (fun v =>
  Js.set_path cfg ["build"; "publicPath"] v).

(** Lines 877-899: the first argument of [merge({ ... }, cfg.pwa)] *)
Definition pwaDefaults (X : Externals) : JsValue :=
  JObj [
    ("workboxPluginMode", JStr "GenerateSW");
    ("workboxOptions", JObj []);
    ("useCredentials", JBool false);
    ("manifest", JObj [
       ("name", Js.or (Js.or (appPkg_productName X) (appPkg_name X))
                  (JStr "Quasar App"));
       ("short_name", Js.or (appPkg_name X) (JStr "quasar-pwa"));
       ("description", appPkg_description X);
       ("display", JStr "standalone");
       ("start_url", JStr ".") ]);
    ("metaVariables", JObj [
       ("appleMobileWebAppCapable", JStr "yes");
       ("appleMobileWebAppStatusBarStyle", JStr "default");
       ("appleTouchIcon120", JStr "icons/apple-icon-120x120.png");
       ("appleTouchIcon152", JStr "icons/apple-icon-152x152.png");
       ("appleTouchIcon167", JStr "icons/apple-icon-167x167.png");
       ("appleTouchIcon180", JStr "icons/apple-icon-180x180.png");
       ("appleSafariPinnedTab", JStr "icons/safari-pinned-tab.svg");
       ("msapplicationTileImage", JStr "icons/ms-icon-144x144.png");
       ("msapplicationTileColor", JStr "#000000") ])
  ].

(** Lines 914-919: the callback of [icons.map] *)
Definition prefixIcon (cfg icon : JsValue) : Res JsValue :=
  rbind (Js.get icon "src") (fun src =>
  if negb (urlRegex_test (Js.to_string src)) then
    rbind (Js.get_path cfg ["build"; "publicPath"]) (fun pp =>
    Js.set icon "src" (JStr (Js.to_string pp ++ Js.to_string src)))
  else Ok icon).

Fixpoint mapRes {A B} (f : A -> Res B) (l : list A) : Res (list B) :=
  match l with
  | [] => Ok []
  | x :: tl => rbind (f x) (fun y => rbind (mapRes f tl) (fun ys => Ok (y :: ys)))
  end.

Definition msg_pwaIcons : string :=
  "PWA manifest in quasar.config file > pwa > manifest is missing "
  ++ Js.dquote ++ "icons" ++ Js.dquote ++ " prop." ++ nl.

Definition msg_workboxInvalid (mode : JsValue) : string :=
  "Workbox webpack plugin mode " ++ Js.dquote ++ Js.to_string mode
  ++ Js.dquote ++ " is invalid.".

Definition msg_workboxValid : string :=
  "Valid Workbox modes are: GenerateSW, InjectManifest" ++ nl.

(** [[ 'GenerateSW', 'InjectManifest' ].includes(mode)] *)
Definition validWorkboxMode (mode : JsValue) : bool :=
  Js.strict_eq mode (JStr "GenerateSW")
  || Js.strict_eq mode (JStr "InjectManifest").

(** Lines 876-920 *)
Definition derivePwa (X : Externals) (cfg : JsValue) : M JsValue :=
  c <- read ctx ;;
  if mode_pwa (ctx_mode c) then
    pwa <- lift (Js.get cfg "pwa") ;;
    merged <- lift (merge X [pwaDefaults X; pwa]) ;;
    cfg <- lift (Js.set cfg "pwa" merged) ;;
    icons <- lift (Js.get_path cfg ["pwa"; "manifest"; "icons"]) ;;
    len <- lift (match icons with
                 | JFun _ => Throw Unmodelled   (* the arity is not modelled *)
                 | _ => Js.get icons "length"
                 end) ;;
    if Js.strict_eq len (JNum 0) then
      warn "" ;; warn msg_pwaIcons ;; process_exit 1
    else
      mode <- lift (Js.get_path cfg ["pwa"; "workboxPluginMode"]) ;;
      if negb (validWorkboxMode mode) then
        warn "" ;; warn (msg_workboxInvalid mode) ;; warn msg_workboxValid ;;
        process_exit 1
      else
        icons <- lift (Js.get_path cfg ["pwa"; "manifest"; "icons"]) ;;
        match icons with
        | JArr l =>
            l' <- lift (mapRes (prefixIcon cfg) l) ;;
            lift (Js.set_path cfg ["pwa"; "manifest"; "icons"] (JArr l'))
        | JObj ps =>
            match Js.lookup "map" ps with
            | Some _ => lift (Throw Unmodelled)
            | None => lift (Throw TypeError)
            end
        | _ => lift (Throw TypeError)
        end
  else ret cfg.

Definition msg_notFunction_fatal : string :=
  "The default export value of the quasar.config file is not a function".
Definition msg_notFunction_warn : string :=
  "The default export value of the quasar.config file is not a function. Please fix it then save the file again." ++ nl.
Definition msg_runtime_fatal : string :=
  "The quasar.config file has runtime errors".
Definition msg_runtime_warn : string :=
  "The quasar.config file has runtime errors. Please fix them then save the file again." ++ nl.
Definition msg_notObject_fatal : string :=
  "The quasar.config file does not default exports an Object".
Definition msg_notObject_warn : string :=
  "The quasar.config file does not default exports an Object. Please fix it then save the file again." ++ nl.

(** Lines 299-384: the merge over the default skeleton. *)
Definition mergeDefaults (X : Externals) (userCfg : JsValue) : M JsValue :=
  c <- read ctx ;;
  cfg <- lift (merge X [skeleton c; userCfg]) ;;
  lift (normalizeFramework X cfg).

(** Lines 434-875: the extension hook, the snapshot and the derivations
    up to the installable-web-app block. *)
Definition deriveUpToPwa (X : Externals) (o : Opts) (cfg : JsValue)
    : M JsValue :=
  cfg <- stage (runHook X) cfg ;;
  takeSnapshot o cfg ;;
  cfg <- stage (derive_build X) cfg ;;
  c <- read ctx ;;
  cfg <- lift (applyModeOverrides c cfg) ;;
  cfg <- stage (derive_distDir X) cfg ;;
  c <- read ctx ;;
  cfg <- lift (derivePublicPath c cfg) ;;
  stage (derive_middle X) cfg.

(** Lines 922-1129: the last derivations, the assignment of
    [this.quasarConf] and the returned value. *)
Definition finishConfig (X : Externals) (cfg : JsValue) : M (option Conf) :=
  cfg <- stage (derive_tail X) cfg ;;
  modify (set_quasarConf cfg) ;;
  changed <- read webpackConfChanged ;;
  (match changed with
   | Some false => ret tt
   | _ =>
       w <- lift (createWebpackConfig X cfg) ;;
       modify (set_webpackConf w)
   end) ;;
  q <- read quasarConf ;;
  w <- read webpackConf ;;
  ret (Some {| conf_quasarConf := q; conf_webpackConf := w |}).

(** Lines 299-875 *)
Definition beforePwa (X : Externals) (o : Opts) (userCfg : JsValue)
    : M JsValue :=
  cfg <- mergeDefaults X userCfg ;;
  cfg <- resolveAddress X o cfg ;;
  deriveUpToPwa X o cfg.

(** Lines 299-1129: what [#computeConfig] does with a valid [userCfg]. *)
Definition derive (X : Externals) (o : Opts) (userCfg : JsValue)
    : M (option Conf) :=
  cfg <- beforePwa X o userCfg ;;
  cfg <- derivePwa X cfg ;;
  finishConfig X cfg.

(** [async #computeConfig (quasarConfigFn, failOnError)].  The result
    [None] is the [return] without a value of the warning paths. *)
Definition computeConfig (X : Externals) (o : Opts) (f : Factory)
    (failOnError : bool) : M (option Conf) :=
  if negb (Js.is_function (fn_value f)) then
    if failOnError then fatal msg_notFunction_fatal
    else warn msg_notFunction_warn ;; ret None
  else
    fun i =>
      match fn_call f (ctx i) with
      | Throw e =>
          (emit ConsoleLog ;;
           emit (ConsoleError e) ;;
           if failOnError then fatal msg_runtime_fatal
           else warn msg_runtime_warn ;; ret None) i
      | Exit n => (Exit n, i)
      | Ok userCfg =>
          if negb (Js.is_object userCfg) then
            (if failOnError then fatal msg_notObject_fatal
             else warn msg_notObject_warn ;; ret None) i
          else derive X o userCfg i
      end.

(** ** The watcher: [#build], [#buildAndWatch], [watch] *)

(** The two callbacks of [opts.watch] *)
Inductive UpdateFn : Type := OnBuildChange | OnAppChange.

(** What [require(tempFile)] does: it throws, or it returns the module's
    exports; [call] is what calling the exported factory does. *)
Inductive LoadOutcome : Type :=
| LoadThrows (e : JsError)
| Loaded (exports : JsValue) (call : Ctx -> Res JsValue).

(** The outcome of one esbuild (re)build: [result.errors] and, for a build
    without errors, the behaviour of the artifact it wrote. *)
Record BuildResult : Type := {
  errors : list string;
  load : LoadOutcome
}.

(** The instance, the variables closed over by the watcher plugin, the
    file system and module cache at [tempFile], and what the outside saw. *)
Record State : Type := {
  inst : Instance;
  isWatching : bool;             (* #isWatching *)
  isFirst : bool;                (* let isFirst = true *)
  updateFn : option UpdateFn;    (* let updateFn; [None] is undefined/null *)
  timer : option Z;              (* due time of the pending debounced call *)
  firstBuild : option Conf;      (* the value given to firstBuildIsDone *)
  tempFile : bool;               (* tempFile exists on disk *)
  cached : bool;                 (* require.cache[tempFile] is set *)
  delivered : list UpdateFn;     (* calls made to opts.watch[...] *)
  exited : option Z;             (* the process ended with this code *)
  rejected : list JsError        (* exceptions that left a handler *)
}.

Definition set_inst (v : Instance) (s : State) : State :=
  {| inst := v; isWatching := isWatching s; isFirst := isFirst s;
     updateFn := updateFn s; timer := timer s; firstBuild := firstBuild s;
     tempFile := tempFile s; cached := cached s; delivered := delivered s;
     exited := exited s; rejected := rejected s |}.

Definition set_isWatching (v : bool) (s : State) : State :=
  {| inst := inst s; isWatching := v; isFirst := isFirst s;
     updateFn := updateFn s; timer := timer s; firstBuild := firstBuild s;
     tempFile := tempFile s; cached := cached s; delivered := delivered s;
     exited := exited s; rejected := rejected s |}.

Definition set_isFirst (v : bool) (s : State) : State :=
  {| inst := inst s; isWatching := isWatching s; isFirst := v;
     updateFn := updateFn s; timer := timer s; firstBuild := firstBuild s;
     tempFile := tempFile s; cached := cached s; delivered := delivered s;
     exited := exited s; rejected := rejected s |}.

Definition set_updateFn (v : option UpdateFn) (s : State) : State :=
  {| inst := inst s; isWatching := isWatching s; isFirst := isFirst s;
     updateFn := v; timer := timer s; firstBuild := firstBuild s;
     tempFile := tempFile s; cached := cached s; delivered := delivered s;
     exited := exited s; rejected := rejected s |}.

Definition set_timer (v : option Z) (s : State) : State :=
  {| inst := inst s; isWatching := isWatching s; isFirst := isFirst s;
     updateFn := updateFn s; timer := v; firstBuild := firstBuild s;
     tempFile := tempFile s; cached := cached s; delivered := delivered s;
     exited := exited s; rejected := rejected s |}.

Definition set_firstBuild (v : option Conf) (s : State) : State :=
  {| inst := inst s; isWatching := isWatching s; isFirst := isFirst s;
     updateFn := updateFn s; timer := timer s; firstBuild := v;
     tempFile := tempFile s; cached := cached s; delivered := delivered s;
     exited := exited s; rejected := rejected s |}.

Definition set_tempFile (v : bool) (s : State) : State :=
  {| inst := inst s; isWatching := isWatching s; isFirst := isFirst s;
     updateFn := updateFn s; timer := timer s; firstBuild := firstBuild s;
     tempFile := v; cached := cached s; delivered := delivered s;
     exited := exited s; rejected := rejected s |}.

Definition set_cached (v : bool) (s : State) : State :=
  {| inst := inst s; isWatching := isWatching s; isFirst := isFirst s;
     updateFn := updateFn s; timer := timer s; firstBuild := firstBuild s;
     tempFile := tempFile s; cached := v; delivered := delivered s;
     exited := exited s; rejected := rejected s |}.

Definition set_delivered (v : list UpdateFn) (s : State) : State :=
  {| inst := inst s; isWatching := isWatching s; isFirst := isFirst s;
     updateFn := updateFn s; timer := timer s; firstBuild := firstBuild s;
     tempFile := tempFile s; cached := cached s; delivered := v;
     exited := exited s; rejected := rejected s |}.

Definition set_exited (v : option Z) (s : State) : State :=
  {| inst := inst s; isWatching := isWatching s; isFirst := isFirst s;
     updateFn := updateFn s; timer := timer s; firstBuild := firstBuild s;
     tempFile := tempFile s; cached := cached s; delivered := delivered s;
     exited := v; rejected := rejected s |}.

Definition set_rejected (v : list JsError) (s : State) : State :=
  {| inst := inst s; isWatching := isWatching s; isFirst := isFirst s;
     updateFn := updateFn s; timer := timer s; firstBuild := firstBuild s;
     tempFile := tempFile s; cached := cached s; delivered := delivered s;
     exited := exited s; rejected := v |}.

Definition msg_compile_fatal : string :=
  "Could not compile quasar.config file because it has errors".
Definition msg_compile_warn : string :=
  "Could not compile quasar.config file because it has errors. Please fix them then save the file again." ++ nl.
Definition msg_import_fatal : string :=
  "Importing quasar.config file results in error".
Definition msg_import_warn : string :=
  "Importing quasar.config file results in error. Please review the file then save it again." ++ nl.
Definition msg_changed : string :=
  "The quasar.config file changed. Reading it...".
Definition msg_scheduled : string :=
  "Scheduled to apply quasar.config changes in 1s".

(** Run a piece of the normalizer's monad on the instance of a state. *)
Definition runM {A} (m : M A) (s : State) : Res A * State :=
  match m (inst s) with
  | (r, i) => (r, set_inst i s)
  end.

(** The end of an asynchronous handler: an exception rejects its promise,
    [process.exit] ends the process. *)
Definition finish {A} (rs : Res A * State) : State :=
  match rs with
  | (Ok _, s) => s
  | (Throw e, s) => set_rejected (rejected s ++ [e]) s
  | (Exit c, s) => set_exited (Some c) s
  end.

(** [removeSync(tempFile)] *)
Definition removeSync (s : State) : State := set_tempFile false s.

(** esbuild writes [outfile: tempFile] when the build has no errors. *)
Definition esbuildWrite (r : BuildResult) (s : State) : State :=
  match errors r with
  | [] => set_tempFile true s
  | _ :: _ => s
  end.

(** [const result = require(tempFile); quasarConfigFn = result.default || result] *)
Definition requireFactory (r : BuildResult) : JsError + Factory :=
  match load r with
  | LoadThrows e => inl e
  | Loaded exports call =>
      match Js.get exports "default" with
      | Ok d => inr {| fn_value := Js.or d exports; fn_call := call |}
      | Throw e => inl e
      | Exit _ => inl TypeError
      end
  end.

(** [async #build (esbuildConfig)]: the one-shot path of [read()]. *)
Definition build (X : Externals) (o : Opts) (r : BuildResult) (s : State)
    : Res (option Conf) * State :=
  let s := esbuildWrite r s in
  match errors r with
  | _ :: _ =>
      runM (emit ConsoleLog ;; emit (ConsoleError (ForeignError "esbuild")) ;;
            fatal msg_compile_fatal) (removeSync s)
  | [] =>
      match load r with
      | LoadThrows e =>
          runM (emit ConsoleLog ;; emit (ConsoleError e) ;;
                fatal msg_runtime_fatal) (removeSync s)
      | Loaded exports call =>
          let s := removeSync (set_cached true s) in
          match Js.get exports "default" with
          | Ok d =>
              runM (computeConfig X o
                      {| fn_value := Js.or d exports; fn_call := call |} true) s
          | Throw e => (Throw e, s)
          | Exit c => (Exit c, s)
          end
      end
  end.

(** [debounce(fn, 1000)]: a call at time [t] (re)starts the one-second
    timer. *)
Definition scheduleUpdate (t : Z) (s : State) : State :=
  set_timer (Some (t + 1000)) s.

(** The debounced function: [this.opts.watch[ updateFn ](); updateFn = null] *)
Definition fireUpdate (s : State) : State :=
  match updateFn s with
  | Some f => set_updateFn None (set_delivered (delivered s ++ [f]) s)
  | None => set_rejected (rejected s ++ [TypeError]) s
  end.

(** Time passes until [t]: a timer that is due fires. *)
Definition advance (t : Z) (s : State) : State :=
  match timer s with
  | Some due => if due <=? t then fireUpdate (set_timer None s) else s
  | None => s
  end.

(** [build.onStart] *)
Definition onStart (s : State) : State :=
  if negb (isFirst s) then finish (runM (log msg_changed) s) else s.

(** [this.#webpackConfChanged === true] *)
Definition pipelineAffecting (i : Instance) : bool :=
  match webpackConfChanged i with
  | Some true => true
  | _ => false
  end.

(** [updateFn === 'onBuildChange' || this.#webpackConfChanged === true
      ? 'onBuildChange' : 'onAppChange'] *)
Definition escalate (pending : option UpdateFn) (changed : bool) : UpdateFn :=
  if match pending with
     | Some OnBuildChange => true
     | _ => false
     end || changed
  then OnBuildChange else OnAppChange.

(** [build.onEnd], after the guard of lines 191-194; [t] is the time at
    which the handler completes. *)
Definition processBuildEnd (X : Externals) (o : Opts) (t : Z)
    (r : BuildResult) (s : State) : State :=
  let s := set_cached false s in
  if negb (Nat.eqb (List.length (errors r)) 0) then
    let s := removeSync s in
    finish (runM (if isFirst s then fatal msg_compile_fatal
                  else warn msg_compile_warn) s)
  else
    match requireFactory r with
    | inl e =>
        let s := removeSync s in
        finish (runM (emit ConsoleLog ;; emit (ConsoleError e) ;;
                      if isFirst s then fatal msg_import_fatal
                      else warn msg_import_warn) s)
    | inr f =>
        let s := set_cached false (removeSync s) in
        match runM (computeConfig X o f (isFirst s)) s with
        | (Ok (Some conf), s) =>
            if isFirst s then set_firstBuild (Some conf) (set_isFirst false s)
            else if negb (Js.is_undefined (conf_quasarConf conf)) then
              let s := set_updateFn
                         (Some (escalate (updateFn s)
                                  (pipelineAffecting (inst s)))) s in
              scheduleUpdate t (finish (runM (log msg_scheduled) s))
            else s
        | (Ok None, s) =>
            (* destructuring [undefined] *)
            set_rejected (rejected s ++ [TypeError]) s
        | (Throw e, s) => set_rejected (rejected s ++ [e]) s
        | (Exit c, s) => set_exited (Some c) s
        end
    end.

(** [build.onEnd(async result => ...)] *)
Definition onEnd (X : Externals) (o : Opts) (t : Z) (r : BuildResult)
    (s : State) : State :=
  if negb (isFirst s) && negb (isWatching s) then s
  else processBuildEnd X o t r s.

(** [watch ()] *)
Definition watch (s : State) : State := set_isWatching true s.

(** The state in which [#buildAndWatch] leaves a fresh instance once the
    watcher plugin is set up. *)
Definition buildAndWatch (c : Ctx) : State :=
  {| inst := newInstance c; isWatching := false; isFirst := true;
     updateFn := None; timer := None; firstBuild := None;
     tempFile := false; cached := false; delivered := [];
     exited := None; rejected := [] |}.

(** What can happen to a watch session.  Handlers run one at a time;
    nothing happens once the process has ended. *)
Inductive Event : Type :=
| BuildStarted (t : Z)
| BuildFinished (t : Z) (r : BuildResult)
| WatchCalled (t : Z)
| Elapsed (t : Z).

Definition step (X : Externals) (o : Opts) (s : State) (ev : Event) : State :=
  match exited s with
  | Some _ => s
  | None =>
      match ev with
      | BuildStarted t => onStart (advance t s)
      | BuildFinished t r => onEnd X o t r (esbuildWrite r (advance t s))
      | WatchCalled t => watch (advance t s)
      | Elapsed t => advance t s
      end
  end.

Definition run (X : Externals) (o : Opts) (s : State) (evs : list Event)
    : State :=
  fold_left (step X o) evs s.

(** ** A reference instance of the collaborators

    Used to run the pipeline on concrete inputs.  [mergeTwo] follows the
    merge described in section 4.3 (objects merged key-wise, arrays
    concatenated, otherwise the later value wins, an [undefined] value
    leaves the earlier one). *)

Fixpoint mergeTwo (a b : JsValue) {struct a} : JsValue :=
  match a with
  | JObj la =>
      match b with
      | JObj lb =>
          JObj
            ((fix go (l : list (string * JsValue)) : list (string * JsValue) :=
                match l with
                | [] => []
                | (k, va) :: tl =>
                    (k, match Js.lookup k lb with
                        | Some vb => mergeTwo va vb
                        | None => va
                        end) :: go tl
                end) la
             ++ filter (fun kv =>
                          match Js.lookup (fst kv) la with
                          | Some _ => false
                          | None => negb (Js.is_undefined (snd kv))
                          end) lb)
      | JUndefined => a
      | _ => b
      end
  | JArr la =>
      match b with
      | JArr lb => JArr (la ++ lb)
      | JUndefined => a
      | _ => b
      end
  | _ =>
      match b with
      | JUndefined => a
      | _ => b
      end
  end.

Definition mergeAll (l : list JsValue) : Res JsValue :=
  match l with
  | [] => Throw (ForeignError "merge")
  | a :: tl => Ok (fold_left mergeTwo tl a)
  end.

(** The part of the build defaults (lines 531-591) that later steps of
    this file read. *)
Definition refDeriveBuild : Stage :=
  fun cc =>
    let (c, cfg) := cc in
    rbind (Js.get cfg "build") (fun b =>
    rbind (Js.set cfg "build"
             (mergeTwo (JObj [ ("htmlFilename", JStr "index.html");
                               ("vueRouterMode", JStr "hash") ]) b))
          (fun cfg' => Ok (c, cfg'))).

Definition refExternals : Externals :=
  {| merge := mergeAll;
     animations := JArr [];
     runHook := fun cc => Ok cc;
     appPkg_productName := JStr "Demo";
     appPkg_name := JStr "demo";
     appPkg_description := JStr "A demo app";
     derive_build := refDeriveBuild;
     derive_distDir := fun cc => Ok cc;
     derive_middle := fun cc => Ok cc;
     derive_tail := fun cc => Ok cc;
     createWebpackConfig := fun cfg => Ok (JObj [ ("generatedFrom", cfg) ]) |}.

Definition refMode : Mode :=
  {| mode_ssr := false; mode_pwa := false; mode_cordova := false;
     mode_capacitor := false; mode_electron := false; mode_bex := false |}.

(** [quasar dev] of a single-page app *)
Definition devSpa : Ctx :=
  {| ctx_dev := true; ctx_prod := false; ctx_debug := false;
     ctx_modeName := "spa"; ctx_mode := refMode; ctx_targetName := JUndefined |}.

(** [quasar build -m pwa], watched *)
Definition prodPwa : Ctx :=
  {| ctx_dev := false; ctx_prod := true; ctx_debug := false;
     ctx_modeName := "pwa";
     ctx_mode := {| mode_ssr := false; mode_pwa := true; mode_cordova := false;
                    mode_capacitor := false; mode_electron := false;
                    mode_bex := false |};
     ctx_targetName := JUndefined |}.

Definition watchOpts (onAddress : option (JsValue -> Res JsValue)) : Opts :=
  {| opts_host := JUndefined; opts_port := JUndefined;
     opts_onAddress := onAddress; opts_watch := true |}.

(** A build without errors whose artifact exports a factory returning
    [userCfg]. *)
Definition goodBuild (userCfg : JsValue) : BuildResult :=
  {| errors := [];
     load := Loaded (JFun "ctx => (cfg)") (fun _ => Ok userCfg) |}.

(** ** Vocabulary of the properties *)

(** The whitelisted subtrees of a configuration, in the order of the
    snapshot: build, ssr.pwa, framework.autoImportComponentCase, devServer,
    pwa, electron, bex, htmlVariables. *)
Definition whitelisted (cfg : JsValue) : list JsValue :=
  [ Js.prop cfg "build";
    Js.prop (Js.prop cfg "ssr") "pwa";
    Js.prop (Js.prop cfg "framework") "autoImportComponentCase";
    Js.prop cfg "devServer";
    Js.prop cfg "pwa";
    Js.prop cfg "electron";
    Js.prop cfg "bex";
    Js.prop cfg "htmlVariables" ].

(** The eight strings that [join('')] glues together. *)
Definition pieces (cfg : JsValue) : list string :=
  map Js.join_elem (snapshotArray cfg).

(** The string a whitelisted subtree contributes: the raw value for the
    naming-case setting, the encoding of a truthy value otherwise. *)
Definition serializedPiece (raw : bool) (v : JsValue) : string :=
  if raw then Js.join_elem v
  else if Js.truthy v then Js.join_elem (encoded v) else "".

Definition piecesOf (w : list JsValue) : list string :=
  map (fun rv => serializedPiece (fst rv) (snd rv))
      (combine [false; false; true; false; false; false; false; false] w).

(** Does the cached address answer the requested host and port? *)
Definition priorMatches (i : Instance) (h p : JsValue) : bool :=
  match address i with
  | Some a => Js.strict_eq (from_host a) h && Js.strict_eq (from_port a) p
  | None => false
  end.

(** Two configurations that differ in the whitelisted subtrees [ssr.pwa]
    and [framework.autoImportComponentCase]. *)
Definition cfgPwaOn : JsValue :=
  JObj [ ("build", JObj []);
         ("ssr", JObj [ ("pwa", JBool true) ]);
         ("framework", JObj [ ("autoImportComponentCase", JStr "") ]) ].

Definition cfgPwaOff : JsValue :=
  JObj [ ("build", JObj []);
         ("ssr", JObj [ ("pwa", JBool false) ]);
         ("framework", JObj [ ("autoImportComponentCase", JStr "true") ]) ].

(** The properties of the object literal of [skeleton] *)
Definition skeletonProps (c : Ctx) : list (string * JsValue) :=
  match skeleton c with
  | JObj l => l
  | _ => []
  end.

(** An address-negotiation callback that declines. *)
Definition declines : JsValue -> Res JsValue := fun _ => Ok JNull.

(** An address-negotiation callback that moves to the next port. *)
Definition nextPort : JsValue -> Res JsValue :=
  fun addr =>
    match Js.prop addr "port" with
    | JNum n => Ok (JObj [ ("host", Js.prop addr "host"); ("port", JNum (n + 1)) ])
    | _ => Ok addr
    end.

(** The instance after one more call of [opts.onAddress]. *)
Definition called (addr : JsValue) (i : Instance) : Instance :=
  set_addressCalls (addressCalls i ++ [addr]) i.

(** The pair cached after a negotiation that answered [merged]. *)
Definition cachedAddress (h p merged : JsValue) : option Address :=
  Some {| from_host := h; from_port := p;
          to_host := Js.prop merged "host"; to_port := Js.prop merged "port" |}.

(** A development instance that negotiated 0.0.0.0:8080 into port 8081. *)
Definition negotiatedInstance : Instance :=
  set_address
    (Some {| from_host := JStr "0.0.0.0"; from_port := JNum 8080;
             to_host := JStr "0.0.0.0"; to_port := JNum 8081 |})
    (newInstance devSpa).

(** A merged configuration that requests 0.0.0.0:8080. *)
Definition requestsDefault : list (string * JsValue) :=
  [ ("devServer", JObj [ ("server", JObj []); ("host", JStr "0.0.0.0");
                         ("port", JNum 8080) ]) ].

(** The error taxonomy of section 7. *)
Inductive ErrorKind : Type :=
| CompileError
| LoadError
| SchemaError
| RuntimeError
| NetworkError
| ManifestError
| ConfigValueError.

(** The build compiled and loaded, and its factory returned the object
    [u]. *)
Definition validUserCfg (r : BuildResult) (s : State) (f : Factory)
    (u : JsValue) : Prop :=
  errors r = []
  /\ requireFactory r = inr f
  /\ Js.is_function (fn_value f) = true
  /\ fn_call f (ctx (inst s)) = Ok u
  /\ Js.is_object u = true.

(** The cycle reaches the installable-web-app block in pwa mode, with
    [merged] as the merged [cfg.pwa] and [icons] as its manifest icons. *)
Definition reachesPwa (X : Externals) (o : Opts) (r : BuildResult)
    (s : State) (merged icons : JsValue) : Prop :=
  exists f u props i2,
    validUserCfg r s f u
    /\ beforePwa X o u (inst s) = (Ok (JObj props), i2)
    /\ mode_pwa (ctx_mode (ctx i2)) = true
    /\ merge X [pwaDefaults X; Js.prop (JObj props) "pwa"] = Ok merged
    /\ Js.get_path merged ["manifest"; "icons"] = Ok icons
    /\ Js.is_function icons = false.

(** When an error of each kind occurs in the cycle that handles the build
    [r] in the state [s]. *)
Definition occurs (X : Externals) (o : Opts) (k : ErrorKind)
    (r : BuildResult) (s : State) : Prop :=
  match k with
  | CompileError => errors r <> []
  | LoadError => errors r = [] /\ exists e, requireFactory r = inl e
  | SchemaError =>
      errors r = []
      /\ exists f, requireFactory r = inr f
         /\ (Js.is_function (fn_value f) = false
             \/ (Js.is_function (fn_value f) = true
                 /\ exists v, fn_call f (ctx (inst s)) = Ok v
                              /\ Js.is_object v = false))
  | RuntimeError =>
      errors r = []
      /\ exists f e, requireFactory r = inr f
           /\ Js.is_function (fn_value f) = true
           /\ fn_call f (ctx (inst s)) = Throw e
  | NetworkError =>
      exists f u cfg i1 i2,
        validUserCfg r s f u
        /\ mergeDefaults X u (inst s) = (Ok cfg, i1)
        /\ resolveAddress X o cfg i1 = (Throw NetworkErrorThrown, i2)
  | ManifestError =>
      exists merged icons,
        reachesPwa X o r s merged icons
        /\ Js.get icons "length" = Ok (JNum 0)
  | ConfigValueError =>
      exists merged icons len,
        reachesPwa X o r s merged icons
        /\ Js.get icons "length" = Ok len
        /\ Js.strict_eq len (JNum 0) = false
        /\ validWorkboxMode (Js.prop merged "workboxPluginMode") = false
  end.

(** The error was printed and a warning logged; the process lives, the
    stored configuration is the one from before and no update is
    scheduled. *)
Definition warnedOnly (s s' : State) : Prop :=
  exited s' = exited s
  /\ quasarConf (inst s') = quasarConf (inst s)
  /\ timer s' = timer s
  /\ delivered s' = delivered s
  /\ exists printed msg,
       console (inst s') = (console (inst s) ++ printed ++ [Warned msg])%list
       /\ Forall (fun m => m = ConsoleLog \/ exists e, m = ConsoleError e)
            printed.

(** What a cycle after the first does with an error of each kind. *)
Definition laterOutcome (k : ErrorKind) (s s' : State) : Prop :=
  match k with
  | CompileError | LoadError | SchemaError | RuntimeError => warnedOnly s s'
  | NetworkError =>
      exited s' = exited s
      /\ rejected s' = (rejected s ++ [NetworkErrorThrown])%list
      /\ console (inst s') = console (inst s)
      /\ quasarConf (inst s') = quasarConf (inst s)
      /\ timer s' = timer s
  | ManifestError | ConfigValueError => exited s' = Some 1
  end.

(** The build compiles, loads and normalizes to a configuration in the
    state [s]: the instance that the normalizer leaves. *)
Definition normalizes (X : Externals) (o : Opts) (r : BuildResult)
    (s : State) : option Instance :=
  match errors r with
  | [] =>
      match requireFactory r with
      | inr f =>
          match computeConfig X o f (isFirst s) (inst s) with
          | (Ok (Some conf), i') =>
              if negb (Js.is_undefined (conf_quasarConf conf))
              then Some i' else None
          | _ => None
          end
      | inl _ => None
      end
  | _ :: _ => None
  end.

Definition buildFinished (e : Z * BuildResult) : Event :=
  BuildFinished (fst e) (snd e).

(** The pipeline-affecting signals of a run of build-finished events that
    all normalize; [None] when one of them does not. *)
Fixpoint windowSignals (X : Externals) (o : Opts) (s : State)
    (evs : list (Z * BuildResult)) : option (list bool) :=
  match evs with
  | [] => Some []
  | e :: tl =>
      match normalizes X o (snd e) s with
      | Some i' =>
          option_map (cons (pipelineAffecting i'))
            (windowSignals X o (step X o s (buildFinished e)) tl)
      | None => None
      end
  end.

(** Each event completes less than a second after the one before. *)
Fixpoint spaced (t0 : Z) (evs : list (Z * BuildResult)) : Prop :=
  match evs with
  | [] => True
  | e :: tl => t0 <= fst e < t0 + 1000 /\ spaced (fst e) tl
  end.

Fixpoint lastTime (t0 : Z) (evs : list (Z * BuildResult)) : Z :=
  match evs with
  | [] => t0
  | e :: tl => lastTime (fst e) tl
  end.

(** The severity that a window with these signals ends with. *)
Definition severity (signals : list bool) : UpdateFn :=
  if existsb (fun b => b) signals then OnBuildChange else OnAppChange.

Definition notWatchCalled (ev : Event) : Prop :=
  match ev with
  | WatchCalled _ => False
  | _ => True
  end.

(** The normalizer step [m] leaves the stored configuration and the
    console as they are, whatever its outcome. *)
Definition sameConf (i i' : Instance) : Prop :=
  quasarConf i' = quasarConf i /\ console i' = console i.

Definition keeps {A} (m : M A) : Prop :=
  forall i r i', m i = (r, i') -> sameConf i i'.

(** The state in which [build.onEnd] calls the normalizer. *)
Definition beforeNormalize (s : State) : State :=
  set_cached false (removeSync (set_cached false s)).

(** A build whose factory returns the number 42. *)
Definition returnsNumber : BuildResult := goodBuild (JNum 42).

(** A watch session of a pwa build after a first cycle with one icon and
    a call of [watch()]. *)
Definition oneIcon : JsValue :=
  JObj [ ("pwa", JObj [ ("manifest",
            JObj [ ("icons", JArr [ JObj [ ("src", JStr "a.png") ] ]) ]) ]) ].

Definition armedPwa : State :=
  run refExternals (watchOpts None) (buildAndWatch prodPwa)
    [ BuildFinished 0 (goodBuild oneIcon); WatchCalled 1 ].

(** An address-negotiation callback that declines port 9000 and moves
    any other request to the next port. *)
Definition busy9000 : JsValue -> Res JsValue :=
  fun addr =>
    if Js.strict_eq (Js.prop addr "port") (JNum 9000) then Ok JNull
    else nextPort addr.

(** A development session after a first cycle and a call of [watch()]. *)
Definition armedDev : State :=
  run refExternals (watchOpts (Some busy9000)) (buildAndWatch devSpa)
    [ BuildFinished 0 (goodBuild (JObj [])); WatchCalled 1 ].

(** A build that does not compile. *)
Definition brokenBuild : BuildResult :=
  {| errors := [ "Unexpected end of file" ]; load := LoadThrows TypeError |}.

Definition otherPort : JsValue :=
  JObj [ ("devServer", JObj [ ("port", JNum 9000) ]) ].

Definition propsOf (r : Res JsValue) : list (string * JsValue) :=
  match r with
  | Ok (JObj l) => l
  | _ => []
  end.

Definition valueOf (r : Res JsValue) : JsValue :=
  match r with
  | Ok v => v
  | _ => JUndefined
  end.

(** The factory that [goodBuild u] loads. *)
Definition goodFactory (u : JsValue) : Factory :=
  {| fn_value := JFun "ctx => (cfg)"; fn_call := fun _ => Ok u |}.

(** Where the second cycle of [armedPwa] stands in front of the
    installable-web-app block when its configuration is empty. *)
Definition noIconsReached : Res JsValue * Instance :=
  beforePwa refExternals (watchOpts None) (JObj []) (inst armedPwa).

Definition noIconsMerged : JsValue :=
  valueOf (merge refExternals
             [ pwaDefaults refExternals;
               Js.prop (JObj (propsOf (fst noIconsReached))) "pwa" ]).

(** Where the second cycle of [armedDev] stands in front of the address
    resolution when it asks for port 9000. *)
Definition otherPortMerged : Res JsValue * Instance :=
  mergeDefaults refExternals otherPort (inst armedDev).

(** The watcher's own variables and the temporary file are as before. *)
Definition sameWatch (s s' : State) : Prop :=
  isWatching s' = isWatching s
  /\ isFirst s' = isFirst s
  /\ updateFn s' = updateFn s
  /\ timer s' = timer s
  /\ delivered s' = delivered s
  /\ tempFile s' = tempFile s.

(** An unarmed session whose first build is done. *)
Definition unarmedDev : State :=
  run refExternals (watchOpts None) (buildAndWatch devSpa)
    [ BuildFinished 0 (goodBuild (JObj [])) ].

(** An edit of the configuration file that sets a public path. *)
Definition withPublicPath : BuildResult :=
  goodBuild (JObj [ ("build", JObj [ ("publicPath", JStr "app") ]) ]).

(** The pending severity after the signals [sigs], starting from
    [pending]. *)
Definition foldSeverity (pending : option UpdateFn) (sigs : list bool)
    : option UpdateFn :=
  fold_left (fun u b => Some (escalate u b)) sigs pending.

(** ** More helper functions of the module *)

(** [str.replace(/[...]/g, '')]: every code unit of the class is dropped. *)
Fixpoint removeAll (drop : ascii -> bool) (s : string) : string :=
  match s with
  | EmptyString => EmptyString
  | String c r => if drop c then removeAll drop r else String c (removeAll drop r)
  end.

(** The class [[<>]] *)
Definition isAngle (c : ascii) : bool := Ascii.eqb c "<" || Ascii.eqb c ">".

(** The class of the double quote *)
Definition isDquote (c : ascii) : bool := Nat.eqb (nat_of_ascii c) 34.

(** [function escapeHTMLTagContent (str)], on a string *)
Definition escapeHTMLTagContent (str : string) : string :=
  if negb (str =? "")%string then removeAll isAngle str else "".

(** [function escapeHTMLAttribute (str)], on a string *)
Definition escapeHTMLAttribute (str : string) : string :=
  if negb (str =? "")%string then removeAll isDquote str else "".

(** A maximal run of code units that satisfy [keep], and what follows. *)
Fixpoint takeWhile (keep : ascii -> bool) (s : string) : string :=
  match s with
  | EmptyString => EmptyString
  | String c r => if keep c then String c (takeWhile keep r) else EmptyString
  end.

Fixpoint dropWhile (keep : ascii -> bool) (s : string) : string :=
  match s with
  | EmptyString => EmptyString
  | String c r => if keep c then dropWhile keep r else s
  end.

Definition isOneOf (cls : string) (c : ascii) : bool :=
  existsb (Ascii.eqb c) (list_ascii_of_string cls).

Definition isDigit (c : ascii) : bool :=
  Nat.leb 48 (nat_of_ascii c) && Nat.leb (nat_of_ascii c) 57.

(** A line terminator, which [.] does not match *)
Definition isLineTerminator (c : ascii) : bool :=
  Nat.eqb (nat_of_ascii c) 10 || Nat.eqb (nat_of_ascii c) 13.

(** [s.substring(n)] *)
Fixpoint substringFrom (n : nat) (s : string) : string :=
  match n, s with
  | O, _ => s
  | S n', String _ r => substringFrom n' r
  | S _, EmptyString => EmptyString
  end.

(** Group 5 (the path) of the regular expression of line 82 on [s], or
    [None] when the expression does not match.  The expression reads:
    start, [http] or [https], a colon and two slashes; the host, the
    longest run without colon, slash, question mark and hash; optionally a
    colon and one or more digits, the port; the path, an optional slash
    and the longest run without question mark and hash; the query, a
    question mark up to the first hash, or nothing; the fragment, a hash
    and any run without a line terminator, or nothing; end. *)
Definition routerBaseMatch (s : string) : option string :=
  let afterScheme :=
    if startsWith s "http://" then Some (substringFrom 7 s)
    else if startsWith s "https://" then Some (substringFrom 8 s)
    else None in
  match afterScheme with
  | None => None
  | Some rest =>
      let afterHost := dropWhile (fun c => negb (isOneOf ":/?#" c)) rest in
      let afterPort :=
        match afterHost with
        | String c r =>
            if Ascii.eqb c ":"
               && negb (takeWhile isDigit r =? "")%string
            then dropWhile isDigit r else afterHost
        | EmptyString => afterHost
        end in
      let path := takeWhile (fun c => negb (isOneOf "?#" c)) afterPort in
      let afterPath := dropWhile (fun c => negb (isOneOf "?#" c)) afterPort in
      let fragment := dropWhile (fun c => negb (Ascii.eqb c "#")) afterPath in
      if existsb isLineTerminator (list_ascii_of_string fragment)
      then None else Some path
  end.

(** [function formatRouterBase (publicPath)], on a string: indexing the
    failed match ([null]) throws. *)
Definition formatRouterBase (publicPath : string) : Res string :=
  if (publicPath =? "")%string || negb (startsWith publicPath "http")
  then Ok publicPath
  else
    match routerBaseMatch publicPath with
    | Some path => Ok (formatPublicPath path)
    | None => Throw TypeError
    end.

(** A value that is not an object: [===] on two of them compares their
    contents. *)
Definition isPrimitive (v : JsValue) : bool := negb (Js.is_object v).

(** [Set.prototype.add] on the insertion-ordered content of a set *)
Definition setAdd (set : list JsValue) (v : JsValue) : list JsValue :=
  if existsb (Js.strict_eq v) set then set else set ++ [v].

(** [function getUniqueArray (original)]: [Array.from(new Set(original))] *)
Definition getUniqueArray (original : list JsValue) : list JsValue :=
  fold_left setAdd original [].

(** [asset[ 0 ] === '~' ? asset.substring(1) : prefix + `/${ asset }`] *)
Definition resolveAsset (prefix asset : string) : string :=
  match asset with
  | String c r => if Ascii.eqb c "~" then r else prefix ++ "/" ++ asset
  | EmptyString => prefix ++ "/" ++ asset
  end.

(** The own enumerable properties that an object spread copies *)
Definition spreadProps (v : JsValue) : list (string * JsValue) :=
  match v with
  | JObj l => l
  | JArr l =>
      combine (map (fun n => Js.decimal (Z.of_nat n)) (seq 0 (List.length l))) l
  | JStr s =>
      combine (map (fun n => Js.decimal (Z.of_nat n)) (seq 0 (String.length s)))
              (map (fun c => JStr (String c EmptyString))
                   (list_ascii_of_string s))
  | _ => []
  end.

(** [function parseAssetProperty (prefix)], applied to [asset] *)
Definition parseAssetProperty (prefix : string) (asset : JsValue)
    : Res JsValue :=
  match asset with
  | JStr s => Ok (JObj [ ("path", JStr (resolveAsset prefix s)) ])
  | _ =>
      rbind (Js.get asset "path") (fun p =>
      Ok (JObj (Js.assign "path"
                  (match p with
                   | JStr s => JStr (resolveAsset prefix s)
                   | _ => p
                   end)
                  (spreadProps asset))))
  end.

(** [Array.prototype.indexOf]: the first index that is [===], if any *)
Fixpoint indexOf (x : JsValue) (l : list JsValue) : option nat :=
  match l with
  | [] => None
  | y :: tl =>
      if Js.strict_eq y x then Some O
      else match indexOf x tl with
           | Some n => Some (S n)
           | None => None
           end
  end.

(** [function uniquePathFilter (value, index, self)] *)
Definition uniquePathFilter (value : JsValue) (index : nat)
    (self : list JsValue) : bool :=
  match indexOf (Js.prop value "path")
                (map (fun obj => Js.prop obj "path") self) with
  | Some n => Nat.eqb n index
  | None => false
  end.

(** [self.filter(f)] for a callback [f (value, index, self)], from the
    index [index] on *)
Fixpoint filterFrom (f : JsValue -> nat -> list JsValue -> bool)
    (self : list JsValue) (index : nat) (l : list JsValue) : list JsValue :=
  match l with
  | [] => []
  | x :: tl =>
      if f x index self then x :: filterFrom f self (S index) tl
      else filterFrom f self (S index) tl
  end.

(** Lines 492-504 and 707-712: [list.filter(_ => _).map(parseAssetProperty(prefix))
    .filter(asset => asset.path).filter(uniquePathFilter)] *)
Definition assetList (prefix : string) (l : list JsValue)
    : Res (list JsValue) :=
  rbind (mapRes (parseAssetProperty prefix) (filter Js.truthy l)) (fun parsed =>
  let withPath := filter (fun a => Js.truthy (Js.prop a "path")) parsed in
  Ok (filterFrom uniquePathFilter withPath 0 withPath)).

(** ** [ApiBase] of app-extension/BaseAPI.js *)

(** One entry of a hook list: [{ fn, api: this }]; the api is named by its
    [extId]. *)
Record Hook : Type := {
  hook_fn : JsValue;
  hook_api : JsValue
}.

(** An instance of [ApiBase]: [extId], [prompts] and [__hooks], the
    latter an object whose properties are arrays of hooks. *)
Record ApiBase : Type := {
  extId : JsValue;
  prompts : JsValue;
  hooks : list (string * list Hook)
}.

(** [constructor ({ extId, prompts })], with [__hooks = {}] *)
Definition newApiBase (id ps : JsValue) : ApiBase :=
  {| extId := id; prompts := ps; hooks := [] |}.

(** [__getHooks ()] *)
Definition getHooks (api : ApiBase) : list (string * list Hook) := hooks api.

Fixpoint hooksOf (name : string) (h : list (string * list Hook))
    : option (list Hook) :=
  match h with
  | [] => None
  | (k, l) :: tl => if (name =? k)%string then Some l else hooksOf name tl
  end.

Fixpoint pushHook (name : string) (e : Hook) (h : list (string * list Hook))
    : list (string * list Hook) :=
  match h with
  | [] => []
  | (k, l) :: tl =>
      if (name =? k)%string then (k, (l ++ [e])%list) :: tl
      else (k, l) :: pushHook name e tl
  end.

(** [__addHook (name, fn)]: [this.__hooks[ name ].push({ fn, api: this })];
    without a list under [name] the call of [push] throws. *)
Definition addHook (name : string) (fn : JsValue) (api : ApiBase)
    : Res ApiBase :=
  match hooksOf name (hooks api) with
  | Some _ =>
      Ok {| extId := extId api; prompts := prompts api;
            hooks := pushHook name {| hook_fn := fn; hook_api := extId api |}
                       (hooks api) |}
  | None => Throw TypeError
  end.

(** What the normalizer has stored on the instance. *)
Definition sameStored (i i' : Instance) : Prop :=
  quasarConf i' = quasarConf i /\ webpackConf i' = webpackConf i.

Definition storesNothing {A} (m : M A) : Prop :=
  forall i r i', m i = (r, i') -> sameStored i i'.

(** The paths of a list of parsed assets *)
Definition pathsOf (l : list JsValue) : list JsValue :=
  map (fun obj => Js.prop obj "path") l.

(** A webpack-config generator that fails. *)
Definition failingGenerator : Externals :=
  {| merge := merge refExternals;
     animations := animations refExternals;
     runHook := runHook refExternals;
     appPkg_productName := appPkg_productName refExternals;
     appPkg_name := appPkg_name refExternals;
     appPkg_description := appPkg_description refExternals;
     derive_build := derive_build refExternals;
     derive_distDir := derive_distDir refExternals;
     derive_middle := derive_middle refExternals;
     derive_tail := derive_tail refExternals;
     createWebpackConfig := fun _ => Throw (ForeignError "webpack") |}.

(** An api whose subclass registered the hook list [extendQuasarConf]. *)
Definition apiWithHook : ApiBase :=
  {| extId := JStr "my-ext"; prompts := JObj [];
     hooks := [ ("extendQuasarConf", []); ("extendWebpack", []) ] |}.

(** First occurrences: the strings of [l] that are neither in [seen] nor
    earlier in [l]. *)
Fixpoint dedupStr (seen l : list string) : list string :=
  match l with
  | [] => []
  | x :: tl =>
      if existsb (String.eqb x) seen then dedupStr seen tl
      else x :: dedupStr (seen ++ [x]) tl
  end.

(** The parsed form of a string asset with the resolved path [p] *)
Definition assetOf (p : string) : JsValue := JObj [ ("path", JStr p) ].

Definition nonEmpty (s : string) : bool := negb (s =? "")%string.

(** Every code unit of [s] satisfies [p]. *)
Definition allChars (p : ascii -> bool) (s : string) : bool :=
  forallb p (list_ascii_of_string s).

(** [s] is empty or starts with a code unit that satisfies [p]. *)
Definition headIs (p : ascii -> bool) (s : string) : bool :=
  match s with
  | EmptyString => true
  | String c _ => p c
  end.

Definition notHostEnd (c : ascii) : bool := negb (isOneOf ":/?#" c).
Definition notPathEnd (c : ascii) : bool := negb (isOneOf "?#" c).
Definition notTerminator (c : ascii) : bool := negb (isLineTerminator c).

(** A slash, a question mark or a hash: what can follow the host and port
    of a URL. *)
Definition isDelimiter (c : ascii) : bool :=
  Ascii.eqb c "/" || isOneOf "?#" c.

Definition confOf (r : Res (option Conf)) : Conf :=
  match r with
  | Ok (Some c) => c
  | _ => {| conf_quasarConf := JUndefined; conf_webpackConf := JUndefined |}
  end.

(** The first cycle of a development session on an empty configuration. *)
Definition firstCycle : Res (option Conf) * Instance :=
  computeConfig refExternals (watchOpts None) (goodFactory (JObj [])) true
    (newInstance devSpa).

(** The same cycle when the webpack-config generator fails. *)
Definition firstCycleFailing : Res (option Conf) * Instance :=
  computeConfig failingGenerator (watchOpts None) (goodFactory (JObj [])) true
    (newInstance devSpa).

(** A production build in the ssr mode. *)
Definition prodSsr : Ctx :=
  {| ctx_dev := false; ctx_prod := true; ctx_debug := false;
     ctx_modeName := "ssr";
     ctx_mode := {| mode_ssr := true; mode_pwa := false;
                    mode_cordova := false; mode_capacitor := false;
                    mode_electron := false; mode_bex := false |};
     ctx_targetName := JUndefined |}.

(** * Properties *)

(** ** Strings and [formatPublicPath] *)

Lemma endsWith_cons (c : ascii) (s suf : string) :
  endsWith s suf = true -> endsWith (String c s) suf = true.
Proof.
  intros H. simpl. rewrite H. apply orb_true_r.
Qed.

Lemma endsWith_append_slash (s : string) : endsWith (s ++ "/") "/" = true.
Proof.
  induction s as [|c r IH].
  - reflexivity.
  - change (String c r ++ "/")%string with (String c (r ++ "/")).
    now apply endsWith_cons.
Qed.

Lemma startsWith_slash_not_url (s : string) :
  startsWith s "/" = true -> urlRegex_test s = false.
Proof.
  unfold urlRegex_test.
  destruct s as [|c r]; cbn [startsWith]; [intros H; discriminate H|].
  rewrite andb_true_r. intros H. apply Ascii.eqb_eq in H. subst c.
  reflexivity.
Qed.

Lemma append_nonempty_r (s t : string) : t <> "" -> (s ++ t)%string <> "".
Proof.
  destruct s; simpl; [auto|discriminate].
Qed.

Lemma eqb_empty_false (s : string) : s <> "" -> (s =? "")%string = false.
Proof.
  intros H. now apply String.eqb_neq.
Qed.

(** On a non-empty path that already ends with a slash and is either an
    absolute URL or rooted, [formatPublicPath] changes nothing. *)
Lemma formatPublicPath_fixed (p : string) :
  p <> "" -> endsWith p "/" = true ->
  urlRegex_test p = true \/ startsWith p "/" = true ->
  formatPublicPath p = p.
Proof.
  intros Hne Hend Hshape. unfold formatPublicPath.
  rewrite (eqb_empty_false _ Hne), Hend. cbn [negb].
  destruct (urlRegex_test p) eqn:Hurl; [reflexivity|].
  destruct Hshape as [H|H]; [discriminate|]. rewrite H. reflexivity.
Qed.

(** The shape of every non-empty result. *)
Lemma formatPublicPath_shape (s : string) :
  formatPublicPath s = "" \/
  (formatPublicPath s <> ""
   /\ endsWith (formatPublicPath s) "/" = true
   /\ (urlRegex_test (formatPublicPath s) = true
       \/ startsWith (formatPublicPath s) "/" = true)).
Proof.
  unfold formatPublicPath.
  destruct (s =? "")%string eqn:Hs; [now left|right].
  apply String.eqb_neq in Hs.
  set (p := if negb (endsWith s "/") then (s ++ "/")%string else s).
  assert (Hp : p <> "").
  { subst p. destruct (endsWith s "/"); cbn [negb]; [assumption|].
    apply append_nonempty_r. discriminate. }
  assert (Hend : endsWith p "/" = true).
  { subst p. destruct (endsWith s "/") eqn:E; cbn [negb]; [assumption|].
    apply endsWith_append_slash. }
  destruct (urlRegex_test p) eqn:Hurl.
  - repeat split; auto.
  - destruct (startsWith p "/") eqn:Hst; cbn [negb].
    + repeat split; auto.
    + repeat split.
      * discriminate.
      * now apply endsWith_cons.
      * right. reflexivity.
Qed.

(** C10: [formatPublicPath] is idempotent on every string, and a result
    that is not empty ends with a slash and is an absolute URL or starts
    with a slash. *)
Theorem formatPublicPath_idempotent (s : string) :
  formatPublicPath (formatPublicPath s) = formatPublicPath s
  /\ (formatPublicPath s = ""
      \/ (endsWith (formatPublicPath s) "/" = true
          /\ (urlRegex_test (formatPublicPath s) = true
              \/ startsWith (formatPublicPath s) "/" = true))).
Proof.
  destruct (formatPublicPath_shape s) as [E|(Hne & Hend & Hshape)].
  - rewrite E. split; [reflexivity|now left].
  - split.
    + now apply formatPublicPath_fixed.
    + right. now split.
Qed.

(** ** Property reads and writes on objects *)

Lemma lookup_assign_same (k : string) (v : JsValue) l :
  Js.lookup k (Js.assign k v l) = Some v.
Proof.
  induction l as [|[k' v'] tl IH]; simpl.
  - now rewrite String.eqb_refl.
  - destruct (k =? k')%string eqn:E; simpl.
    + now rewrite String.eqb_refl.
    + now rewrite E.
Qed.

Lemma lookup_assign_other (k k' : string) (v : JsValue) l :
  k <> k' -> Js.lookup k' (Js.assign k v l) = Js.lookup k' l.
Proof.
  intros Hne. induction l as [|[k0 v0] tl IH]; simpl.
  - apply String.eqb_neq in Hne. rewrite String.eqb_sym in Hne. now rewrite Hne.
  - destruct (k =? k0)%string eqn:E; simpl.
    + apply String.eqb_eq in E. subst k0.
      apply String.eqb_neq in Hne. rewrite String.eqb_sym in Hne.
      now rewrite Hne.
    + destruct (k' =? k0)%string; [reflexivity|exact IH].
Qed.

(** Writing [cfg.k1.k2 = v] when [cfg.k1] is an object. *)
Lemma set_path2 (props b : list (string * JsValue)) (k1 k2 : string)
    (v : JsValue) :
  Js.lookup k1 props = Some (JObj b) ->
  Js.set_path (JObj props) [k1; k2] v
  = Ok (JObj (Js.assign k1 (JObj (Js.assign k2 v b)) props)).
Proof.
  intros H. cbn [Js.set_path Js.get Js.prop rbind]. rewrite H. reflexivity.
Qed.

Lemma get_path2 (props b : list (string * JsValue)) (k1 k2 : string) :
  Js.lookup k1 props = Some (JObj b) ->
  Js.get_path (JObj props) [k1; k2] = Ok (Js.prop (JObj b) k2).
Proof.
  intros H. cbn [Js.get_path Js.get Js.prop rbind]. rewrite H. reflexivity.
Qed.

Lemma prop_assign_same (k : string) (v : JsValue) b :
  Js.prop (JObj (Js.assign k v b)) k = v.
Proof.
  cbn [Js.prop]. now rewrite lookup_assign_same.
Qed.

Lemma prop_assign_other (k k' : string) (v : JsValue) b :
  k <> k' -> Js.prop (JObj (Js.assign k v b)) k' = Js.prop (JObj b) k'.
Proof.
  intros H. cbn [Js.prop]. now rewrite lookup_assign_other.
Qed.

(** ** The requested dev-server address *)

Lemma requestedField_default (k : string) (fromOpts dflt : JsValue)
    (props ds : list (string * JsValue)) :
  Js.truthy fromOpts = false ->
  Js.lookup "devServer" props = Some (JObj ds) ->
  Js.truthy (Js.prop (JObj ds) k) = false ->
  requestedField k fromOpts dflt (JObj props)
  = Ok (JObj (Js.assign "devServer" (JObj (Js.assign k dflt ds)) props)).
Proof.
  intros Ho Hds Hk. unfold requestedField. rewrite Ho.
  rewrite (get_path2 _ _ _ _ Hds). cbn [rbind]. rewrite Hk. cbn [negb].
  now apply set_path2.
Qed.

(** C7: in development mode, when neither the options nor the merged
    configuration give a dev-server host or port, the requested address,
    the one handed to the negotiation, is host 0.0.0.0 and port 8080. *)
Theorem default_host_and_port (X : Externals) (o : Opts) (i : Instance)
    (props ds : list (string * JsValue)) :
  ctx_dev (ctx i) = true ->
  Js.truthy (opts_host o) = false ->
  Js.truthy (opts_port o) = false ->
  Js.lookup "devServer" props = Some (JObj ds) ->
  Js.truthy (Js.prop (JObj ds) "host") = false ->
  Js.truthy (Js.prop (JObj ds) "port") = false ->
  exists cfg',
    resolveRequested o (JObj props) = Ok cfg'
    /\ Js.get_path cfg' ["devServer"; "host"] = Ok (JStr "0.0.0.0")
    /\ Js.get_path cfg' ["devServer"; "port"] = Ok (JNum 8080)
    /\ resolveAddress X o (JObj props) i = negotiateAddress X o cfg' i.
Proof.
  intros Hdev Hh Hp Hds Hhost Hport.
  set (ds1 := Js.assign "host" (JStr "0.0.0.0") ds).
  set (props1 := Js.assign "devServer" (JObj ds1) props).
  set (ds2 := Js.assign "port" (JNum 8080) ds1).
  assert (H1 : Js.lookup "devServer" props1 = Some (JObj ds1))
    by apply lookup_assign_same.
  assert (Hport1 : Js.truthy (Js.prop (JObj ds1) "port") = false).
  { unfold ds1. rewrite prop_assign_other; [assumption|discriminate]. }
  assert (E : resolveRequested o (JObj props)
              = Ok (JObj (Js.assign "devServer" (JObj ds2) props1))).
  { unfold resolveRequested.
    rewrite (requestedField_default _ _ _ _ _ Hh Hds Hhost). cbn [rbind].
    fold ds1. fold props1.
    now rewrite (requestedField_default _ _ _ _ _ Hp H1 Hport1). }
  exists (JObj (Js.assign "devServer" (JObj ds2) props1)).
  split; [exact E|].
  assert (H2 : Js.lookup "devServer" (Js.assign "devServer" (JObj ds2) props1)
               = Some (JObj ds2)) by apply lookup_assign_same.
  repeat split.
  - rewrite (get_path2 _ _ _ _ H2). unfold ds2.
    rewrite prop_assign_other by discriminate.
    unfold ds1. now rewrite prop_assign_same.
  - rewrite (get_path2 _ _ _ _ H2). unfold ds2. now rewrite prop_assign_same.
  - unfold resolveAddress, bind, read, lift. rewrite Hdev, E. reflexivity.
Qed.

(** The skeleton alone, as a development build of a single-page app sees
    it, gets the default address. *)
Lemma default_host_and_port_witness :
  exists cfg',
    resolveRequested (watchOpts None) (JObj (skeletonProps devSpa)) = Ok cfg'
    /\ Js.get_path cfg' ["devServer"; "host"] = Ok (JStr "0.0.0.0")
    /\ Js.get_path cfg' ["devServer"; "port"] = Ok (JNum 8080)
    /\ resolveAddress refExternals (watchOpts None)
         (JObj (skeletonProps devSpa)) (newInstance devSpa)
       = negotiateAddress refExternals (watchOpts None) cfg'
           (newInstance devSpa).
Proof.
  apply (default_host_and_port refExternals (watchOpts None)
           (newInstance devSpa) (skeletonProps devSpa)
           [ ("server", JObj []) ]); reflexivity.
Defined.

(** ** The public path *)

(** The value computed for [build.publicPath] on the fallback branch. *)
Lemma derivedPublicPath_fallback (c : Ctx) (props b : list (string * JsValue)) :
  Js.lookup "build" props = Some (JObj b) ->
  Js.truthy (Js.prop (JObj b) "publicPath") = false
  \/ servesFromPath (ctx_modeName c) = false ->
  derivedPublicPath c (JObj props)
  = Ok (if Js.strict_eq (Js.prop (JObj b) "vueRouterMode") (JStr "hash")
        then JStr "" else JStr "/").
Proof.
  intros Hb Hcase. unfold derivedPublicPath.
  rewrite (get_path2 _ _ _ _ Hb). cbn [rbind].
  assert (Hc : Js.truthy (Js.prop (JObj b) "publicPath")
               && servesFromPath (ctx_modeName c) = false).
  { destruct Hcase as [H|H]; rewrite H; [reflexivity|apply andb_false_r]. }
  rewrite Hc, (get_path2 _ _ _ _ Hb). reflexivity.
Qed.

(** C8: when [build.publicPath] is not supplied, or the mode is not one of
    spa, pwa and ssr, the derived [build.publicPath] is the empty string
    for the router mode hash and [/] for any other router mode. *)
Theorem public_path_fallback (c : Ctx) (props b : list (string * JsValue)) :
  Js.lookup "build" props = Some (JObj b) ->
  Js.truthy (Js.prop (JObj b) "publicPath") = false
  \/ servesFromPath (ctx_modeName c) = false ->
  exists cfg',
    derivePublicPath c (JObj props) = Ok cfg'
    /\ Js.get_path cfg' ["build"; "publicPath"]
       = Ok (if Js.strict_eq (Js.prop (JObj b) "vueRouterMode") (JStr "hash")
             then JStr "" else JStr "/").
Proof.
  intros Hb Hcase.
  set (v := if Js.strict_eq (Js.prop (JObj b) "vueRouterMode") (JStr "hash")
            then JStr "" else JStr "/").
  exists (JObj (Js.assign "build" (JObj (Js.assign "publicPath" v b)) props)).
  split.
  - unfold derivePublicPath.
    rewrite (derivedPublicPath_fallback c props b Hb Hcase).
    cbn [rbind]. now apply set_path2.
  - rewrite (get_path2 _ (Js.assign "publicPath" v b));
      [now rewrite prop_assign_same|apply lookup_assign_same].
Qed.

(** History routing without a public path yields [/]. *)
Lemma public_path_fallback_witness :
  exists cfg',
    derivePublicPath devSpa
      (JObj [ ("build", JObj [ ("vueRouterMode", JStr "history") ]) ]) = Ok cfg'
    /\ Js.get_path cfg' ["build"; "publicPath"] = Ok (JStr "/").
Proof.
  apply (public_path_fallback devSpa
           [ ("build", JObj [ ("vueRouterMode", JStr "history") ]) ]
           [ ("vueRouterMode", JStr "history") ]).
  - reflexivity.
  - left. reflexivity.
Defined.

(** X19: server-side rendering forces history routing, whatever router
    mode the configuration asks for, hence the public path [/] when none
    is supplied. *)
Lemma ssr_public_path (c : Ctx) (props b : list (string * JsValue)) :
  mode_ssr (ctx_mode c) = true ->
  Js.lookup "build" props = Some (JObj b) ->
  Js.truthy (Js.prop (JObj b) "publicPath") = false ->
  exists cfg1 cfg2,
    applyModeOverrides c (JObj props) = Ok cfg1
    /\ derivePublicPath c cfg1 = Ok cfg2
    /\ Js.get_path cfg2 ["build"; "publicPath"] = Ok (JStr "/").
Proof.
  intros Hssr Hb Hpp.
  set (b1 := Js.assign "gzip" (JBool false)
               (Js.assign "vueRouterMode" (JStr "history") b)).
  set (props1 := Js.assign "build" (JObj b1) props).
  assert (E1 : applyModeOverrides c (JObj props) = Ok (JObj props1)).
  { unfold applyModeOverrides, assignBuild. rewrite Hssr.
    cbn [Js.get Js.prop rbind]. rewrite Hb. reflexivity. }
  assert (Hb1 : Js.lookup "build" props1 = Some (JObj b1))
    by apply lookup_assign_same.
  assert (Hpp1 : Js.truthy (Js.prop (JObj b1) "publicPath") = false).
  { unfold b1. rewrite !prop_assign_other by discriminate. exact Hpp. }
  set (b2 := Js.assign "publicPath" (JStr "/") b1).
  exists (JObj props1), (JObj (Js.assign "build" (JObj b2) props1)).
  repeat split; [exact E1| |].
  - unfold derivePublicPath.
    rewrite (derivedPublicPath_fallback c props1 b1 Hb1 (or_introl Hpp1)).
    cbn [rbind]. unfold b1 at 1.
    rewrite prop_assign_other by discriminate.
    rewrite prop_assign_same. cbn [Js.strict_eq String.eqb].
    now apply set_path2.
  - rewrite (get_path2 _ b2); [|apply lookup_assign_same].
    unfold b2. now rewrite prop_assign_same.
Qed.

(** ** Address negotiation *)

Lemma get_defined (v : JsValue) (k : string) :
  Js.is_undefined v || Js.is_null v = false -> Js.get v k = Ok (Js.prop v k).
Proof.
  destruct v; simpl; intros H; try discriminate H; reflexivity.
Qed.

Lemma renegotiate_merged (X : Externals) (o : Opts) (i i1 : Instance)
    (props ds : list (string * JsValue)) (h p to merged : JsValue) :
  Js.lookup "devServer" props = Some (JObj ds) ->
  (match opts_onAddress o with
   | Some f =>
       (modify (fun i => set_addressCalls (addressCalls i ++
                           [JObj [ ("host", h); ("port", p) ]]) i) ;;
        lift (f (JObj [ ("host", h); ("port", p) ])))%M
   | None => ret (JObj [ ("host", h); ("port", p) ])
   end) i = (Ok to, i1) ->
  Js.is_null to = false ->
  merge X [JObj []; JObj ds; to] = Ok merged ->
  Js.is_undefined merged || Js.is_null merged = false ->
  renegotiate X o (JObj props) h p i
  = (Ok (JObj (Js.assign "devServer" merged props)),
     set_address (cachedAddress h p merged) i1).
Proof.
  intros Hds Hcall Hnn Hm Hdef. unfold renegotiate. unfold bind at 1.
  rewrite Hcall, Hnn.
  unfold bind, lift, modify, ret. cbn [Js.get Js.prop Js.set].
  rewrite Hds, Hm. rewrite !(get_defined _ _ Hdef). reflexivity.
Qed.

(** C6, as the code has it: a cached address that answers the requested
    host and port is reused without a call of [opts.onAddress] and without
    a change of the cache; otherwise the callback, when there is one, is
    called once with the requested address (without one the requested
    address stands for its answer), an answer that is not [null] is merged
    into the dev-server options and the requested/negotiated pair is
    cached, and the answer [null] throws NETWORK_ERROR and caches
    nothing. *)
Theorem address_negotiation (X : Externals) (o : Opts) (i : Instance)
    (props ds : list (string * JsValue)) (h p : JsValue) :
  Js.lookup "devServer" props = Some (JObj ds) ->
  Js.prop (JObj ds) "host" = h ->
  Js.prop (JObj ds) "port" = p ->
  let cfg := JObj props in
  let addr := JObj [ ("host", h); ("port", p) ] in
  (forall a, address i = Some a -> priorMatches i h p = true ->
     exists cfg',
       negotiateAddress X o cfg i = (Ok cfg', i)
       /\ Js.get_path cfg' ["devServer"; "host"] = Ok (to_host a)
       /\ Js.get_path cfg' ["devServer"; "port"] = Ok (to_port a))
  /\ (priorMatches i h p = false ->
      forall f to, opts_onAddress o = Some f -> f addr = Ok to ->
        (Js.is_null to = true ->
           negotiateAddress X o cfg i = (Throw NetworkErrorThrown, called addr i))
        /\ (Js.is_null to = false ->
            forall merged,
              merge X [JObj []; JObj ds; to] = Ok merged ->
              Js.is_undefined merged || Js.is_null merged = false ->
              negotiateAddress X o cfg i
              = (Ok (JObj (Js.assign "devServer" merged props)),
                 set_address (cachedAddress h p merged) (called addr i))))
  /\ (priorMatches i h p = false ->
      opts_onAddress o = None ->
      forall merged,
        merge X [JObj []; JObj ds; addr] = Ok merged ->
        Js.is_undefined merged || Js.is_null merged = false ->
        negotiateAddress X o cfg i
        = (Ok (JObj (Js.assign "devServer" merged props)),
           set_address (cachedAddress h p merged) i)).
Proof.
  intros Hds Hh Hp cfg addr.
  assert (Hstart : forall k : JsValue -> JsValue -> option Address -> M JsValue,
            (h0 <- lift (Js.get_path cfg ["devServer"; "host"]) ;;
             p0 <- lift (Js.get_path cfg ["devServer"; "port"]) ;;
             prior <- read address ;; k h0 p0 prior)%M i
            = k h p (address i) i).
  { intros k. unfold bind, lift, read, cfg.
    rewrite !(get_path2 _ _ _ _ Hds), Hh, Hp. reflexivity. }
  assert (Hother : priorMatches i h p = false ->
            negotiateAddress X o cfg i = renegotiate X o cfg h p i).
  { intros Hno. unfold negotiateAddress. rewrite Hstart.
    unfold priorMatches in Hno. destruct (address i) as [a|]; [|reflexivity].
    now rewrite Hno. }
  split; [|split].
  - intros a Ha Hm. unfold priorMatches in Hm. rewrite Ha in Hm.
    set (ds1 := Js.assign "host" (to_host a) ds).
    set (props1 := Js.assign "devServer" (JObj ds1) props).
    set (ds2 := Js.assign "port" (to_port a) ds1).
    exists (JObj (Js.assign "devServer" (JObj ds2) props1)).
    assert (H2 : Js.lookup "devServer" (Js.assign "devServer" (JObj ds2) props1)
                 = Some (JObj ds2)) by apply lookup_assign_same.
    repeat split.
    + unfold negotiateAddress. rewrite Hstart, Ha, Hm.
      unfold bind, lift, cfg. rewrite (set_path2 _ _ _ _ _ Hds).
      fold ds1. fold props1.
      rewrite (set_path2 props1 ds1); [reflexivity|apply lookup_assign_same].
    + rewrite (get_path2 _ _ _ _ H2). unfold ds2.
      rewrite prop_assign_other by discriminate.
      unfold ds1. now rewrite prop_assign_same.
    + rewrite (get_path2 _ _ _ _ H2). unfold ds2. now rewrite prop_assign_same.
  - intros Hno f to Hf Hto. rewrite (Hother Hno). split.
    + intros Hnull. unfold renegotiate. rewrite Hf.
      unfold bind, lift, modify. fold addr. rewrite Hto, Hnull. reflexivity.
    + intros Hnn merged Hm Hdef.
      apply (renegotiate_merged X o i (called addr i) props ds h p to merged);
        try assumption.
      rewrite Hf. unfold bind, lift, modify. fold addr. now rewrite Hto.
  - intros Hno Hnone merged Hm Hdef. rewrite (Hother Hno).
    apply (renegotiate_merged X o i i props ds h p addr merged);
      try assumption; [|reflexivity].
    now rewrite Hnone.
Qed.

(** A second cycle that requests the address negotiated before gets port
    8081 back, and [opts.onAddress] is not called. *)
Lemma address_negotiation_witness :
  exists cfg',
    negotiateAddress refExternals (watchOpts (Some nextPort))
      (JObj requestsDefault) negotiatedInstance
    = (Ok cfg', negotiatedInstance)
    /\ Js.get_path cfg' ["devServer"; "host"] = Ok (JStr "0.0.0.0")
    /\ Js.get_path cfg' ["devServer"; "port"] = Ok (JNum 8081).
Proof.
  destruct (address_negotiation refExternals (watchOpts (Some nextPort))
              negotiatedInstance requestsDefault
              [ ("server", JObj []); ("host", JStr "0.0.0.0");
                ("port", JNum 8080) ]
              (JStr "0.0.0.0") (JNum 8080) eq_refl eq_refl eq_refl)
    as [Hreuse _].
  exact (Hreuse _ eq_refl eq_refl).
Defined.

(** C6 as stated fails on its second half.  With no cached address and a
    callback that answers [null], the callback is called and nothing is
    cached; with no callback at all, none is called and the pair is cached
    all the same. *)
Lemma address_negotiation_counterexample :
  (let r := resolveAddress refExternals (watchOpts (Some declines))
              (skeleton devSpa) (newInstance devSpa) in
   fst r = Throw NetworkErrorThrown
   /\ addressCalls (snd r)
      = [ JObj [ ("host", JStr "0.0.0.0"); ("port", JNum 8080) ] ]
   /\ address (snd r) = None)
  /\ (let r := resolveAddress refExternals (watchOpts None)
                 (skeleton devSpa) (newInstance devSpa) in
      addressCalls (snd r) = []
      /\ address (snd r)
         = Some {| from_host := JStr "0.0.0.0"; from_port := JNum 8080;
                   to_host := JStr "0.0.0.0"; to_port := JNum 8080 |}).
Proof.
  vm_compute. repeat split.
Qed.

(** ** The configuration snapshot *)

Lemma append_nil_r (s : string) : (s ++ "")%string = s.
Proof.
  induction s as [|c r IH]; simpl; [reflexivity|now rewrite IH].
Qed.

Lemma append_assoc (a b c : string) :
  ((a ++ b) ++ c)%string = (a ++ (b ++ c))%string.
Proof.
  induction a as [|x r IH]; simpl; [reflexivity|now rewrite IH].
Qed.

Lemma append_inv_head (a x y : string) :
  (a ++ x)%string = (a ++ y)%string -> x = y.
Proof.
  induction a as [|c r IH]; simpl; intros H; [exact H|].
  injection H as H. now apply IH.
Qed.

Lemma list_ascii_of_append (a b : string) :
  list_ascii_of_string (a ++ b)
  = (list_ascii_of_string a ++ list_ascii_of_string b)%list.
Proof.
  induction a as [|c r IH]; simpl; [reflexivity|now rewrite IH].
Qed.

Lemma append_inv_tail (b x y : string) :
  (x ++ b)%string = (y ++ b)%string -> x = y.
Proof.
  intros H. apply (f_equal list_ascii_of_string) in H.
  rewrite !list_ascii_of_append in H. apply app_inv_tail in H.
  rewrite <- (string_of_list_ascii_of_string x),
          <- (string_of_list_ascii_of_string y).
  now rewrite H.
Qed.

Lemma concat_cons (x : string) (l : list string) :
  String.concat "" (x :: l) = (x ++ String.concat "" l)%string.
Proof.
  destruct l; simpl; [now rewrite append_nil_r|reflexivity].
Qed.

Lemma concat_app (l1 l2 : list string) :
  String.concat "" (l1 ++ l2)
  = (String.concat "" l1 ++ String.concat "" l2)%string.
Proof.
  induction l1 as [|x tl IH].
  - reflexivity.
  - change ((x :: tl) ++ l2)%list with (x :: (tl ++ l2))%list.
    now rewrite !concat_cons, IH, append_assoc.
Qed.

(** Strings glued without a separator differ when exactly one of them
    differs. *)
Lemma concat_one_differs (l1 l2 : list string) (x y : string) :
  String.concat "" (l1 ++ x :: l2) = String.concat "" (l1 ++ y :: l2) ->
  x = y.
Proof.
  rewrite !concat_app, !concat_cons. intros H.
  apply append_inv_head in H. now apply append_inv_tail in H.
Qed.

Lemma falsy_prop_pwa (v : JsValue) :
  Js.truthy v = false -> Js.prop v "pwa" = JUndefined.
Proof.
  destruct v; simpl; intros H; try discriminate H; reflexivity.
Qed.

Lemma falsy_prop_case (v : JsValue) :
  Js.truthy v = false -> Js.prop v "autoImportComponentCase" = JUndefined.
Proof.
  destruct v; simpl; intros H; try discriminate H; reflexivity.
Qed.

Lemma piece_encoded (v : JsValue) :
  Js.join_elem (if Js.truthy v then encoded v else JStr "")
  = serializedPiece false v.
Proof.
  unfold serializedPiece. now destruct (Js.truthy v).
Qed.

Lemma piece_ssr_pwa (s : JsValue) :
  Js.join_elem (if Js.truthy s && Js.truthy (Js.prop s "pwa")
                then encoded (Js.prop s "pwa") else JStr "")
  = serializedPiece false (Js.prop s "pwa").
Proof.
  unfold serializedPiece. destruct (Js.truthy s) eqn:E.
  - cbn [andb]. now destruct (Js.truthy (Js.prop s "pwa")).
  - now rewrite (falsy_prop_pwa _ E).
Qed.

Lemma piece_case (f : JsValue) :
  Js.join_elem (if Js.truthy f
                then Js.prop f "autoImportComponentCase" else JStr "")
  = serializedPiece true (Js.prop f "autoImportComponentCase").
Proof.
  unfold serializedPiece. destruct (Js.truthy f) eqn:E; [reflexivity|].
  now rewrite (falsy_prop_case _ E).
Qed.

(** The snapshot reads the configuration through its whitelisted subtrees
    only. *)
Lemma pieces_whitelisted (cfg : JsValue) :
  pieces cfg = piecesOf (whitelisted cfg).
Proof.
  unfold pieces, piecesOf, whitelisted, snapshotArray.
  cbn [map combine fst snd].
  now rewrite !piece_encoded, piece_ssr_pwa, piece_case.
Qed.

Lemma snapshot_whitelisted (a b : JsValue) :
  whitelisted a = whitelisted b -> newConfigSnapshot a = newConfigSnapshot b.
Proof.
  intros H. change (String.concat "" (pieces a) = String.concat "" (pieces b)).
  now rewrite !pieces_whitelisted, H.
Qed.

(** The comparison of lines 453-457 against a non-empty baseline. *)
Lemma takeSnapshot_compare (o : Opts) (i : Instance) (old : string)
    (pb : list (string * JsValue)) :
  opts_watch o = true ->
  configSnapshot i = Some old ->
  old <> "" ->
  takeSnapshot o (JObj pb) i
  = (Ok tt,
     set_configSnapshot (Some (newConfigSnapshot (JObj pb)))
       (set_webpackConfChanged
          (Some (negb (String.eqb (newConfigSnapshot (JObj pb)) old))) i)).
Proof.
  intros Hw Hold Hne. unfold takeSnapshot. rewrite Hw.
  unfold bind, read, modify, ret. rewrite Hold. cbn [snapshotTruthy].
  apply String.eqb_neq in Hne. rewrite Hne. reflexivity.
Qed.

(** C5, as the code has it: the snapshot is a function of the whitelisted
    subtrees.  Against the non-empty snapshot of a configuration A, a
    configuration B that agrees with A on every whitelisted subtree is
    reported unchanged; a reported change means that some whitelisted
    subtree differs; and B is reported changed when exactly one of the
    eight serialized pieces differs.  (Function values enter a piece by
    their tagged source text, see [stringify].) *)
Theorem snapshot_depends_on_whitelist (o : Opts) (i : Instance)
    (pa pb : list (string * JsValue)) :
  opts_watch o = true ->
  configSnapshot i = Some (newConfigSnapshot (JObj pa)) ->
  newConfigSnapshot (JObj pa) <> "" ->
  let i' := snd (takeSnapshot o (JObj pb) i) in
  fst (takeSnapshot o (JObj pb) i) = Ok tt
  /\ configSnapshot i' = Some (newConfigSnapshot (JObj pb))
  /\ (whitelisted (JObj pa) = whitelisted (JObj pb) ->
      webpackConfChanged i' = Some false)
  /\ (webpackConfChanged i' = Some true ->
      whitelisted (JObj pa) <> whitelisted (JObj pb))
  /\ (forall l1 l2 x y,
        pieces (JObj pa) = (l1 ++ x :: l2)%list ->
        pieces (JObj pb) = (l1 ++ y :: l2)%list ->
        x <> y ->
        webpackConfChanged i' = Some true).
Proof.
  intros Hw Hold Hne i'. subst i'.
  rewrite (takeSnapshot_compare o i _ pb Hw Hold Hne). cbn [fst snd].
  split; [reflexivity|]. split; [reflexivity|].
  cbn [webpackConfChanged set_configSnapshot set_webpackConfChanged].
  split; [|split].
  - intros Hagree. rewrite (snapshot_whitelisted _ _ Hagree).
    now rewrite String.eqb_refl.
  - intros Hch Hagree. rewrite (snapshot_whitelisted _ _ Hagree) in Hch.
    rewrite String.eqb_refl in Hch. discriminate Hch.
  - intros l1 l2 x y Ha Hb Hxy.
    destruct (String.eqb (newConfigSnapshot (JObj pb))
                         (newConfigSnapshot (JObj pa))) eqn:E; [|reflexivity].
    apply String.eqb_eq in E. exfalso. apply Hxy.
    change (String.concat "" (pieces (JObj pb))
            = String.concat "" (pieces (JObj pa))) in E.
    rewrite Ha, Hb in E. symmetry. now apply concat_one_differs in E.
Qed.

(** The same [build] subtree twice: unchanged. *)
Lemma snapshot_depends_on_whitelist_witness :
  webpackConfChanged
    (snd (takeSnapshot (watchOpts None)
            (JObj [ ("build", JObj []); ("css", JArr [ JStr "app.scss" ]) ])
            (set_configSnapshot
               (Some (newConfigSnapshot (JObj [ ("build", JObj []) ])))
               (newInstance devSpa))))
  = Some false.
Proof.
  destruct (snapshot_depends_on_whitelist (watchOpts None)
              (set_configSnapshot
                 (Some (newConfigSnapshot (JObj [ ("build", JObj []) ])))
                 (newInstance devSpa))
              [ ("build", JObj []) ]
              [ ("build", JObj []); ("css", JArr [ JStr "app.scss" ]) ]
              eq_refl eq_refl)
    as (_ & _ & Hsame & _).
  - intros H. discriminate H.
  - apply Hsame. reflexivity.
Defined.

(** C5 as stated fails on its second half: two configurations that differ
    in the whitelisted subtrees [ssr.pwa] (true, then false) and
    [framework.autoImportComponentCase] (the empty string, then the string
    true) have the same snapshot, and the second is reported unchanged. *)
Lemma snapshot_counterexample :
  whitelisted cfgPwaOn <> whitelisted cfgPwaOff
  /\ newConfigSnapshot cfgPwaOn = newConfigSnapshot cfgPwaOff
  /\ configSnapshot
       (snd (takeSnapshot (watchOpts None) cfgPwaOn (newInstance devSpa)))
     <> Some ""
  /\ webpackConfChanged
       (snd (takeSnapshot (watchOpts None) cfgPwaOff
          (snd (takeSnapshot (watchOpts None) cfgPwaOn (newInstance devSpa)))))
     = Some false.
Proof.
  split; [|split; [|split]].
  - intros H. discriminate H.
  - reflexivity.
  - intros H. discriminate H.
  - reflexivity.
Qed.

(** ** The handler of build-finished events *)

Lemma requireFactory_inr (r : BuildResult) (f : Factory) :
  requireFactory r = inr f ->
  exists exports call d,
    load r = Loaded exports call
    /\ Js.get exports "default" = Ok d
    /\ f = {| fn_value := Js.or d exports; fn_call := call |}.
Proof.
  unfold requireFactory. destruct (load r) as [e|exports call]; [discriminate|].
  destruct (Js.get exports "default") as [d|e|c] eqn:E; try discriminate.
  intros H. injection H as <-. now exists exports, call, d.
Qed.

(** What [build.onEnd] does once the build compiled and loaded, in terms
    of the outcome of the normalizer. *)
Lemma processBuildEnd_loaded (X : Externals) (o : Opts) (t : Z)
    (r : BuildResult) (s : State) (f : Factory)
    (res : Res (option Conf)) (i' : Instance) :
  errors r = [] ->
  requireFactory r = inr f ->
  computeConfig X o f (isFirst s) (inst s) = (res, i') ->
  processBuildEnd X o t r s
  = let s1 := set_inst i' (beforeNormalize s) in
    match res with
    | Ok (Some conf) =>
        if isFirst s then set_firstBuild (Some conf) (set_isFirst false s1)
        else if negb (Js.is_undefined (conf_quasarConf conf)) then
          scheduleUpdate t
            (finish (runM (log msg_scheduled)
               (set_updateFn
                  (Some (escalate (updateFn s) (pipelineAffecting i'))) s1)))
        else s1
    | Ok None => set_rejected (rejected s ++ [TypeError]) s1
    | Throw e => set_rejected (rejected s ++ [e]) s1
    | Exit c => set_exited (Some c) s1
    end.
Proof.
  intros He Hf Hc. unfold processBuildEnd. rewrite He, Hf. cbn [List.length Nat.eqb negb].
  fold (beforeNormalize s). unfold runM.
  change (inst (beforeNormalize s)) with (inst s).
  change (isFirst (beforeNormalize s)) with (isFirst s).
  rewrite Hc. destruct res as [[conf|]|e|c]; reflexivity.
Qed.

Lemma onEnd_armed (X : Externals) (o : Opts) (t : Z) (r : BuildResult)
    (s : State) :
  isWatching s = true -> onEnd X o t r s = processBuildEnd X o t r s.
Proof.
  intros H. unfold onEnd. rewrite H. now rewrite andb_false_r.
Qed.

Lemma onEnd_first (X : Externals) (o : Opts) (t : Z) (r : BuildResult)
    (s : State) :
  isFirst s = true -> onEnd X o t r s = processBuildEnd X o t r s.
Proof.
  intros H. unfold onEnd. now rewrite H.
Qed.

(** ** Phase A: a factory result that is not an object *)

Lemma computeConfig_not_object (X : Externals) (o : Opts) (f : Factory)
    (i : Instance) (v : JsValue) (failOnError : bool) :
  Js.is_function (fn_value f) = true ->
  fn_call f (ctx i) = Ok v ->
  Js.is_object v = false ->
  computeConfig X o f failOnError i
  = if failOnError
    then (Exit 1, set_console (console i ++ [FatalMsg msg_notObject_fatal]) i)
    else (Ok None, set_console (console i ++ [Warned msg_notObject_warn]) i).
Proof.
  intros Hfn Hcall Hobj. unfold computeConfig. rewrite Hfn. cbn [negb].
  cbv beta. rewrite Hcall, Hobj. cbn [negb]. now destruct failOnError.
Qed.

(** C4: when the factory returns a value that is not an object, the first
    cycle (one-shot or watched) ends the process through [fatal]; a later
    cycle makes the normalizer return no configuration and log one
    warning, the process lives and [this.quasarConf] keeps its value. *)
Theorem non_object_result (X : Externals) (o : Opts) (t : Z)
    (r : BuildResult) (s : State) (f : Factory) (v : JsValue) :
  errors r = [] ->
  requireFactory r = inr f ->
  Js.is_function (fn_value f) = true ->
  fn_call f (ctx (inst s)) = Ok v ->
  Js.is_object v = false ->
  computeConfig X o f true (inst s)
  = (Exit 1,
     set_console (console (inst s) ++ [FatalMsg msg_notObject_fatal]) (inst s))
  /\ computeConfig X o f false (inst s)
     = (Ok None,
        set_console (console (inst s) ++ [Warned msg_notObject_warn]) (inst s))
  /\ fst (build X o r s) = Exit 1
  /\ (isFirst s = true -> exited (onEnd X o t r s) = Some 1)
  /\ (isFirst s = false -> isWatching s = true ->
      let s' := onEnd X o t r s in
      exited s' = exited s
      /\ quasarConf (inst s') = quasarConf (inst s)
      /\ console (inst s')
         = (console (inst s) ++ [Warned msg_notObject_warn])%list).
Proof.
  intros He Hf Hfn Hcall Hobj.
  pose proof (computeConfig_not_object X o f (inst s) v true Hfn Hcall Hobj)
    as Hfatal.
  pose proof (computeConfig_not_object X o f (inst s) v false Hfn Hcall Hobj)
    as Hwarn.
  cbn iota in Hfatal, Hwarn.
  split; [exact Hfatal|]. split; [exact Hwarn|]. split; [|split].
  - destruct (requireFactory_inr r f Hf) as (exports & call & d & Hl & Hd & ->).
    unfold build, esbuildWrite. rewrite He, Hl, Hd. unfold runM.
    cbn [inst set_tempFile set_cached removeSync].
    now rewrite Hfatal.
  - intros Hfirst. rewrite (onEnd_first _ _ _ _ _ Hfirst).
    rewrite (processBuildEnd_loaded X o t r s f _ _ He Hf
               (eq_trans (f_equal (fun b => computeConfig X o f b (inst s))
                            Hfirst) Hfatal)).
    reflexivity.
  - intros Hfirst Hw s'. subst s'. rewrite (onEnd_armed _ _ _ _ _ Hw).
    rewrite (processBuildEnd_loaded X o t r s f _ _ He Hf
               (eq_trans (f_equal (fun b => computeConfig X o f b (inst s))
                            Hfirst) Hwarn)).
    repeat split.
Qed.

(** A first build whose factory returns 42 ends the process. *)
Lemma non_object_result_witness :
  exited (onEnd refExternals (watchOpts None) 0 returnsNumber
            (buildAndWatch devSpa)) = Some 1.
Proof.
  destruct (non_object_result refExternals (watchOpts None) 0 returnsNumber
              (buildAndWatch devSpa)
              {| fn_value := JFun "ctx => (cfg)"; fn_call := fun _ => Ok (JNum 42) |}
              (JNum 42) eq_refl eq_refl eq_refl eq_refl eq_refl)
    as (_ & _ & _ & Hfirst & _).
  exact (Hfirst eq_refl).
Defined.

(** ** What the normalizer leaves untouched *)

Lemma sameConf_refl (i : Instance) : sameConf i i.
Proof. split; reflexivity. Qed.

Lemma sameConf_trans (i j k : Instance) :
  sameConf i j -> sameConf j k -> sameConf i k.
Proof.
  intros [A B] [C D]. split; congruence.
Qed.

Lemma keeps_ret {A} (a : A) : keeps (ret a).
Proof.
  intros i r i' H. injection H as _ <-. apply sameConf_refl.
Qed.

Lemma keeps_lift {A} (x : Res A) : keeps (lift x).
Proof.
  intros i r i' H. injection H as _ <-. apply sameConf_refl.
Qed.

Lemma keeps_read {A} (g : Instance -> A) : keeps (read g).
Proof.
  intros i r i' H. injection H as _ <-. apply sameConf_refl.
Qed.

Lemma keeps_modify (g : Instance -> Instance) :
  (forall i, sameConf i (g i)) -> keeps (modify g).
Proof.
  intros Hg i r i' H. injection H as _ <-. apply Hg.
Qed.

Lemma keeps_bind {A B} (m : M A) (f : A -> M B) :
  keeps m -> (forall a, keeps (f a)) -> keeps (bind m f).
Proof.
  intros Hm Hf i r i' H. unfold bind in H.
  destruct (m i) as [[a|e|c] i1] eqn:E.
  - eapply sameConf_trans; [exact (Hm _ _ _ E)|exact (Hf a _ _ _ H)].
  - injection H as _ <-. exact (Hm _ _ _ E).
  - injection H as _ <-. exact (Hm _ _ _ E).
Qed.

Ltac keeps_step :=
  first
    [ apply keeps_ret
    | apply keeps_lift
    | apply keeps_read
    | apply keeps_modify; intros ?; split; reflexivity
    | apply keeps_bind; [|intros ?] ].

Lemma keeps_mergeDefaults (X : Externals) (u : JsValue) :
  keeps (mergeDefaults X u).
Proof.
  unfold mergeDefaults. repeat keeps_step.
Qed.

Lemma keeps_renegotiate (X : Externals) (o : Opts) (cfg h p : JsValue) :
  keeps (renegotiate X o cfg h p).
Proof.
  unfold renegotiate. apply keeps_bind.
  - destruct (opts_onAddress o); repeat keeps_step.
  - intros to. destruct (Js.is_null to); repeat keeps_step.
Qed.

Lemma keeps_negotiateAddress (X : Externals) (o : Opts) (cfg : JsValue) :
  keeps (negotiateAddress X o cfg).
Proof.
  unfold negotiateAddress.
  apply keeps_bind; [apply keeps_lift|]. intros h.
  apply keeps_bind; [apply keeps_lift|]. intros p.
  apply keeps_bind; [apply keeps_read|]. intros prior.
  destruct prior as [a|]; [|apply keeps_renegotiate].
  destruct (Js.strict_eq (from_host a) h && Js.strict_eq (from_port a) p);
    [repeat keeps_step|apply keeps_renegotiate].
Qed.

(** The address resolution changes neither [this.quasarConf] nor the
    console. *)
Lemma keeps_resolveAddress (X : Externals) (o : Opts) (cfg : JsValue) :
  keeps (resolveAddress X o cfg).
Proof.
  unfold resolveAddress. apply keeps_bind; [apply keeps_read|].
  intros c. destruct (ctx_dev c); [|apply keeps_ret].
  apply keeps_bind; [apply keeps_lift|]. intros cfg1.
  apply keeps_negotiateAddress.
Qed.

(** ** Errors in a cycle after the first *)

Lemma computeConfig_not_function (X : Externals) (o : Opts) (f : Factory)
    (i : Instance) :
  Js.is_function (fn_value f) = false ->
  computeConfig X o f false i
  = (Ok None, set_console (console i ++ [Warned msg_notFunction_warn]) i).
Proof.
  intros Hfn. unfold computeConfig. rewrite Hfn. reflexivity.
Qed.

Lemma computeConfig_throws (X : Externals) (o : Opts) (f : Factory)
    (i : Instance) (e : JsError) :
  Js.is_function (fn_value f) = true ->
  fn_call f (ctx i) = Throw e ->
  exists i',
    computeConfig X o f false i = (Ok None, i')
    /\ quasarConf i' = quasarConf i
    /\ console i'
       = (console i ++ [ConsoleLog; ConsoleError e] ++ [Warned msg_runtime_warn])%list.
Proof.
  intros Hfn Hcall. unfold computeConfig. rewrite Hfn. cbn [negb]. cbv beta.
  rewrite Hcall. eexists. split; [reflexivity|]. split; [reflexivity|].
  cbn [console set_console]. now rewrite <- !app_assoc.
Qed.

Lemma computeConfig_valid (X : Externals) (o : Opts) (f : Factory)
    (i : Instance) (u : JsValue) (failOnError : bool) :
  Js.is_function (fn_value f) = true ->
  fn_call f (ctx i) = Ok u ->
  Js.is_object u = true ->
  computeConfig X o f failOnError i = derive X o u i.
Proof.
  intros Hfn Hcall Hobj. unfold computeConfig. rewrite Hfn. cbn [negb].
  cbv beta. now rewrite Hcall, Hobj.
Qed.

Lemma get_path_object (l : list (string * JsValue)) (k : string)
    (v : JsValue) (rest : list string) :
  Js.lookup k l = Some v ->
  Js.get_path (JObj l) (k :: rest) = Js.get_path v rest.
Proof.
  intros H. cbn [Js.get_path Js.get Js.prop rbind]. now rewrite H.
Qed.

Lemma get_path_defined (v : JsValue) (k : string) (rest : list string)
    (w : JsValue) :
  Js.get_path v (k :: rest) = Ok w ->
  Js.is_undefined v || Js.is_null v = false.
Proof.
  destruct v; simpl; intros H; try discriminate H; reflexivity.
Qed.

(** The installable-web-app block ends the process when the icon list is
    empty or the plugin mode is not a valid one; it never looks at
    [failOnError]. *)
Lemma derivePwa_exits (X : Externals) (i : Instance)
    (props : list (string * JsValue)) (merged icons len : JsValue) :
  mode_pwa (ctx_mode (ctx i)) = true ->
  merge X [pwaDefaults X; Js.prop (JObj props) "pwa"] = Ok merged ->
  Js.get_path merged ["manifest"; "icons"] = Ok icons ->
  Js.is_function icons = false ->
  Js.get icons "length" = Ok len ->
  Js.strict_eq len (JNum 0) = true
  \/ validWorkboxMode (Js.prop merged "workboxPluginMode") = false ->
  exists i', derivePwa X (JObj props) i = (Exit 1, i').
Proof.
  intros Hmode Hmerge Hicons Hfun Hlen Hcase.
  unfold derivePwa, bind, read, lift. rewrite Hmode.
  cbn [Js.get Js.set]. rewrite Hmerge.
  rewrite (get_path_object _ "pwa" merged) by apply lookup_assign_same.
  rewrite Hicons.
  assert (Hl : match icons with
               | JFun _ => Throw Unmodelled
               | _ => Js.get icons "length"
               end = Ok len).
  { destruct icons; try exact Hlen. discriminate Hfun. }
  rewrite Hl. destruct (Js.strict_eq len (JNum 0)) eqn:E.
  - eexists. reflexivity.
  - destruct Hcase as [H|H]; [discriminate H|].
    rewrite (get_path_object _ "pwa" merged) by apply lookup_assign_same.
    cbn [Js.get_path].
    rewrite (get_defined _ _ (get_path_defined _ _ _ _ Hicons)).
    cbn [rbind]. rewrite H. eexists. reflexivity.
Qed.

Lemma reachesPwa_exits (X : Externals) (o : Opts) (r : BuildResult)
    (s : State) (merged icons len : JsValue) :
  reachesPwa X o r s merged icons ->
  Js.get icons "length" = Ok len ->
  Js.strict_eq len (JNum 0) = true
  \/ validWorkboxMode (Js.prop merged "workboxPluginMode") = false ->
  exists f i',
    errors r = [] /\ requireFactory r = inr f
    /\ forall failOnError,
         computeConfig X o f failOnError (inst s) = (Exit 1, i').
Proof.
  intros (f & u & props & i2 & (He & Hf & Hfn & Hcall & Hobj)
          & Hbefore & Hmode & Hmerge & Hicons & Hfun) Hlen Hcase.
  destruct (derivePwa_exits X i2 props merged icons len
              Hmode Hmerge Hicons Hfun Hlen Hcase) as [i' Hexit].
  exists f, i'. repeat split; try assumption.
  intros failOnError.
  rewrite (computeConfig_valid X o f (inst s) u failOnError Hfn Hcall Hobj).
  unfold derive. unfold bind at 1. rewrite Hbefore.
  unfold bind. now rewrite Hexit.
Qed.

(** C2, as the code has it.  In a cycle after the first of an armed watch
    session: a compile error, a load error, a schema error and a runtime
    error are each logged as a warning, the process lives, the stored
    configuration stays and no update is scheduled; a network error leaves
    the normalizer as the exception NETWORK_ERROR, without a warning, the
    process lives and the stored configuration stays; a manifest error and
    an invalid plugin mode end the process with code 1. *)
Theorem later_cycle_errors (X : Externals) (o : Opts) (t : Z)
    (r : BuildResult) (s : State) (k : ErrorKind) :
  isFirst s = false ->
  isWatching s = true ->
  occurs X o k r s ->
  laterOutcome k s (onEnd X o t r s).
Proof.
  intros Hfirst Hw Hocc. rewrite (onEnd_armed _ _ _ _ _ Hw).
  assert (Hcc : forall f res i',
            computeConfig X o f false (inst s) = (res, i') ->
            computeConfig X o f (isFirst s) (inst s) = (res, i')).
  { intros f res i' H. now rewrite Hfirst. }
  destruct k; cbn [occurs laterOutcome] in *.
  - (* CompileError *)
    unfold processBuildEnd. destruct (errors r) as [|e l]; [now destruct Hocc|].
    cbn [List.length Nat.eqb negb isFirst removeSync set_tempFile set_cached].
    rewrite Hfirst. repeat split.
    exists [], msg_compile_warn. split; [reflexivity|constructor].
  - (* LoadError *)
    destruct Hocc as (He & e & Hf).
    unfold processBuildEnd. rewrite He, Hf.
    cbn [List.length Nat.eqb negb isFirst removeSync set_tempFile set_cached].
    rewrite Hfirst. repeat split.
    exists [ConsoleLog; ConsoleError e], msg_import_warn. split.
    + cbn. now rewrite <- !app_assoc.
    + constructor; [now left|]. constructor; [right; now exists e|].
      constructor.
  - (* SchemaError *)
    destruct Hocc as (He & f & Hf & [Hfn|(Hfn & v & Hcall & Hobj)]).
    + rewrite (processBuildEnd_loaded X o t r s f _ _ He Hf
                 (Hcc _ _ _ (computeConfig_not_function X o f (inst s) Hfn))).
      repeat split.
      exists [], msg_notFunction_warn. split; [reflexivity|constructor].
    + rewrite (processBuildEnd_loaded X o t r s f _ _ He Hf
                 (Hcc _ _ _ (computeConfig_not_object X o f (inst s) v false
                               Hfn Hcall Hobj))).
      repeat split.
      exists [], msg_notObject_warn. split; [reflexivity|constructor].
  - (* RuntimeError *)
    destruct Hocc as (He & f & e & Hf & Hfn & Hcall).
    destruct (computeConfig_throws X o f (inst s) e Hfn Hcall)
      as (i' & Hc & Hq & Hcons).
    rewrite (processBuildEnd_loaded X o t r s f _ _ He Hf (Hcc _ _ _ Hc)).
    repeat split; [exact Hq|].
    exists [ConsoleLog; ConsoleError e], msg_runtime_warn. split.
    + exact Hcons.
    + constructor; [now left|]. constructor; [right; now exists e|].
      constructor.
  - (* NetworkError *)
    destruct Hocc as (f & u & cfg & i1 & i2
                      & (He & Hf & Hfn & Hcall & Hobj) & Hmerge & Hnet).
    assert (Hc : computeConfig X o f false (inst s)
                 = (Throw NetworkErrorThrown, i2)).
    { rewrite (computeConfig_valid X o f (inst s) u false Hfn Hcall Hobj).
      unfold derive, beforePwa. unfold bind. now rewrite Hmerge, Hnet. }
    destruct (sameConf_trans _ _ _
                (keeps_mergeDefaults X u _ _ _ Hmerge)
                (keeps_resolveAddress X o cfg _ _ _ Hnet)) as [Hq Hcons].
    rewrite (processBuildEnd_loaded X o t r s f _ _ He Hf (Hcc _ _ _ Hc)).
    repeat split; assumption.
  - (* ManifestError *)
    destruct Hocc as (merged & icons & Hreach & Hlen).
    destruct (reachesPwa_exits X o r s merged icons (JNum 0) Hreach Hlen
                (or_introl eq_refl)) as (f & i' & He & Hf & Hc).
    now rewrite (processBuildEnd_loaded X o t r s f _ _ He Hf (Hc _)).
  - (* ConfigValueError *)
    destruct Hocc as (merged & icons & len & Hreach & Hlen & _ & Hmode).
    destruct (reachesPwa_exits X o r s merged icons len Hreach Hlen
                (or_intror Hmode)) as (f & i' & He & Hf & Hc).
    now rewrite (processBuildEnd_loaded X o t r s f _ _ He Hf (Hc _)).
Qed.

(** An armed pwa session takes a build that does not compile as a
    warning. *)
Lemma later_cycle_errors_witness :
  warnedOnly armedPwa
    (onEnd refExternals (watchOpts None) 5 brokenBuild armedPwa).
Proof.
  apply (later_cycle_errors refExternals (watchOpts None) 5 brokenBuild
           armedPwa CompileError).
  - reflexivity.
  - reflexivity.
  - intros H. discriminate H.
Defined.

(** C2 as stated fails for three kinds of the taxonomy.  In an armed pwa
    session, a later cycle whose configuration has no icons ends the
    process with code 1; in an armed development session, a later cycle
    whose address negotiation is declined throws NETWORK_ERROR out of the
    handler and logs no warning. *)
Lemma later_cycle_errors_counterexample :
  (isFirst armedPwa = false /\ isWatching armedPwa = true
   /\ exited armedPwa = None
   /\ occurs refExternals (watchOpts None) ManifestError
        (goodBuild (JObj [])) armedPwa
   /\ exited (onEnd refExternals (watchOpts None) 5 (goodBuild (JObj []))
                armedPwa) = Some 1)
  /\ (isFirst armedDev = false /\ isWatching armedDev = true
      /\ exited armedDev = None
      /\ occurs refExternals (watchOpts (Some busy9000)) NetworkError
           (goodBuild otherPort) armedDev
      /\ let s' := onEnd refExternals (watchOpts (Some busy9000)) 5
                     (goodBuild otherPort) armedDev in
         rejected s' = [NetworkErrorThrown]
         /\ console (inst s') = console (inst armedDev)).
Proof.
  split.
  - split; [vm_compute; reflexivity|]. split; [vm_compute; reflexivity|].
    split; [vm_compute; reflexivity|]. split; [|vm_compute; reflexivity].
    cbn [occurs]. exists noIconsMerged, (JArr []).
    split; [|vm_compute; reflexivity].
    exists (goodFactory (JObj [])), (JObj []),
           (propsOf (fst noIconsReached)), (snd noIconsReached).
    unfold validUserCfg.
    repeat match goal with |- _ /\ _ => split end; vm_compute; reflexivity.
  - split; [vm_compute; reflexivity|]. split; [vm_compute; reflexivity|].
    split; [vm_compute; reflexivity|].
    split; [|split; vm_compute; reflexivity].
    cbn [occurs].
    exists (goodFactory otherPort), otherPort,
           (valueOf (fst otherPortMerged)), (snd otherPortMerged),
           (called (JObj [ ("host", JStr "0.0.0.0"); ("port", JNum 9000) ])
              (snd otherPortMerged)).
    unfold validUserCfg.
    repeat match goal with |- _ /\ _ => split end; vm_compute; reflexivity.
Qed.

(** ** The temporary artifact *)

Lemma finish_runM_same {A} (m : M A) (s : State) :
  sameWatch s (finish (runM m s)).
Proof.
  unfold runM, finish. destruct (m (inst s)) as [[a|e|c] i];
    repeat split.
Qed.

(** Every path of [build.onEnd] behind the guard removes the temporary
    file. *)
Lemma processBuildEnd_removes (X : Externals) (o : Opts) (t : Z)
    (r : BuildResult) (s : State) :
  tempFile (processBuildEnd X o t r s) = false.
Proof.
  destruct (errors r) as [|e l] eqn:He.
  - destruct (requireFactory r) as [e|f] eqn:Hf.
    + unfold processBuildEnd. rewrite He, Hf. cbn [List.length Nat.eqb negb].
      destruct (finish_runM_same
                  (emit ConsoleLog ;; emit (ConsoleError e) ;;
                   if isFirst (removeSync (set_cached false s))
                   then fatal msg_import_fatal
                   else warn msg_import_warn)%M
                  (removeSync (set_cached false s)))
        as (_ & _ & _ & _ & _ & H).
      exact H.
    + destruct (computeConfig X o f (isFirst s) (inst s)) as [res i'] eqn:Hc.
      rewrite (processBuildEnd_loaded X o t r s f res i' He Hf Hc).
      destruct res as [[conf|]|e|c]; try reflexivity.
      cbv zeta. destruct (isFirst s); [reflexivity|].
      destruct (negb (Js.is_undefined (conf_quasarConf conf)));
        [|reflexivity].
      unfold scheduleUpdate. cbn [tempFile set_timer].
      destruct (finish_runM_same (log msg_scheduled)
                  (set_updateFn
                     (Some (escalate (updateFn s) (pipelineAffecting i')))
                     (set_inst i' (beforeNormalize s))))
        as (_ & _ & _ & _ & _ & H).
      rewrite H. reflexivity.
  - unfold processBuildEnd. rewrite He. cbn [List.length Nat.eqb negb].
    destruct (finish_runM_same
                (if isFirst (removeSync (set_cached false s))
                 then fatal msg_compile_fatal
                 else warn msg_compile_warn)
                (removeSync (set_cached false s)))
      as (_ & _ & _ & _ & _ & H).
    exact H.
Qed.

(** The one-shot path removes the temporary file on every outcome. *)
Lemma build_removes (X : Externals) (o : Opts) (r : BuildResult) (s : State) :
  tempFile (snd (build X o r s)) = false.
Proof.
  unfold build, esbuildWrite. destruct (errors r) as [|e l].
  - destruct (load r) as [e|exports call].
    + unfold runM. cbn [inst removeSync set_tempFile].
      destruct ((emit ConsoleLog ;; emit (ConsoleError e) ;;
                 fatal msg_runtime_fatal)%M (inst s)) as [res i].
      reflexivity.
    + destruct (Js.get exports "default") as [d|e|c]; try reflexivity.
      unfold runM. cbn [inst removeSync set_tempFile set_cached].
      destruct (computeConfig X o _ true (inst s)) as [res i]. reflexivity.
  - unfold runM. cbn [inst removeSync set_tempFile].
    destruct ((emit ConsoleLog ;; emit (ConsoleError (ForeignError "esbuild")) ;;
               fatal msg_compile_fatal)%M (inst s)) as [res i].
    reflexivity.
Qed.

(** C1 fails on one path of the code.  A build-finished event that is not
    the first and arrives before [watch()] returns at the guard of lines
    191-194: the artifact that esbuild has just written stays on disk,
    while every path behind the guard and every path of the one-shot build
    removes it. *)
Theorem tempFile_left_when_unarmed (X : Externals) (o : Opts) (t : Z)
    (r : BuildResult) (s : State) :
  exited s = None ->
  isFirst s = false ->
  isWatching s = false ->
  errors r = [] ->
  tempFile (step X o s (BuildFinished t r)) = true.
Proof.
  intros Hex Hfirst Hw He. unfold step. rewrite Hex.
  assert (Ha : isFirst (advance t s) = false /\ isWatching (advance t s) = false).
  { unfold advance, fireUpdate.
    destruct (timer s) as [due|]; [|now split].
    destruct (due <=? t); [|now split].
    destruct (updateFn (set_timer None s)); now split. }
  destruct Ha as [Hf' Hw'].
  unfold onEnd, esbuildWrite. rewrite He.
  cbn [isFirst isWatching set_tempFile]. rewrite Hf', Hw'. reflexivity.
Qed.

(** The edit of [withPublicPath] in the unarmed session [unarmedDev]
    leaves the artifact behind. *)
Lemma tempFile_left_when_unarmed_witness :
  tempFile (step refExternals (watchOpts None) unarmedDev
              (BuildFinished 5 withPublicPath)) = true.
Proof.
  apply (tempFile_left_when_unarmed refExternals (watchOpts None) 5
           withPublicPath unarmedDev); vm_compute; reflexivity.
Defined.

(** ** Before [watch()] *)

(** The first build-finished event never schedules or delivers an
    update. *)
Lemma processBuildEnd_first_quiet (X : Externals) (o : Opts) (t : Z)
    (r : BuildResult) (s : State) :
  isFirst s = true ->
  isWatching (processBuildEnd X o t r s) = isWatching s
  /\ timer (processBuildEnd X o t r s) = timer s
  /\ delivered (processBuildEnd X o t r s) = delivered s.
Proof.
  intros Hfirst. destruct (errors r) as [|e l] eqn:He.
  - destruct (requireFactory r) as [e|f] eqn:Hf.
    + unfold processBuildEnd. rewrite He, Hf. cbn [List.length Nat.eqb negb].
      destruct (finish_runM_same
                  (emit ConsoleLog ;; emit (ConsoleError e) ;;
                   if isFirst (removeSync (set_cached false s))
                   then fatal msg_import_fatal
                   else warn msg_import_warn)%M
                  (removeSync (set_cached false s)))
        as (H1 & _ & _ & H2 & H3 & _).
      now rewrite H1, H2, H3.
    + destruct (computeConfig X o f (isFirst s) (inst s)) as [res i'] eqn:Hc.
      rewrite (processBuildEnd_loaded X o t r s f res i' He Hf Hc).
      cbv zeta. rewrite Hfirst.
      destruct res as [[conf|]|e|c]; repeat split.
  - unfold processBuildEnd. rewrite He. cbn [List.length Nat.eqb negb].
    destruct (finish_runM_same
                (if isFirst (removeSync (set_cached false s))
                 then fatal msg_compile_fatal
                 else warn msg_compile_warn)
                (removeSync (set_cached false s)))
      as (H1 & _ & _ & H2 & H3 & _).
    now rewrite H1, H2, H3.
Qed.

Lemma advance_idle (t : Z) (s : State) : timer s = None -> advance t s = s.
Proof.
  intros H. unfold advance. now rewrite H.
Qed.

(** Without a call of [watch()], a step keeps the session unarmed, without
    a timer and without a delivered update. *)
Lemma step_unarmed (X : Externals) (o : Opts) (s : State) (ev : Event) :
  notWatchCalled ev ->
  isWatching s = false /\ timer s = None /\ delivered s = [] ->
  isWatching (step X o s ev) = false
  /\ timer (step X o s ev) = None
  /\ delivered (step X o s ev) = [].
Proof.
  intros Hev (Hw & Ht & Hd). unfold step.
  destruct (exited s); [now repeat split|].
  destruct ev as [t|t r|t|t]; rewrite (advance_idle _ _ Ht).
  - unfold onStart. destruct (negb (isFirst s)); [|now repeat split].
    destruct (finish_runM_same (log msg_changed) s)
      as (H1 & _ & _ & H2 & H3 & _).
    now rewrite H1, H2, H3.
  - assert (Hs : isWatching (esbuildWrite r s) = false
                 /\ timer (esbuildWrite r s) = None
                 /\ delivered (esbuildWrite r s) = []
                 /\ isFirst (esbuildWrite r s) = isFirst s).
    { unfold esbuildWrite. destruct (errors r); now repeat split. }
    destruct Hs as (Hw' & Ht' & Hd' & Hf').
    unfold onEnd. rewrite Hw'. cbn [negb]. rewrite andb_true_r.
    destruct (isFirst (esbuildWrite r s)) eqn:Hfirst; cbn [negb].
    + destruct (processBuildEnd_first_quiet X o t r _ Hfirst)
        as (H1 & H2 & H3).
      now rewrite H1, H2, H3.
    + now repeat split.
  - destruct Hev.
  - now repeat split.
Qed.

(** C9, as the code has it.  While the session is unarmed, the first
    build-finished event is fully processed and every later one returns at
    the guard, leaving the state as it is; and whatever events arrive
    before [watch()] is called, no update callback is ever delivered. *)
Theorem unarmed_events (X : Externals) (o : Opts) :
  (forall t r s,
     isWatching s = false ->
     onEnd X o t r s = if isFirst s then processBuildEnd X o t r s else s)
  /\ (forall c evs,
        Forall notWatchCalled evs ->
        delivered (run X o (buildAndWatch c) evs) = []
        /\ timer (run X o (buildAndWatch c) evs) = None).
Proof.
  split.
  - intros t r s Hw. unfold onEnd. rewrite Hw. cbn [negb].
    rewrite andb_true_r. now destruct (isFirst s).
  - intros c evs Hall.
    assert (Hinv : forall s,
              isWatching s = false /\ timer s = None /\ delivered s = [] ->
              isWatching (run X o s evs) = false
              /\ timer (run X o s evs) = None
              /\ delivered (run X o s evs) = []).
    { induction Hall as [|ev tl Hev Htl IH]; intros s Hs; [exact Hs|].
      cbn [run fold_left]. apply IH. now apply step_unarmed. }
    destruct (Hinv (buildAndWatch c)) as (_ & Ht & Hd); [now repeat split|].
    now split.
Qed.

(** C9 as stated fails for the events after the first.  In the unarmed
    session [unarmedDev], the edit [withPublicPath] is not processed: the
    stored configuration keeps the empty public path and the artifact
    stays on disk, whereas processing the event would have stored the
    public path [/app/] and removed the artifact. *)
Lemma unarmed_events_counterexample :
  isWatching unarmedDev = false
  /\ (let s2 := step refExternals (watchOpts None) unarmedDev
                  (BuildFinished 5 withPublicPath) in
      Js.get_path (quasarConf (inst s2)) ["build"; "publicPath"]
      = Ok (JStr "")
      /\ tempFile s2 = true)
  /\ (let p := processBuildEnd refExternals (watchOpts None) 5 withPublicPath
                 (esbuildWrite withPublicPath unarmedDev) in
      Js.get_path (quasarConf (inst p)) ["build"; "publicPath"]
      = Ok (JStr "/app/")
      /\ tempFile p = false).
Proof.
  split; [vm_compute; reflexivity|].
  split; split; vm_compute; reflexivity.
Qed.

(** ** Coalescing of updates *)

Lemma normalizes_inv (X : Externals) (o : Opts) (r : BuildResult)
    (s : State) (i' : Instance) :
  normalizes X o r s = Some i' ->
  exists f conf,
    errors r = [] /\ requireFactory r = inr f
    /\ computeConfig X o f (isFirst s) (inst s) = (Ok (Some conf), i')
    /\ Js.is_undefined (conf_quasarConf conf) = false.
Proof.
  unfold normalizes. destruct (errors r) as [|e l]; [|discriminate].
  destruct (requireFactory r) as [e|f]; [discriminate|].
  destruct (computeConfig X o f (isFirst s) (inst s))
    as [[[conf|]|e|c] i1] eqn:Hc; try discriminate.
  destruct (Js.is_undefined (conf_quasarConf conf)) eqn:E; [discriminate|].
  intros H. injection H as <-. now exists f, conf.
Qed.

(** A build-finished event that normalizes, in an armed session past its
    first build and with no timer due yet: the pending severity is
    escalated and the timer restarts; nothing is delivered. *)
Lemma successful_event (X : Externals) (o : Opts) (t : Z) (r : BuildResult)
    (s : State) (i' : Instance) :
  exited s = None -> isFirst s = false -> isWatching s = true ->
  normalizes X o r s = Some i' ->
  (timer s = None \/ exists due, timer s = Some due /\ t < due) ->
  let s' := step X o s (BuildFinished t r) in
  exited s' = None /\ isFirst s' = false /\ isWatching s' = true
  /\ timer s' = Some (t + 1000)
  /\ updateFn s' = Some (escalate (updateFn s) (pipelineAffecting i'))
  /\ delivered s' = delivered s.
Proof.
  intros Hex Hfirst Hw Hn Htimer s'. subst s'. unfold step. rewrite Hex.
  assert (Hadv : advance t s = s).
  { destruct Htimer as [H|(due & H & Hlt)]; [now apply advance_idle|].
    unfold advance. rewrite H.
    destruct (due <=? t) eqn:E; [|reflexivity].
    apply Z.leb_le in E. lia. }
  rewrite Hadv.
  destruct (normalizes_inv X o r s i' Hn) as (f & conf & He & Hf & Hc & Hu).
  assert (Hs0 : esbuildWrite r s = set_tempFile true s).
  { unfold esbuildWrite. now rewrite He. }
  rewrite Hs0.
  rewrite onEnd_armed by exact Hw.
  rewrite (processBuildEnd_loaded X o t r (set_tempFile true s) f _ i' He Hf Hc).
  cbv zeta. cbn [isFirst set_tempFile]. rewrite Hfirst, Hu. cbn [negb].
  unfold scheduleUpdate.
  destruct (finish_runM_same (log msg_scheduled)
              (set_updateFn
                 (Some (escalate (updateFn (set_tempFile true s))
                          (pipelineAffecting i')))
                 (set_inst i' (beforeNormalize (set_tempFile true s)))))
    as (H1 & H2 & H3 & _ & H5 & _).
  cbn [exited isFirst isWatching timer updateFn delivered set_timer].
  rewrite H1, H2, H3, H5. repeat split; try assumption.
Qed.

Lemma foldSeverity_some (sigs : list bool) (v : UpdateFn) :
  foldSeverity (Some v) sigs
  = Some (if match v with OnBuildChange => true | OnAppChange => false end
             || existsb (fun b => b) sigs
          then OnBuildChange else OnAppChange).
Proof.
  revert v. induction sigs as [|b tl IH]; intros v.
  - destruct v; reflexivity.
  - cbn [foldSeverity fold_left]. fold (foldSeverity (Some (escalate (Some v) b)) tl).
    rewrite IH. unfold escalate. destruct v, b; reflexivity.
Qed.

Lemma foldSeverity_window (b : bool) (sigs : list bool) :
  foldSeverity None (b :: sigs) = Some (severity (b :: sigs)).
Proof.
  cbn [foldSeverity fold_left]. fold (foldSeverity (Some (escalate None b)) sigs).
  rewrite foldSeverity_some. unfold severity, escalate.
  destruct b; reflexivity.
Qed.

(** A run of normalizing events, each within a second of the one before:
    the timer is pushed back each time and the severity accumulates. *)
Lemma window_run (X : Externals) (o : Opts) (evs : list (Z * BuildResult)) :
  forall (s : State) (t0 : Z) (sigs : list bool),
    exited s = None -> isFirst s = false -> isWatching s = true ->
    timer s = Some (t0 + 1000) ->
    windowSignals X o s evs = Some sigs ->
    spaced t0 evs ->
    let sN := run X o s (map buildFinished evs) in
    exited sN = None /\ isFirst sN = false /\ isWatching sN = true
    /\ timer sN = Some (lastTime t0 evs + 1000)
    /\ updateFn sN = foldSeverity (updateFn s) sigs
    /\ delivered sN = delivered s.
Proof.
  induction evs as [|[t r] tl IH]; intros s t0 sigs Hex Hfirst Hw Ht Hsig Hsp.
  - injection Hsig as <-. now repeat split.
  - cbn [windowSignals snd] in Hsig.
    destruct (normalizes X o r s) as [i'|] eqn:Hn; [|discriminate].
    destruct (windowSignals X o (step X o s (buildFinished (t, r))) tl)
      as [sigs'|] eqn:Htl; [|discriminate].
    injection Hsig as <-.
    destruct Hsp as [[Hle Hlt] Hsp]. cbn [fst] in Hle, Hlt, Hsp.
    change (buildFinished (t, r)) with (BuildFinished t r) in Htl.
    destruct (successful_event X o t r s i' Hex Hfirst Hw Hn
                (or_intror (ex_intro _ (t0 + 1000) (conj Ht Hlt))))
      as (E1 & E2 & E3 & E4 & E5 & E6).
    destruct (IH _ t sigs' E1 E2 E3 E4 Htl Hsp)
      as (F1 & F2 & F3 & F4 & F5 & F6).
    change (run X o s (map buildFinished ((t, r) :: tl)))
      with (run X o (step X o s (BuildFinished t r)) (map buildFinished tl)).
    cbn [lastTime fst foldSeverity fold_left].
    fold (foldSeverity (Some (escalate (updateFn s) (pipelineAffecting i')))
            sigs').
    repeat split; try assumption.
    + now rewrite F5, E5.
    + now rewrite F6.
Qed.

Lemma onEnd_keeps_pipeline_level (X : Externals) (o : Opts) (t : Z)
    (r : BuildResult) (s : State) :
  updateFn s = Some OnBuildChange ->
  updateFn (onEnd X o t r s) = Some OnBuildChange.
Proof.
  intros Hu. unfold onEnd.
  destruct (negb (isFirst s) && negb (isWatching s)); [exact Hu|].
  destruct (errors r) as [|e l] eqn:He.
  - destruct (requireFactory r) as [e|f] eqn:Hf.
    + unfold processBuildEnd. rewrite He, Hf. cbn [List.length Nat.eqb negb].
      destruct (finish_runM_same
                  (emit ConsoleLog ;; emit (ConsoleError e) ;;
                   if isFirst (removeSync (set_cached false s))
                   then fatal msg_import_fatal
                   else warn msg_import_warn)%M
                  (removeSync (set_cached false s)))
        as (_ & _ & H & _).
      now rewrite H.
    + destruct (computeConfig X o f (isFirst s) (inst s)) as [res i'] eqn:Hc.
      rewrite (processBuildEnd_loaded X o t r s f res i' He Hf Hc).
      cbv zeta. destruct res as [[conf|]|e|c]; try exact Hu.
      destruct (isFirst s); [exact Hu|].
      destruct (negb (Js.is_undefined (conf_quasarConf conf))); [|exact Hu].
      unfold scheduleUpdate. cbn [updateFn set_timer].
      destruct (finish_runM_same (log msg_scheduled)
                  (set_updateFn
                     (Some (escalate (updateFn s) (pipelineAffecting i')))
                     (set_inst i' (beforeNormalize s))))
        as (_ & _ & H & _).
      rewrite H. cbn [updateFn set_updateFn]. now rewrite Hu.
  - unfold processBuildEnd. rewrite He. cbn [List.length Nat.eqb negb].
    destruct (finish_runM_same
                (if isFirst (removeSync (set_cached false s))
                 then fatal msg_compile_fatal
                 else warn msg_compile_warn)
                (removeSync (set_cached false s)))
      as (_ & _ & H & _).
    now rewrite H.
Qed.

(** C3: in an armed session past its first build and with nothing
    pending, a run of one or more build-finished events that all normalize,
    each completing less than a second after the one before, delivers
    nothing while it lasts and exactly one callback once a second has
    passed after the last of them: [onBuildChange] when the
    pipeline-affecting signal was raised by any of the events,
    [onAppChange] otherwise; and no build-finished event ever lowers a
    pending [onBuildChange]. *)
Theorem coalesced_update (X : Externals) (o : Opts) (s : State)
    (t1 : Z) (r1 : BuildResult) (rest : list (Z * BuildResult))
    (sigs : list bool) (T : Z) :
  exited s = None -> isFirst s = false -> isWatching s = true ->
  timer s = None -> updateFn s = None ->
  windowSignals X o s ((t1, r1) :: rest) = Some sigs ->
  spaced t1 rest ->
  lastTime t1 rest + 1000 <= T ->
  let window := map buildFinished ((t1, r1) :: rest) in
  let s' := run X o s (window ++ [Elapsed T]) in
  delivered (run X o s window) = delivered s
  /\ delivered s' = (delivered s ++ [severity sigs])%list
  /\ timer s' = None
  /\ updateFn s' = None
  /\ (forall t r s0,
        updateFn s0 = Some OnBuildChange ->
        updateFn (onEnd X o t r s0) = Some OnBuildChange).
Proof.
  intros Hex Hfirst Hw Ht Hu Hsig Hsp HT window s'.
  cbn [windowSignals snd] in Hsig.
  destruct (normalizes X o r1 s) as [i1|] eqn:Hn; [|discriminate].
  change (buildFinished (t1, r1)) with (BuildFinished t1 r1) in Hsig.
  destruct (windowSignals X o (step X o s (BuildFinished t1 r1)) rest)
    as [sigs'|] eqn:Htl; [|discriminate].
  injection Hsig as <-.
  destruct (successful_event X o t1 r1 s i1 Hex Hfirst Hw Hn (or_introl Ht))
    as (E1 & E2 & E3 & E4 & E5 & E6).
  destruct (window_run X o rest _ t1 sigs' E1 E2 E3 E4 Htl Hsp)
    as (F1 & F2 & F3 & F4 & F5 & F6).
  assert (Hwin : run X o s window
                 = run X o (step X o s (BuildFinished t1 r1))
                     (map buildFinished rest)) by reflexivity.
  assert (Hsev : updateFn (run X o s window)
                 = Some (severity (pipelineAffecting i1 :: sigs'))).
  { rewrite Hwin, F5, E5, Hu. apply foldSeverity_window. }
  split; [rewrite Hwin, F6; exact E6|].
  assert (Hs' : s' = fireUpdate (set_timer None (run X o s window))).
  { subst s'. unfold run. rewrite fold_left_app. cbn [fold_left].
    fold (run X o s window). unfold step. rewrite Hwin, F1. unfold advance.
    rewrite F4. destruct (lastTime t1 rest + 1000 <=? T) eqn:E; [reflexivity|].
    apply Z.leb_gt in E. lia. }
  rewrite Hs'. unfold fireUpdate. cbn [updateFn set_timer]. rewrite Hsev.
  cbn [delivered timer updateFn set_updateFn set_delivered set_timer].
  rewrite Hwin, F6, E6.
  repeat split. exact (onEnd_keeps_pipeline_level X o).
Qed.

(** Two edits within a second in the armed session [armedDev], the first
    one changing the public path: one [onBuildChange] is delivered. *)
Lemma coalesced_update_witness :
  delivered
    (run refExternals (watchOpts (Some busy9000)) armedDev
       (map buildFinished [ (5, withPublicPath); (600, withPublicPath) ]
        ++ [ Elapsed 1700 ]))
  = [ OnBuildChange ].
Proof.
  assert (Hsp : spaced 5 [ (600, withPublicPath) ]).
  { cbn [spaced fst]. split; [lia|exact I]. }
  assert (HT : lastTime 5 [ (600, withPublicPath) ] + 1000 <= 1700).
  { cbn [lastTime fst]. lia. }
  assert (Hsig : windowSignals refExternals (watchOpts (Some busy9000))
                   armedDev [ (5, withPublicPath); (600, withPublicPath) ]
                 = Some [ true; false ])
    by (vm_compute; reflexivity).
  exact (proj1 (proj2
           (coalesced_update refExternals (watchOpts (Some busy9000)) armedDev
              5 withPublicPath [ (600, withPublicPath) ] [ true; false ] 1700
              eq_refl eq_refl eq_refl eq_refl eq_refl Hsig Hsp HT))).
Defined.

(** * Further properties of the module *)

(** ** Escaping of template variables *)

Lemma removeAll_filter (drop : ascii -> bool) (s : string) :
  list_ascii_of_string (removeAll drop s)
  = filter (fun c => negb (drop c)) (list_ascii_of_string s).
Proof.
  induction s as [|c r IH]; [reflexivity|].
  cbn [removeAll list_ascii_of_string filter].
  destruct (drop c); cbn [negb list_ascii_of_string]; now rewrite IH.
Qed.

Lemma removeAll_idempotent (drop : ascii -> bool) (s : string) :
  removeAll drop (removeAll drop s) = removeAll drop s.
Proof.
  induction s as [|c r IH]; [reflexivity|].
  cbn [removeAll]. destruct (drop c) eqn:E; [exact IH|].
  cbn [removeAll]. now rewrite E, IH.
Qed.

Lemma escape_as_removeAll (drop : ascii -> bool) (s : string) :
  (if negb (s =? "")%string then removeAll drop s else "") = removeAll drop s.
Proof.
  destruct s; reflexivity.
Qed.

(** X1: [escapeHTMLTagContent] returns its argument without the angle
    brackets and with every other code unit in place and in order; hence
    the result holds no angle bracket, and escaping twice is escaping
    once. *)
Theorem escapeHTMLTagContent_spec (s : string) :
  list_ascii_of_string (escapeHTMLTagContent s)
  = filter (fun c => negb (isAngle c)) (list_ascii_of_string s)
  /\ (forall c, In c (list_ascii_of_string (escapeHTMLTagContent s)) ->
                c <> "<"%char /\ c <> ">"%char)
  /\ escapeHTMLTagContent (escapeHTMLTagContent s) = escapeHTMLTagContent s.
Proof.
  unfold escapeHTMLTagContent. rewrite !escape_as_removeAll.
  split; [apply removeAll_filter|]. split.
  - intros c Hin. rewrite removeAll_filter in Hin.
    apply filter_In in Hin. destruct Hin as [_ Hc].
    apply negb_true_iff in Hc. unfold isAngle in Hc.
    apply orb_false_iff in Hc. destruct Hc as [H1 H2].
    split; intros ->; [now rewrite Ascii.eqb_refl in H1
                      |now rewrite Ascii.eqb_refl in H2].
  - apply removeAll_idempotent.
Qed.

(** X2: [escapeHTMLAttribute] returns its argument without the double
    quotes and with every other code unit in place and in order; the
    result holds no double quote, and escaping twice is escaping once. *)
Theorem escapeHTMLAttribute_spec (s : string) :
  list_ascii_of_string (escapeHTMLAttribute s)
  = filter (fun c => negb (isDquote c)) (list_ascii_of_string s)
  /\ (forall c, In c (list_ascii_of_string (escapeHTMLAttribute s)) ->
                nat_of_ascii c <> 34%nat)
  /\ escapeHTMLAttribute (escapeHTMLAttribute s) = escapeHTMLAttribute s.
Proof.
  unfold escapeHTMLAttribute. rewrite !escape_as_removeAll.
  split; [apply removeAll_filter|]. split.
  - intros c Hin. rewrite removeAll_filter in Hin.
    apply filter_In in Hin. destruct Hin as [_ Hc].
    apply negb_true_iff in Hc. unfold isDquote in Hc.
    now apply Nat.eqb_neq in Hc.
  - apply removeAll_idempotent.
Qed.

(** ** [getUniqueArray] *)

Lemma strict_eq_primitive (a b : JsValue) :
  isPrimitive a = true -> (Js.strict_eq a b = true <-> a = b).
Proof.
  intros Ha. destruct a; try discriminate Ha; destruct b; simpl;
    split; intros H; try discriminate H; try reflexivity.
  - now apply Bool.eqb_prop in H; subst.
  - injection H as ->. apply Bool.eqb_reflx.
  - now apply Z.eqb_eq in H; subst.
  - injection H as ->. apply Z.eqb_refl.
  - now apply String.eqb_eq in H; subst.
  - injection H as ->. apply String.eqb_refl.
Qed.

Lemma existsb_strict_eq (v : JsValue) (set : list JsValue) :
  isPrimitive v = true ->
  (existsb (Js.strict_eq v) set = true <-> In v set).
Proof.
  intros Hv. rewrite existsb_exists. split.
  - intros (x & Hin & Heq). apply (strict_eq_primitive v x Hv) in Heq.
    now subst.
  - intros Hin. exists v. split; [exact Hin|].
    now apply (strict_eq_primitive v v Hv).
Qed.

Lemma setAdd_fold (l : list JsValue) :
  Forall (fun v => isPrimitive v = true) l ->
  forall acc,
    NoDup acc ->
    NoDup (fold_left setAdd l acc)
    /\ (forall x, In x (fold_left setAdd l acc) <-> In x acc \/ In x l).
Proof.
  induction 1 as [|v tl Hv Htl IH]; intros acc Hnd.
  - split; [exact Hnd|]. intros x. cbn. tauto.
  - cbn [fold_left]. unfold setAdd at 2 4.
    destruct (existsb (Js.strict_eq v) acc) eqn:E.
    + apply (existsb_strict_eq v acc Hv) in E.
      destruct (IH acc Hnd) as [N M]. split; [exact N|].
      intros x. rewrite M. cbn [In]. split; [tauto|].
      intros [H|[H|H]]; subst; tauto.
    + assert (Hnin : ~ In v acc).
      { intros Hin. apply (existsb_strict_eq v acc Hv) in Hin. congruence. }
      assert (Hnd' : NoDup (acc ++ [v])%list).
      { apply NoDup_app; [exact Hnd|repeat constructor; intros []|].
        intros x Hx [<-|[]]. exact (Hnin Hx). }
      destruct (IH _ Hnd') as [N M]. split; [exact N|].
      intros x. rewrite M, in_app_iff. cbn [In]. tauto.
Qed.

Lemma setAdd_fold_nodup (l : list JsValue) :
  Forall (fun v => isPrimitive v = true) l ->
  forall acc, NoDup (acc ++ l)%list -> fold_left setAdd l acc = (acc ++ l)%list.
Proof.
  induction 1 as [|v tl Hv Htl IH]; intros acc Hnd.
  - now rewrite app_nil_r.
  - cbn [fold_left]. unfold setAdd at 2.
    destruct (existsb (Js.strict_eq v) acc) eqn:E.
    + apply (existsb_strict_eq v acc Hv) in E. exfalso.
      apply NoDup_remove_2 in Hnd. apply Hnd, in_or_app. now left.
    + rewrite IH; rewrite <- app_assoc; [reflexivity|exact Hnd].
Qed.

(** X3: on an array of primitive values [getUniqueArray] returns an array
    without repetition that has exactly the members of the argument; an
    array without repetition is returned as it is, so the function is
    idempotent. *)
Theorem getUniqueArray_spec (l : list JsValue) :
  Forall (fun v => isPrimitive v = true) l ->
  NoDup (getUniqueArray l)
  /\ (forall x, In x (getUniqueArray l) <-> In x l)
  /\ (NoDup l -> getUniqueArray l = l)
  /\ getUniqueArray (getUniqueArray l) = getUniqueArray l.
Proof.
  intros Hl. unfold getUniqueArray.
  destruct (setAdd_fold l Hl [] (NoDup_nil _)) as [N M].
  assert (Hmem : forall x, In x (fold_left setAdd l []) <-> In x l).
  { intros x. rewrite M. cbn [In]. tauto. }
  split; [exact N|]. split; [exact Hmem|]. split.
  - intros Hnd. now apply (setAdd_fold_nodup l Hl []).
  - apply (setAdd_fold_nodup (fold_left setAdd l [])); [|exact N].
    apply Forall_forall. intros x Hx. apply Hmem in Hx.
    now apply (proj1 (Forall_forall _ _) Hl).
Qed.

(** The extras [a, b, a] become [a, b]. *)
Lemma getUniqueArray_spec_witness :
  NoDup (getUniqueArray [ JStr "roboto-font"; JStr "mdi-v7"; JStr "roboto-font" ]).
Proof.
  apply (getUniqueArray_spec
           [ JStr "roboto-font"; JStr "mdi-v7"; JStr "roboto-font" ]).
  repeat constructor.
Defined.

(** ** [ApiBase] *)

Lemma hooksOf_pushHook_same (name : string) (e : Hook) h (l : list Hook) :
  hooksOf name h = Some l -> hooksOf name (pushHook name e h) = Some (l ++ [e])%list.
Proof.
  induction h as [|[k l0] tl IH]; cbn [hooksOf pushHook]; [discriminate|].
  destruct (name =? k)%string eqn:E; cbn [hooksOf]; rewrite E.
  - intros H. now injection H as ->.
  - exact IH.
Qed.

Lemma hooksOf_pushHook_other (name other : string) (e : Hook) h :
  other <> name -> hooksOf other (pushHook name e h) = hooksOf other h.
Proof.
  intros Hne. induction h as [|[k l0] tl IH]; cbn [hooksOf pushHook];
    [reflexivity|].
  destruct (name =? k)%string eqn:E; cbn [hooksOf].
  - apply String.eqb_eq in E. subst k.
    apply String.eqb_neq in Hne. now rewrite Hne.
  - destruct (other =? k)%string; [reflexivity|exact IH].
Qed.

(** X4: [__addHook] on a name that has a hook list appends the hook, with
    this api, at the end of that list and leaves every other list and the
    api's identity as they are; on a name without a list, as every name is
    on a bare [ApiBase], it throws a TypeError. *)
Theorem addHook_spec (name : string) (fn : JsValue) (api : ApiBase) :
  match hooksOf name (getHooks api) with
  | Some l =>
      exists api',
        addHook name fn api = Ok api'
        /\ hooksOf name (getHooks api')
           = Some (l ++ [ {| hook_fn := fn; hook_api := extId api |} ])%list
        /\ (forall other, other <> name ->
              hooksOf other (getHooks api') = hooksOf other (getHooks api))
        /\ extId api' = extId api /\ prompts api' = prompts api
  | None => addHook name fn api = Throw TypeError
  end
  /\ (forall id ps, addHook name fn (newApiBase id ps) = Throw TypeError).
Proof.
  split; [|reflexivity].
  unfold getHooks, addHook. destruct (hooksOf name (hooks api)) as [l|] eqn:E;
    [|reflexivity].
  eexists. split; [reflexivity|]. cbn [hooks extId prompts].
  split; [now apply hooksOf_pushHook_same|].
  split; [|now split].
  intros other Hne. now apply hooksOf_pushHook_other.
Qed.

(** ** Asset lists *)

Lemma indexOf_seen (x : string) (pre rest : list string) :
  In x pre ->
  exists n, indexOf (JStr x) (map JStr (pre ++ rest)) = Some n
            /\ (n < List.length pre)%nat.
Proof.
  induction pre as [|y tl IH]; intros Hin; [destruct Hin|].
  cbn [app map indexOf Js.strict_eq List.length].
  destruct (y =? x)%string eqn:E.
  - exists O. split; [reflexivity|apply Nat.lt_0_succ].
  - destruct Hin as [->|Hin]; [now rewrite String.eqb_refl in E|].
    destruct (IH Hin) as (n & Hn & Hlt). rewrite Hn.
    exists (S n). split; [reflexivity|]. now apply Nat.succ_lt_mono in Hlt.
Qed.

Lemma indexOf_fresh (x : string) (pre rest : list string) :
  ~ In x pre ->
  indexOf (JStr x) (map JStr (pre ++ x :: rest)) = Some (List.length pre).
Proof.
  induction pre as [|y tl IH]; intros Hnin.
  - cbn [app map indexOf Js.strict_eq List.length].
    now rewrite String.eqb_refl.
  - cbn [app map indexOf Js.strict_eq List.length].
    destruct (y =? x)%string eqn:E.
    + apply String.eqb_eq in E. subst y. exfalso. apply Hnin. now left.
    + rewrite IH; [reflexivity|]. intros H. apply Hnin. now right.
Qed.

Lemma existsb_eqb_In (x : string) (l : list string) :
  existsb (String.eqb x) l = true <-> In x l.
Proof.
  rewrite existsb_exists. split.
  - intros (y & Hin & E). apply String.eqb_eq in E. now subst.
  - intros Hin. exists x. split; [exact Hin|apply String.eqb_refl].
Qed.

Lemma pathsOf_assets (ps : list string) :
  pathsOf (map assetOf ps) = map JStr ps.
Proof.
  unfold pathsOf. rewrite map_map. reflexivity.
Qed.

(** The index test of [uniquePathFilter] keeps the first occurrence of
    each path. *)
Lemma uniquePathFilter_first (tl : list string) :
  forall pre : list string,
    filterFrom uniquePathFilter (map assetOf (pre ++ tl)) (List.length pre)
      (map assetOf tl)
    = map assetOf (dedupStr pre tl).
Proof.
  induction tl as [|x rest IH]; intros pre; [reflexivity|].
  cbn [map filterFrom dedupStr]. unfold uniquePathFilter at 1.
  fold (pathsOf (map assetOf (pre ++ x :: rest))). rewrite pathsOf_assets.
  change (Js.prop (assetOf x) "path") with (JStr x).
  assert (Hself : (pre ++ x :: rest = (pre ++ [x]) ++ rest)%list)
    by now rewrite <- app_assoc.
  assert (Hlen : S (List.length pre) = List.length (pre ++ [x])%list).
  { rewrite length_app. cbn. lia. }
  destruct (existsb (String.eqb x) pre) eqn:E.
  - apply existsb_eqb_In in E.
    destruct (indexOf_seen x pre (x :: rest) E) as (n & Hn & Hlt).
    rewrite Hn. apply Nat.lt_neq in Hlt. apply Nat.eqb_neq in Hlt.
    rewrite Hlt. rewrite Hself, Hlen, IH.
    (* the seen list only matters through membership *)
    clear -E. revert pre E. induction rest as [|y tl IH]; intros pre E;
      [reflexivity|].
    cbn [dedupStr].
    assert (Hy : existsb (String.eqb y) (pre ++ [x])
                 = existsb (String.eqb y) pre).
    { rewrite existsb_app. cbn [existsb]. rewrite orb_false_r.
      destruct (y =? x)%string eqn:Eyx; [|apply orb_false_r].
      apply String.eqb_eq in Eyx. subst y.
      apply existsb_eqb_In in E. rewrite E. reflexivity. }
    rewrite Hy. destruct (existsb (String.eqb y) pre) eqn:Ey.
    + now apply IH.
    + cbn [map]. f_equal.
      (* pre ++ [x] ++ [y] and pre ++ [y]: again the same members *)
      assert (Hin : In x (pre ++ [y])) by (apply in_or_app; now left).
      specialize (IH (pre ++ [y])%list Hin).
      rewrite <- IH. clear IH.
      assert (Hm : forall (a b : list string),
                (forall z, In z a <-> In z b) ->
                dedupStr a tl = dedupStr b tl).
      { clear. induction tl as [|z tl IH]; intros a b Hab; [reflexivity|].
        cbn [dedupStr].
        assert (Hz : existsb (String.eqb z) a = existsb (String.eqb z) b).
        { destruct (existsb (String.eqb z) a) eqn:Ea;
            destruct (existsb (String.eqb z) b) eqn:Eb; try reflexivity.
          - apply existsb_eqb_In in Ea. apply Hab in Ea.
            apply existsb_eqb_In in Ea. congruence.
          - apply existsb_eqb_In in Eb. apply Hab in Eb.
            apply existsb_eqb_In in Eb. congruence. }
        rewrite Hz. destruct (existsb (String.eqb z) b); [now apply IH|].
        f_equal. apply IH. intros w. rewrite !in_app_iff. now rewrite Hab. }
      apply f_equal, Hm. intros z. rewrite !in_app_iff. cbn [In]. tauto.
  - assert (Hnin : ~ In x pre).
    { intros H. apply existsb_eqb_In in H. congruence. }
    rewrite (indexOf_fresh x pre rest Hnin), Nat.eqb_refl.
    cbn [map]. f_equal. now rewrite Hself, Hlen, IH.
Qed.

Lemma dedupStr_spec (l : list string) :
  forall seen,
    NoDup (dedupStr seen l)
    /\ (forall x, In x (dedupStr seen l) <-> In x l /\ ~ In x seen).
Proof.
  induction l as [|y tl IH]; intros seen.
  - split; [constructor|]. intros x. cbn. tauto.
  - cbn [dedupStr]. destruct (existsb (String.eqb y) seen) eqn:E.
    + apply existsb_eqb_In in E. destruct (IH seen) as [N M].
      split; [exact N|]. intros x. rewrite M. cbn [In]. split; [tauto|].
      intros [[->|H] Hn]; [contradiction|tauto].
    + assert (Hy : ~ In y seen).
      { intros H. apply existsb_eqb_In in H. congruence. }
      destruct (IH (seen ++ [y])%list) as [N M]. split.
      * constructor; [|exact N]. rewrite M, in_app_iff. cbn [In]. tauto.
      * intros x. cbn [In]. rewrite M, in_app_iff. cbn [In].
        destruct (string_dec y x) as [->|Hne]; [tauto|]. tauto.
Qed.

Lemma filter_truthy_strings (names : list string) :
  filter Js.truthy (map JStr names) = map JStr (filter nonEmpty names).
Proof.
  induction names as [|n tl IH]; [reflexivity|].
  cbn [map filter Js.truthy]. fold (nonEmpty n).
  destruct (nonEmpty n); cbn [map]; now rewrite IH.
Qed.

Lemma parse_strings (prefix : string) (names : list string) :
  mapRes (parseAssetProperty prefix) (map JStr names)
  = Ok (map assetOf (map (resolveAsset prefix) names)).
Proof.
  induction names as [|n tl IH]; [reflexivity|].
  cbn [map mapRes parseAssetProperty rbind]. now rewrite IH.
Qed.

Lemma filter_path_assets (ps : list string) :
  filter (fun a => Js.truthy (Js.prop a "path")) (map assetOf ps)
  = map assetOf (filter nonEmpty ps).
Proof.
  induction ps as [|p tl IH]; [reflexivity|].
  cbn [map filter]. change (Js.truthy (Js.prop (assetOf p) "path"))
    with (nonEmpty p).
  destruct (nonEmpty p); cbn [map]; now rewrite IH.
Qed.

(** X5: for a list of string entries (css, boot, ssr middlewares) the
    asset pipeline drops the empty entries, resolves each entry (a leading
    tilde is cut off, any other entry gets the prefix and a slash in
    front), drops the entries resolved to the empty path, and keeps the
    first occurrence of each resolved path: the result has no two assets
    with the same path, and its paths are exactly the non-empty resolved
    paths of the non-empty entries. *)
Theorem assetList_strings (prefix : string) (names : list string) :
  let resolved :=
    filter nonEmpty (map (resolveAsset prefix) (filter nonEmpty names)) in
  assetList prefix (map JStr names) = Ok (map assetOf (dedupStr [] resolved))
  /\ NoDup (dedupStr [] resolved)
  /\ (forall p, In p (dedupStr [] resolved) <->
        p <> "" /\ exists n, In n names /\ n <> "" /\ resolveAsset prefix n = p).
Proof.
  intros resolved. split; [|split].
  - unfold assetList. rewrite filter_truthy_strings, parse_strings.
    cbn [rbind]. rewrite filter_path_assets. fold resolved.
    f_equal. exact (uniquePathFilter_first resolved []).
  - apply dedupStr_spec.
  - intros p. rewrite (proj2 (dedupStr_spec resolved [])). unfold resolved.
    rewrite filter_In, in_map_iff. unfold nonEmpty.
    rewrite negb_true_iff, String.eqb_neq. split.
    + intros [[(n & Hn & Hin) Hp] _]. split; [exact Hp|].
      apply filter_In in Hin. destruct Hin as [Hin Hne].
      apply negb_true_iff, String.eqb_neq in Hne. now exists n.
    + intros [Hp (n & Hin & Hne & Hn)]. split; [|intros []].
      split; [|exact Hp]. exists n. split; [exact Hn|].
      apply filter_In. split; [exact Hin|].
      now apply negb_true_iff, String.eqb_neq.
Qed.

(** ** The router base *)

Lemma dropWhile_run (keep : ascii -> bool) (h rest : string) :
  allChars keep h = true ->
  headIs (fun c => negb (keep c)) rest = true ->
  dropWhile keep (h ++ rest) = rest.
Proof.
  unfold allChars. induction h as [|c r IH]; cbn [list_ascii_of_string forallb].
  - intros _ Hhead. destruct rest as [|c r]; [reflexivity|].
    cbn [headIs] in Hhead. cbn [append dropWhile].
    apply negb_true_iff in Hhead. now rewrite Hhead.
  - intros Hall Hhead. apply andb_true_iff in Hall. destruct Hall as [Hc Hr].
    cbn [append dropWhile]. rewrite Hc. now apply IH.
Qed.

Lemma takeWhile_run (keep : ascii -> bool) (h rest : string) :
  allChars keep h = true ->
  headIs (fun c => negb (keep c)) rest = true ->
  takeWhile keep (h ++ rest) = h.
Proof.
  unfold allChars. induction h as [|c r IH]; cbn [list_ascii_of_string forallb].
  - intros _ Hhead. destruct rest as [|c r]; [reflexivity|].
    cbn [headIs] in Hhead. cbn [append takeWhile].
    apply negb_true_iff in Hhead. now rewrite Hhead.
  - intros Hall Hhead. apply andb_true_iff in Hall. destruct Hall as [Hc Hr].
    cbn [append takeWhile]. rewrite Hc. now rewrite IH.
Qed.

Lemma allChars_append (p : ascii -> bool) (a b : string) :
  allChars p (a ++ b) = allChars p a && allChars p b.
Proof.
  unfold allChars. rewrite list_ascii_of_append. apply forallb_app.
Qed.

Lemma allChars_dropWhile (p keep : ascii -> bool) (s : string) :
  allChars p s = true -> allChars p (dropWhile keep s) = true.
Proof.
  unfold allChars. induction s as [|c r IH]; [reflexivity|].
  intros H. cbn [dropWhile]. destruct (keep c); [|exact H].
  cbn [list_ascii_of_string forallb] in H. apply andb_true_iff in H.
  now apply IH.
Qed.

Lemma allChars_substringFrom (p : ascii -> bool) (n : nat) (s : string) :
  allChars p s = true -> allChars p (substringFrom n s) = true.
Proof.
  unfold allChars. revert s. induction n as [|n IH]; intros s H; [exact H|].
  destruct s as [|c r]; [reflexivity|]. cbn [substringFrom].
  cbn [list_ascii_of_string forallb] in H. apply andb_true_iff in H.
  now apply IH.
Qed.

Lemma no_terminator (s : string) :
  allChars notTerminator s = true ->
  existsb isLineTerminator (list_ascii_of_string s) = false.
Proof.
  unfold allChars, notTerminator. induction (list_ascii_of_string s) as [|c r IH];
    [reflexivity|].
  cbn [forallb existsb]. intros H. apply andb_true_iff in H.
  destruct H as [Hc Hr]. apply negb_true_iff in Hc. now rewrite Hc, IH.
Qed.

(** The expression of line 82 matches every absolute URL without a line
    terminator. *)
Lemma routerBaseMatch_total (s : string) :
  urlRegex_test s = true ->
  allChars notTerminator s = true ->
  exists path, routerBaseMatch s = Some path.
Proof.
  intros Hurl Hnt. unfold routerBaseMatch.
  assert (Hrest : exists rest,
            (if startsWith s "http://" then Some (substringFrom 7 s)
             else if startsWith s "https://" then Some (substringFrom 8 s)
             else None) = Some rest
            /\ allChars notTerminator rest = true).
  { unfold urlRegex_test in Hurl. destruct (startsWith s "http://").
    - eexists. split; [reflexivity|now apply allChars_substringFrom].
    - cbn [orb] in Hurl. rewrite Hurl.
      eexists. split; [reflexivity|now apply allChars_substringFrom]. }
  destruct Hrest as (rest & -> & Hr).
  set (afterHost := dropWhile _ rest).
  assert (Hh : allChars notTerminator afterHost = true)
    by now apply allChars_dropWhile.
  set (afterPort := match afterHost with
                    | String c r => _
                    | EmptyString => afterHost
                    end).
  assert (Hp : allChars notTerminator afterPort = true).
  { subst afterPort. destruct afterHost as [|c r]; [reflexivity|].
    destruct (Ascii.eqb c ":" && negb (takeWhile isDigit r =? "")%string);
      [|exact Hh].
    apply allChars_dropWhile. unfold allChars in Hh |- *.
    cbn [list_ascii_of_string forallb] in Hh.
    now apply andb_true_iff in Hh. }
  rewrite no_terminator; [now eexists|].
  now do 2 apply allChars_dropWhile.
Qed.

Lemma formatPublicPath_chars (p : ascii -> bool) (s : string) :
  p "/"%char = true -> allChars p s = true ->
  allChars p (formatPublicPath s) = true.
Proof.
  intros Hslash Hs. unfold formatPublicPath.
  destruct (s =? "")%string; [reflexivity|].
  assert (H1 : allChars p (if negb (endsWith s "/") then s ++ "/" else s) = true).
  { destruct (negb (endsWith s "/")); [|exact Hs].
    rewrite allChars_append, Hs. unfold allChars. cbn. now rewrite Hslash. }
  destruct (urlRegex_test _); [exact H1|].
  destruct (negb (startsWith _ "/")); [|exact H1].
  unfold allChars. cbn [append list_ascii_of_string forallb].
  now rewrite Hslash.
Qed.

Lemma startsWith_slash_not_http (s : string) :
  startsWith s "/" = true -> startsWith s "http" = false.
Proof.
  destruct s as [|c r]; cbn [startsWith]; [discriminate|].
  rewrite andb_true_r. intros H. apply Ascii.eqb_eq in H. subst c.
  reflexivity.
Qed.

Lemma startsWith_shorter (a b : string) :
  forall s, startsWith s (a ++ b) = true -> startsWith s a = true.
Proof.
  induction a as [|c r IH]; intros s; [reflexivity|].
  cbn [append startsWith]. destruct s as [|d t]; [discriminate|].
  intros H. apply andb_true_iff in H. destruct H as [Hc Hr].
  now rewrite Hc, (IH _ Hr).
Qed.

Lemma url_starts_with_http (s : string) :
  urlRegex_test s = true -> startsWith s "http" = true /\ s <> "".
Proof.
  unfold urlRegex_test. intros H. split.
  - apply orb_true_iff in H. destruct H as [H|H].
    + exact (startsWith_shorter "http" "://" s H).
    + exact (startsWith_shorter "http" "s://" s H).
  - intros ->. discriminate H.
Qed.

(** X6: [formatRouterBase] never fails on a public path that
    [formatPublicPath] produced from a string without line terminator: a
    path that is not an absolute URL is its own router base, and for an
    absolute URL the router base is a formatted path; in both cases the
    router base is empty or ends with a slash. *)
Theorem formatRouterBase_total (s : string) :
  allChars notTerminator s = true ->
  exists base,
    formatRouterBase (formatPublicPath s) = Ok base
    /\ (urlRegex_test (formatPublicPath s) = false -> base = formatPublicPath s)
    /\ (base = "" \/ endsWith base "/" = true).
Proof.
  intros Hnt.
  destruct (formatPublicPath_shape s) as [E|(Hne & Hend & [Hurl|Hroot])].
  - rewrite E. exists "". repeat split; now left.
  - destruct (url_starts_with_http _ Hurl) as [Hhttp Hnonempty].
    assert (Hnt' : allChars notTerminator (formatPublicPath s) = true)
      by now apply formatPublicPath_chars.
    destruct (routerBaseMatch_total _ Hurl Hnt') as [path Hpath].
    exists (formatPublicPath path). unfold formatRouterBase.
    rewrite Hhttp, Hpath, (eqb_empty_false _ Hnonempty). cbn [negb orb].
    split; [reflexivity|]. split; [intros H; congruence|].
    destruct (formatPublicPath_shape path) as [E|(_ & Hend' & _)];
      [now left|now right].
  - exists (formatPublicPath s). unfold formatRouterBase.
    rewrite (startsWith_slash_not_http _ Hroot). cbn [negb].
    rewrite orb_true_r. repeat split. now right.
Qed.

(** The public path [app] has the router base [/app/]. *)
Lemma formatRouterBase_total_witness :
  exists base,
    formatRouterBase (formatPublicPath "app") = Ok base
    /\ (urlRegex_test (formatPublicPath "app") = false
        -> base = formatPublicPath "app")
    /\ (base = "" \/ endsWith base "/" = true).
Proof.
  apply (formatRouterBase_total "app"). reflexivity.
Defined.

Lemma headIs_weaken (P Q : ascii -> bool) (s : string) :
  (forall c, P c = true -> Q c = true) ->
  headIs P s = true -> headIs Q s = true.
Proof.
  intros HPQ. destruct s as [|c r]; [reflexivity|apply HPQ].
Qed.

Lemma headIs_append (P : ascii -> bool) (a b : string) :
  headIs P a = true -> headIs P b = true -> headIs P (a ++ b) = true.
Proof.
  destruct a as [|c r]; [intros _ H; exact H|intros H _; exact H].
Qed.

Lemma delimiter_cases (c : ascii) :
  isDelimiter c = true -> c = "/"%char \/ c = "?"%char \/ c = "#"%char.
Proof.
  unfold isDelimiter, isOneOf. cbn [list_ascii_of_string existsb].
  rewrite orb_false_r. intros H.
  apply orb_true_iff in H. destruct H as [H|H].
  - left. now apply Ascii.eqb_eq.
  - apply orb_true_iff in H. destruct H as [H|H];
      apply Ascii.eqb_eq in H; tauto.
Qed.

Lemma startsWith_append (a s : string) : startsWith (a ++ s) a = true.
Proof.
  induction a as [|c r IH]; [reflexivity|].
  cbn [append startsWith]. now rewrite Ascii.eqb_refl, IH.
Qed.

(** X7: the router base of an absolute URL made of the scheme http or
    https, a host, an optional port, a path that is empty or starts with a
    slash, and an optional query and fragment, is the path of the URL,
    formatted by [formatPublicPath]; host, port, query and fragment are
    dropped. *)
Theorem formatRouterBase_url (secure : bool) (h d p q : string) :
  allChars notHostEnd h = true ->
  allChars isDigit d = true ->
  allChars notPathEnd p = true ->
  headIs (fun c => Ascii.eqb c "/") p = true ->
  headIs (isOneOf "?#") q = true ->
  allChars notTerminator q = true ->
  formatRouterBase
    ((if secure then "https://" else "http://")
     ++ h ++ (if (d =? "")%string then "" else ":" ++ d) ++ p ++ q)
  = Ok (formatPublicPath p).
Proof.
  intros Hh Hd Hp Hps Hqs Hq.
  set (tail := (p ++ q)%string).
  assert (Hdel : headIs isDelimiter tail = true).
  { apply headIs_append.
    - apply (headIs_weaken _ _ _ (fun c H => proj2 (orb_true_iff _ _) (or_introl H)) Hps).
    - apply (headIs_weaken _ _ _ (fun c H => proj2 (orb_true_iff _ _) (or_intror H)) Hqs). }
  set (port := if (d =? "")%string then "" else (":" ++ d)%string).
  set (rest := (h ++ port ++ tail)%string).
  assert (Hmatch : routerBaseMatch
                     ((if secure then "https://" else "http://") ++ rest)
                   = Some p).
  { unfold routerBaseMatch.
    assert (Hs : (if startsWith ((if secure then "https://" else "http://")
                                 ++ rest) "http://"
                  then Some (substringFrom 7
                               ((if secure then "https://" else "http://")
                                ++ rest))
                  else if startsWith ((if secure then "https://" else "http://")
                                      ++ rest) "https://"
                       then Some (substringFrom 8
                                    ((if secure then "https://" else "http://")
                                     ++ rest))
                       else None) = Some rest).
    { destruct secure.
      - change (startsWith ("https://" ++ rest) "http://") with false.
        cbv iota. now rewrite (startsWith_append "https://" rest).
      - now rewrite (startsWith_append "http://" rest). }
    rewrite Hs. clear Hs.
    assert (Hhost : dropWhile (fun c => negb (isOneOf ":/?#" c)) rest
                    = (port ++ tail)%string).
    { apply (dropWhile_run notHostEnd h); [exact Hh|].
      subst port. destruct (d =? "")%string.
      - apply (headIs_weaken isDelimiter); [|exact Hdel].
        intros c Hc. unfold notHostEnd. rewrite negb_involutive.
        destruct (delimiter_cases c Hc) as [->|[->| ->]]; reflexivity.
      - reflexivity. }
    rewrite Hhost. clear Hhost.
    assert (Hport : match (port ++ tail)%string with
                    | String c r =>
                        if Ascii.eqb c ":"
                           && negb (takeWhile isDigit r =? "")%string
                        then dropWhile isDigit r else (port ++ tail)%string
                    | EmptyString => (port ++ tail)%string
                    end = tail).
    { assert (Hnd : headIs (fun c => negb (isDigit c)) tail = true).
      { apply (headIs_weaken isDelimiter); [|exact Hdel].
        intros c Hc.
        destruct (delimiter_cases c Hc) as [->|[->| ->]]; reflexivity. }
      subst port. destruct (d =? "")%string eqn:Ed.
      - cbn [append]. destruct tail as [|c r] eqn:Et; [reflexivity|].
        assert (Hc : Ascii.eqb c ":" = false).
        { cbn [headIs] in Hdel.
          destruct (delimiter_cases c Hdel) as [->|[->| ->]]; reflexivity. }
        now rewrite Hc.
      - change ((":" ++ d) ++ tail)%string with (String ":" (d ++ tail)).
        cbv beta iota.
        rewrite Ascii.eqb_refl, (takeWhile_run isDigit d tail Hd Hnd), Ed.
        cbn [andb negb]. now apply dropWhile_run. }
    rewrite Hport. clear Hport.
    assert (Hqe : headIs (fun c => negb (notPathEnd c)) q = true).
    { apply (headIs_weaken (isOneOf "?#")); [|exact Hqs].
      intros c Hc. unfold notPathEnd. now rewrite Hc. }
    change (fun c => negb (isOneOf "?#" c)) with notPathEnd.
    unfold tail. rewrite (takeWhile_run notPathEnd p q Hp Hqe).
    rewrite (dropWhile_run notPathEnd p q Hp Hqe).
    rewrite no_terminator; [reflexivity|].
    now apply allChars_dropWhile. }
  unfold formatRouterBase. fold tail. fold port. fold rest.
  rewrite Hmatch.
  assert (Hhttp : startsWith ((if secure then "https://" else "http://") ++ rest)
                    "http" = true)
    by (destruct secure; reflexivity).
  assert (Hne : ((if secure then "https://" else "http://") ++ rest =? "")%string
                = false) by (destruct secure; reflexivity).
  now rewrite Hhttp, Hne.
Qed.

(** A CDN address with port, query and fragment has the router base
    [/app/]. *)
Lemma formatRouterBase_url_witness :
  formatRouterBase "https://cdn.example.com:8443/app?v=2#top" = Ok "/app/".
Proof.
  apply (formatRouterBase_url true "cdn.example.com" "8443" "/app" "?v=2#top");
    reflexivity.
Defined.

(** ** What a cycle stores *)

Lemma sameStored_refl (i : Instance) : sameStored i i.
Proof. split; reflexivity. Qed.

Lemma sameStored_trans (i j k : Instance) :
  sameStored i j -> sameStored j k -> sameStored i k.
Proof.
  intros [A B] [C D]. split; congruence.
Qed.

Lemma stores_ret {A} (a : A) : storesNothing (ret a).
Proof.
  intros i r i' H. injection H as _ <-. apply sameStored_refl.
Qed.

Lemma stores_lift {A} (x : Res A) : storesNothing (lift x).
Proof.
  intros i r i' H. injection H as _ <-. apply sameStored_refl.
Qed.

Lemma stores_read {A} (g : Instance -> A) : storesNothing (read g).
Proof.
  intros i r i' H. injection H as _ <-. apply sameStored_refl.
Qed.

Lemma stores_exit {A} (c : Z) : storesNothing (@process_exit A c).
Proof.
  intros i r i' H. injection H as _ <-. apply sameStored_refl.
Qed.

Lemma stores_modify (g : Instance -> Instance) :
  (forall i, sameStored i (g i)) -> storesNothing (modify g).
Proof.
  intros Hg i r i' H. injection H as _ <-. apply Hg.
Qed.

Lemma stores_bind {A B} (m : M A) (f : A -> M B) :
  storesNothing m -> (forall a, storesNothing (f a)) ->
  storesNothing (bind m f).
Proof.
  intros Hm Hf i r i' H. unfold bind in H.
  destruct (m i) as [[a|e|c] i1] eqn:E.
  - eapply sameStored_trans; [exact (Hm _ _ _ E)|exact (Hf a _ _ _ H)].
  - injection H as _ <-. exact (Hm _ _ _ E).
  - injection H as _ <-. exact (Hm _ _ _ E).
Qed.

Lemma stores_stage (f : Stage) (cfg : JsValue) : storesNothing (stage f cfg).
Proof.
  intros i r i' H. unfold stage in H.
  destruct (f (ctx i, cfg)) as [[c cfg']|e|n]; injection H as _ <-;
    split; reflexivity.
Qed.

Ltac stores_step :=
  first
    [ apply stores_ret
    | apply stores_lift
    | apply stores_read
    | apply stores_exit
    | apply stores_stage
    | apply stores_modify; intros ?; split; reflexivity
    | apply stores_bind; [|intros ?]
    | match goal with
      | |- storesNothing (match ?x with _ => _ end) => destruct x
      | |- storesNothing (if ?b then _ else _) => destruct b
      end ].

Lemma stores_beforePwa (X : Externals) (o : Opts) (u : JsValue) :
  storesNothing (beforePwa X o u).
Proof.
  unfold beforePwa, mergeDefaults, resolveAddress, negotiateAddress,
    renegotiate, deriveUpToPwa, takeSnapshot.
  repeat stores_step.
Qed.

Lemma stores_derivePwa (X : Externals) (cfg : JsValue) :
  storesNothing (derivePwa X cfg).
Proof.
  unfold derivePwa, warn, emit. repeat stores_step.
Qed.

(** The last step of the normalizer, by its outcome. *)
Lemma finishConfig_cases (X : Externals) (cfg : JsValue) (i : Instance)
    (res : Res (option Conf)) (i' : Instance) :
  finishConfig X cfg i = (res, i') ->
  webpackConf i' = webpackConf i /\ quasarConf i' = quasarConf i
  /\ (forall conf, res <> Ok (Some conf))
  \/ webpackConf i' = webpackConf i
     /\ (forall conf, res <> Ok (Some conf))
     /\ (forall w, createWebpackConfig X (quasarConf i') <> Ok w)
  \/ exists conf,
       res = Ok (Some conf)
       /\ conf_quasarConf conf = quasarConf i'
       /\ conf_webpackConf conf = webpackConf i'
       /\ (webpackConfChanged i' = Some false -> webpackConf i' = webpackConf i)
       /\ (webpackConfChanged i' <> Some false ->
           createWebpackConfig X (quasarConf i') = Ok (webpackConf i')).
Proof.
  unfold finishConfig, bind, stage, modify, read, lift, ret.
  destruct (derive_tail X (ctx i, cfg)) as [[c cfg']|e|n].
  - cbn [webpackConfChanged set_quasarConf set_ctx].
    destruct (webpackConfChanged i) as [[|]|] eqn:Eflag.
    + destruct (createWebpackConfig X cfg') as [w|e|n] eqn:Ew;
        intros H; injection H as <- <-.
      * right. right. eexists. split; [reflexivity|].
        cbn. rewrite Eflag. repeat split; try congruence.
      * right. left. cbn. repeat split; try congruence.
      * right. left. cbn. repeat split; try congruence.
    + intros H; injection H as <- <-.
      right. right. eexists. split; [reflexivity|].
      cbn. rewrite Eflag. repeat split; congruence.
    + destruct (createWebpackConfig X cfg') as [w|e|n] eqn:Ew;
        intros H; injection H as <- <-.
      * right. right. eexists. split; [reflexivity|].
        cbn. rewrite Eflag. repeat split; try congruence.
      * right. left. cbn. repeat split; try congruence.
      * right. left. cbn. repeat split; try congruence.
  - intros H; injection H as <- <-. left. repeat split; congruence.
  - intros H; injection H as <- <-. left. repeat split; congruence.
Qed.

(** The whole of phase B, by its outcome. *)
Lemma derive_cases (X : Externals) (o : Opts) (u : JsValue) (i : Instance)
    (res : Res (option Conf)) (i' : Instance) :
  derive X o u i = (res, i') ->
  res <> Ok None
  /\ (webpackConf i' = webpackConf i /\ quasarConf i' = quasarConf i
      /\ (forall conf, res <> Ok (Some conf))
      \/ webpackConf i' = webpackConf i
         /\ (forall conf, res <> Ok (Some conf))
         /\ (forall w, createWebpackConfig X (quasarConf i') <> Ok w)
      \/ exists conf,
           res = Ok (Some conf)
           /\ conf_quasarConf conf = quasarConf i'
           /\ conf_webpackConf conf = webpackConf i'
           /\ (webpackConfChanged i' = Some false ->
               webpackConf i' = webpackConf i)
           /\ (webpackConfChanged i' <> Some false ->
               createWebpackConfig X (quasarConf i') = Ok (webpackConf i'))).
Proof.
  unfold derive. unfold bind at 1.
  destruct (beforePwa X o u i) as [[cfg2|e|n] i2] eqn:E2.
  2, 3: intros H; injection H as <- <-;
    destruct (stores_beforePwa X o u _ _ _ E2) as [Hq Hw];
    split; [discriminate|left; repeat split; congruence].
  unfold bind.
  destruct (derivePwa X cfg2 i2) as [[cfg3|e|n] i3] eqn:E3.
  2, 3: intros H; injection H as <- <-;
    destruct (sameStored_trans _ _ _ (stores_beforePwa X o u _ _ _ E2)
                (stores_derivePwa X cfg2 _ _ _ E3)) as [Hq Hw];
    split; [discriminate|left; repeat split; congruence].
  destruct (sameStored_trans _ _ _ (stores_beforePwa X o u _ _ _ E2)
              (stores_derivePwa X cfg2 _ _ _ E3)) as [Hq Hw].
  intros H.
  destruct (finishConfig_cases X cfg3 i3 res i' H)
    as [(A & B & C)|[(A & B & C)|(conf & -> & A & B & C & D)]].
  - split; [|left; repeat split; congruence].
    intros ->. revert H. unfold finishConfig, bind, stage, modify, read, lift, ret.
    destruct (derive_tail X (ctx i3, cfg3)) as [[c cfg']|e|n]; try discriminate.
    cbn [webpackConfChanged set_quasarConf set_ctx].
    destruct (webpackConfChanged i3) as [[|]|];
      try destruct (createWebpackConfig X cfg'); discriminate.
  - split; [|right; left; repeat split; congruence].
    intros ->. revert H. unfold finishConfig, bind, stage, modify, read, lift, ret.
    destruct (derive_tail X (ctx i3, cfg3)) as [[c cfg']|e|n]; try discriminate.
    cbn [webpackConfChanged set_quasarConf set_ctx].
    destruct (webpackConfChanged i3) as [[|]|];
      try destruct (createWebpackConfig X cfg'); discriminate.
  - split; [discriminate|]. right. right. exists conf.
    repeat split; try assumption. intros Hf. rewrite (C Hf). exact Hw.
Qed.

Lemma computeConfig_cases (X : Externals) (o : Opts) (f : Factory)
    (failOnError : bool) (i : Instance) (res : Res (option Conf))
    (i' : Instance) :
  computeConfig X o f failOnError i = (res, i') ->
  sameStored i i'
  /\ (forall conf, res <> Ok (Some conf))
  /\ (failOnError = true -> res <> Ok None)
  \/ exists u, derive X o u i = (res, i').
Proof.
  unfold computeConfig.
  destruct (negb (Js.is_function (fn_value f))).
  - destruct failOnError; intros H; injection H as <- <-; left;
      repeat split; try discriminate.
  - destruct (fn_call f (ctx i)) as [u|e|n].
    + destruct (negb (Js.is_object u)); [|intros H; right; now exists u].
      destruct failOnError; intros H; injection H as <- <-; left;
        repeat split; try discriminate.
    + destruct failOnError; intros H; injection H as <- <-; left;
        repeat split; try discriminate.
    + intros H; injection H as <- <-; left; repeat split; discriminate.
Qed.

(** X8: when the normalizer returns a configuration, the returned pair is
    the pair stored on the instance; after a cycle whose pipeline signal is
    exactly [false] the stored webpack configuration is the one from before
    the cycle, and otherwise it is what the generator made of the stored
    configuration. *)
Theorem returned_conf_is_stored (X : Externals) (o : Opts) (f : Factory)
    (failOnError : bool) (i i' : Instance) (conf : Conf) :
  computeConfig X o f failOnError i = (Ok (Some conf), i') ->
  conf_quasarConf conf = quasarConf i'
  /\ conf_webpackConf conf = webpackConf i'
  /\ (webpackConfChanged i' = Some false -> webpackConf i' = webpackConf i)
  /\ (webpackConfChanged i' = Some false
      \/ createWebpackConfig X (quasarConf i') = Ok (webpackConf i')).
Proof.
  intros H.
  destruct (computeConfig_cases X o f failOnError i _ i' H)
    as [(_ & Hno & _)|[u Hu]]; [now destruct (Hno conf)|].
  destruct (derive_cases X o u i _ i' Hu)
    as (_ & [(_ & _ & Hno)|[(_ & Hno & _)|(c & E & A & B & C & D)]]);
    try now destruct (Hno conf).
  injection E as <-. repeat split; try assumption.
  destruct (webpackConfChanged i') as [[|]|]; [right|now left|right];
    apply D; discriminate.
Qed.

(** The first cycle of a development session returns what it stored. *)
Lemma returned_conf_is_stored_witness :
  conf_quasarConf (confOf (fst firstCycle)) = quasarConf (snd firstCycle)
  /\ conf_webpackConf (confOf (fst firstCycle)) = webpackConf (snd firstCycle)
  /\ (webpackConfChanged (snd firstCycle) = Some false ->
      webpackConf (snd firstCycle) = webpackConf (newInstance devSpa))
  /\ (webpackConfChanged (snd firstCycle) = Some false
      \/ createWebpackConfig refExternals (quasarConf (snd firstCycle))
         = Ok (webpackConf (snd firstCycle))).
Proof.
  apply (returned_conf_is_stored refExternals (watchOpts None)
           (goodFactory (JObj [])) true (newInstance devSpa)).
  vm_compute. reflexivity.
Defined.

(** X9: a cycle that returns no configuration never changes the stored
    webpack configuration, and it changes the stored canonical
    configuration in one case only: the configuration was derived and
    stored, and the webpack-config generator then failed on it. *)
Theorem failed_cycle_store (X : Externals) (o : Opts) (f : Factory)
    (failOnError : bool) (i i' : Instance) (res : Res (option Conf)) :
  computeConfig X o f failOnError i = (res, i') ->
  (forall conf, res <> Ok (Some conf)) ->
  webpackConf i' = webpackConf i
  /\ (quasarConf i' = quasarConf i
      \/ forall w, createWebpackConfig X (quasarConf i') <> Ok w).
Proof.
  intros H Hno.
  destruct (computeConfig_cases X o f failOnError i _ i' H)
    as [([Hq Hw] & _ & _)|[u Hu]]; [split; [exact Hw|now left]|].
  destruct (derive_cases X o u i _ i' Hu)
    as (_ & [(Hw & Hq & _)|[(Hw & _ & Hgen)|(c & E & _)]]).
  - split; [exact Hw|now left].
  - split; [exact Hw|now right].
  - now destruct (Hno c).
Qed.

(** With a failing generator the first cycle throws, keeps the stored
    webpack configuration and has already stored the new canonical
    configuration. *)
Lemma failed_cycle_store_witness :
  webpackConf (snd firstCycleFailing) = webpackConf (newInstance devSpa)
  /\ (quasarConf (snd firstCycleFailing) = quasarConf (newInstance devSpa)
      \/ forall w,
           createWebpackConfig failingGenerator
             (quasarConf (snd firstCycleFailing)) <> Ok w).
Proof.
  apply (failed_cycle_store failingGenerator (watchOpts None)
           (goodFactory (JObj [])) true (newInstance devSpa)
           (snd firstCycleFailing) (fst firstCycleFailing)).
  - vm_compute. reflexivity.
  - vm_compute. intros conf H. discriminate H.
Defined.

(** X10: with [failOnError] the normalizer never returns without a
    configuration: it returns one, throws, or ends the process; so the
    destructuring of its result in the first cycle cannot fail. *)
Theorem fail_on_error_result (X : Externals) (o : Opts) (f : Factory)
    (i i' : Instance) (res : Res (option Conf)) :
  computeConfig X o f true i = (res, i') ->
  (exists conf, res = Ok (Some conf))
  \/ (exists e, res = Throw e)
  \/ (exists n, res = Exit n).
Proof.
  intros H.
  assert (Hnone : res <> Ok None).
  { destruct (computeConfig_cases X o f true i _ i' H)
      as [(_ & _ & Hn)|[u Hu]]; [now apply Hn|].
    exact (proj1 (derive_cases X o u i _ i' Hu)). }
  destruct res as [[conf|]|e|n]; [left; now exists conf|now destruct Hnone
                                 |right; left; now exists e
                                 |right; right; now exists n].
Qed.

(** A first cycle whose factory returns 42 ends the process. *)
Lemma fail_on_error_result_witness :
  (exists conf, @Exit (option Conf) 1 = Ok (Some conf))
  \/ (exists e, @Exit (option Conf) 1 = Throw e)
  \/ (exists n, @Exit (option Conf) 1 = Exit n).
Proof.
  apply (fail_on_error_result refExternals (watchOpts None)
           (goodFactory (JNum 42)) (newInstance devSpa)
           (set_console [ FatalMsg msg_notObject_fatal ] (newInstance devSpa))).
  reflexivity.
Defined.

(** ** The first cycle and the one-shot build *)

Lemma computeConfig_fatal (X : Externals) (o : Opts) (f : Factory)
    (i : Instance) :
  Js.is_function (fn_value f) = false
  \/ (Js.is_function (fn_value f) = true
      /\ ((exists v, fn_call f (ctx i) = Ok v /\ Js.is_object v = false)
          \/ exists e, fn_call f (ctx i) = Throw e)) ->
  exists i', computeConfig X o f true i = (Exit 1, i').
Proof.
  unfold computeConfig. intros [Hfn|(Hfn & [(v & Hcall & Hobj)|(e & Hcall)])];
    rewrite Hfn; cbn [negb]; cbv beta.
  - eexists. reflexivity.
  - rewrite Hcall, Hobj. eexists. reflexivity.
  - rewrite Hcall. eexists. reflexivity.
Qed.

Lemma advance_keeps (t : Z) (s : State) :
  isFirst (advance t s) = isFirst s
  /\ isWatching (advance t s) = isWatching s
  /\ exited (advance t s) = exited s
  /\ inst (advance t s) = inst s
  /\ tempFile (advance t s) = tempFile s.
Proof.
  unfold advance, fireUpdate. destruct (timer s) as [due|]; [|now repeat split].
  destruct (due <=? t); [|now repeat split].
  destruct (updateFn (set_timer None s)); now repeat split.
Qed.

(** X11: in the first cycle of a watch session a compile error, a load
    error, a schema error, a runtime error, a manifest error and an invalid
    plugin mode all end the process with code 1; a declined address
    negotiation is thrown out of the handler instead, the process lives,
    and the first build stays undelivered. *)
Theorem first_cycle_errors (X : Externals) (o : Opts) (t : Z)
    (r : BuildResult) (s : State) (k : ErrorKind) :
  isFirst s = true ->
  occurs X o k r s ->
  match k with
  | NetworkError =>
      exited (onEnd X o t r s) = exited s
      /\ rejected (onEnd X o t r s) = (rejected s ++ [NetworkErrorThrown])%list
      /\ firstBuild (onEnd X o t r s) = firstBuild s
      /\ isFirst (onEnd X o t r s) = true
  | _ => exited (onEnd X o t r s) = Some 1
  end.
Proof.
  intros Hfirst Hocc. rewrite (onEnd_first _ _ _ _ _ Hfirst).
  assert (Hcc : forall f res i',
            computeConfig X o f true (inst s) = (res, i') ->
            computeConfig X o f (isFirst s) (inst s) = (res, i')).
  { intros f res i' H. now rewrite Hfirst. }
  destruct k; cbn [occurs] in Hocc.
  - unfold processBuildEnd. destruct (errors r) as [|e l]; [now destruct Hocc|].
    cbn [List.length Nat.eqb negb isFirst removeSync set_tempFile set_cached].
    now rewrite Hfirst.
  - destruct Hocc as (He & e & Hf).
    unfold processBuildEnd. rewrite He, Hf.
    cbn [List.length Nat.eqb negb isFirst removeSync set_tempFile set_cached].
    now rewrite Hfirst.
  - destruct Hocc as (He & f & Hf & Hcase).
    destruct (computeConfig_fatal X o f (inst s)) as [i' Hc].
    { destruct Hcase as [H|(H & v & Hv)]; [now left|right].
      split; [exact H|left; now exists v]. }
    now rewrite (processBuildEnd_loaded X o t r s f _ _ He Hf (Hcc _ _ _ Hc)).
  - destruct Hocc as (He & f & e & Hf & Hfn & Hcall).
    destruct (computeConfig_fatal X o f (inst s)) as [i' Hc].
    { right. split; [exact Hfn|right; now exists e]. }
    now rewrite (processBuildEnd_loaded X o t r s f _ _ He Hf (Hcc _ _ _ Hc)).
  - destruct Hocc as (f & u & cfg & i1 & i2
                      & (He & Hf & Hfn & Hcall & Hobj) & Hmerge & Hnet).
    assert (Hc : computeConfig X o f true (inst s)
                 = (Throw NetworkErrorThrown, i2)).
    { rewrite (computeConfig_valid X o f (inst s) u true Hfn Hcall Hobj).
      unfold derive, beforePwa. unfold bind. now rewrite Hmerge, Hnet. }
    rewrite (processBuildEnd_loaded X o t r s f _ _ He Hf (Hcc _ _ _ Hc)).
    repeat split. exact Hfirst.
  - destruct Hocc as (merged & icons & Hreach & Hlen).
    destruct (reachesPwa_exits X o r s merged icons (JNum 0) Hreach Hlen
                (or_introl eq_refl)) as (f & i' & He & Hf & Hc).
    now rewrite (processBuildEnd_loaded X o t r s f _ _ He Hf (Hc _)).
  - destruct Hocc as (merged & icons & len & Hreach & Hlen & _ & Hmode).
    destruct (reachesPwa_exits X o r s merged icons len Hreach Hlen
                (or_intror Hmode)) as (f & i' & He & Hf & Hc).
    now rewrite (processBuildEnd_loaded X o t r s f _ _ He Hf (Hc _)).
Qed.

(** A first build that does not compile ends the process. *)
Lemma first_cycle_errors_witness :
  exited (onEnd refExternals (watchOpts None) 0 brokenBuild
            (buildAndWatch devSpa)) = Some 1.
Proof.
  apply (first_cycle_errors refExternals (watchOpts None) 0 brokenBuild
           (buildAndWatch devSpa) CompileError).
  - reflexivity.
  - intros H. discriminate H.
Defined.

(** X12: in a later cycle of an armed session, a schema error or a runtime
    error makes the normalizer return nothing, and the handler then fails
    on the destructuring of that result: a TypeError leaves the handler,
    no update is scheduled and nothing is delivered. *)
Theorem later_cycle_rejects (X : Externals) (o : Opts) (t : Z)
    (r : BuildResult) (s : State) (k : ErrorKind) :
  isFirst s = false ->
  isWatching s = true ->
  k = SchemaError \/ k = RuntimeError ->
  occurs X o k r s ->
  rejected (onEnd X o t r s) = (rejected s ++ [TypeError])%list
  /\ timer (onEnd X o t r s) = timer s
  /\ updateFn (onEnd X o t r s) = updateFn s
  /\ delivered (onEnd X o t r s) = delivered s.
Proof.
  intros Hfirst Hw Hk Hocc. rewrite (onEnd_armed _ _ _ _ _ Hw).
  assert (Hnone : exists f i',
            errors r = [] /\ requireFactory r = inr f
            /\ computeConfig X o f (isFirst s) (inst s) = (Ok None, i')).
  { rewrite Hfirst. destruct Hk as [-> | ->]; cbn [occurs] in Hocc.
    - destruct Hocc as (He & f & Hf & [Hfn|(Hfn & v & Hcall & Hobj)]).
      + exists f. eexists. repeat split; try assumption.
        now apply computeConfig_not_function.
      + exists f. eexists. repeat split; try assumption.
        exact (computeConfig_not_object X o f (inst s) v false Hfn Hcall Hobj).
    - destruct Hocc as (He & f & e & Hf & Hfn & Hcall).
      destruct (computeConfig_throws X o f (inst s) e Hfn Hcall)
        as (i' & Hc & _).
      exists f, i'. now repeat split. }
  destruct Hnone as (f & i' & He & Hf & Hc).
  rewrite (processBuildEnd_loaded X o t r s f _ _ He Hf Hc).
  repeat split.
Qed.

(** In the armed session [armedDev], a factory that returns 42 ends in a
    TypeError out of the handler. *)
Lemma later_cycle_rejects_witness :
  rejected (onEnd refExternals (watchOpts (Some busy9000)) 5 returnsNumber
              armedDev) = [ TypeError ]
  /\ timer (onEnd refExternals (watchOpts (Some busy9000)) 5 returnsNumber
              armedDev) = None
  /\ updateFn (onEnd refExternals (watchOpts (Some busy9000)) 5 returnsNumber
                 armedDev) = None
  /\ delivered (onEnd refExternals (watchOpts (Some busy9000)) 5 returnsNumber
                  armedDev) = [].
Proof.
  apply (later_cycle_rejects refExternals (watchOpts (Some busy9000)) 5
           returnsNumber armedDev SchemaError).
  - reflexivity.
  - reflexivity.
  - now left.
  - cbn [occurs]. split; [reflexivity|].
    exists (goodFactory (JNum 42)). split; [reflexivity|]. right.
    split; [reflexivity|]. exists (JNum 42). now split.
Defined.

(** X13: the one-shot build leaves no temporary file behind on any
    outcome, ends the process when the build does not compile or the
    artifact does not load, and never returns without a configuration. *)
Theorem oneshot_build (X : Externals) (o : Opts) (r : BuildResult)
    (s : State) :
  tempFile (snd (build X o r s)) = false
  /\ (errors r <> [] -> fst (build X o r s) = Exit 1)
  /\ (forall e, errors r = [] -> load r = LoadThrows e ->
                fst (build X o r s) = Exit 1)
  /\ ((exists conf, fst (build X o r s) = Ok (Some conf))
      \/ (exists e, fst (build X o r s) = Throw e)
      \/ (exists n, fst (build X o r s) = Exit n)).
Proof.
  split; [apply build_removes|].
  split; [|split].
  - intros Hne. unfold build. destruct (errors r); [now destruct Hne|].
    reflexivity.
  - intros e He Hl. unfold build. now rewrite He, Hl.
  - unfold build. destruct (errors r) as [|e l];
      [|right; right; now exists 1].
    destruct (load r) as [e|exports call]; [right; right; now exists 1|].
    destruct (Js.get exports "default") as [d|e|c];
      [|right; left; now exists e|right; right; now exists c].
    unfold runM.
    destruct (computeConfig X o _ true _) as [res i'] eqn:Hc. cbn [fst].
    assert (Hnone : res <> Ok None).
    { destruct (computeConfig_cases X o _ true _ _ i' Hc)
        as [(_ & _ & Hn)|[u Hu]]; [now apply Hn|].
      exact (proj1 (derive_cases X o u _ _ i' Hu)). }
    destruct res as [[conf|]|e|n]; [left; now exists conf|now destruct Hnone
                                   |right; left; now exists e
                                   |right; right; now exists n].
Qed.

(** X14: a build-finished event that is handled, as the first event or in
    an armed session, leaves no temporary file behind, whatever its
    outcome. *)
Theorem handled_event_cleanup (X : Externals) (o : Opts) (t : Z)
    (r : BuildResult) (s : State) :
  exited s = None ->
  isFirst s = true \/ isWatching s = true ->
  tempFile (step X o s (BuildFinished t r)) = false.
Proof.
  intros Hex Hcase. unfold step. rewrite Hex.
  destruct (advance_keeps t s) as (Hf & Hw & _).
  assert (Hguard : negb (isFirst (esbuildWrite r (advance t s)))
                   && negb (isWatching (esbuildWrite r (advance t s))) = false).
  { unfold esbuildWrite. destruct (errors r);
      cbn [isFirst isWatching set_tempFile]; rewrite Hf, Hw;
      destruct Hcase as [H|H]; rewrite H; cbn [negb andb];
      try reflexivity; apply andb_false_r. }
  unfold onEnd. rewrite Hguard. apply processBuildEnd_removes.
Qed.

(** The first build of a session leaves no artifact behind. *)
Lemma handled_event_cleanup_witness :
  tempFile (step refExternals (watchOpts None) (buildAndWatch devSpa)
              (BuildFinished 0 (goodBuild (JObj [])))) = false.
Proof.
  apply (handled_event_cleanup refExternals (watchOpts None) 0
           (goodBuild (JObj [])) (buildAndWatch devSpa)).
  - reflexivity.
  - now left.
Defined.

(** ** The configured public path, the requested address, the encoding *)

(** X15: in the modes spa, pwa and ssr a configured, non-empty
    [build.publicPath] string is normalised by [formatPublicPath]: the
    stored value ends with a slash and is an absolute URL or starts with a
    slash, and normalising it again changes nothing. *)
Theorem configured_public_path (c : Ctx) (props b : list (string * JsValue))
    (s : string) :
  servesFromPath (ctx_modeName c) = true ->
  Js.lookup "build" props = Some (JObj b) ->
  Js.prop (JObj b) "publicPath" = JStr s ->
  s <> "" ->
  exists cfg',
    derivePublicPath c (JObj props) = Ok cfg'
    /\ Js.get_path cfg' ["build"; "publicPath"] = Ok (JStr (formatPublicPath s))
    /\ endsWith (formatPublicPath s) "/" = true
    /\ (urlRegex_test (formatPublicPath s) = true
        \/ startsWith (formatPublicPath s) "/" = true)
    /\ formatPublicPath (formatPublicPath s) = formatPublicPath s.
Proof.
  intros Hmode Hb Hpp Hne.
  assert (Ht : Js.truthy (JStr s) = true).
  { cbn [Js.truthy]. now rewrite (eqb_empty_false _ Hne). }
  exists (JObj (Js.assign "build"
                  (JObj (Js.assign "publicPath" (JStr (formatPublicPath s)) b))
                  props)).
  split; [|split].
  - unfold derivePublicPath, derivedPublicPath.
    rewrite (get_path2 _ _ _ _ Hb). cbn [rbind]. rewrite Hpp, Ht, Hmode.
    cbn [andb]. unfold formatPublicPathJs. rewrite Ht. cbn [negb rbind].
    now apply set_path2.
  - rewrite (get_path2 _ (Js.assign "publicPath" (JStr (formatPublicPath s)) b));
      [now rewrite prop_assign_same|apply lookup_assign_same].
  - destruct (formatPublicPath_shape s) as [He|(Hn & Hend & Hshape)].
    + exfalso. revert He. unfold formatPublicPath.
      rewrite (eqb_empty_false _ Hne).
      destruct (negb (endsWith s "/")); destruct (urlRegex_test _);
        try destruct (negb (startsWith _ "/"));
        try (intros H; now apply Hne);
        try (destruct s; discriminate).
    + repeat split; try assumption.
      now apply formatPublicPath_fixed.
Qed.

(** A relative path gets a leading and a trailing slash. *)
Lemma configured_public_path_witness :
  exists cfg',
    derivePublicPath devSpa (JObj [ ("build", JObj [ ("publicPath", JStr "app") ]) ])
    = Ok cfg'
    /\ Js.get_path cfg' ["build"; "publicPath"] = Ok (JStr (formatPublicPath "app"))
    /\ endsWith (formatPublicPath "app") "/" = true
    /\ (urlRegex_test (formatPublicPath "app") = true
        \/ startsWith (formatPublicPath "app") "/" = true)
    /\ formatPublicPath (formatPublicPath "app") = formatPublicPath "app".
Proof.
  apply (configured_public_path devSpa
           [ ("build", JObj [ ("publicPath", JStr "app") ]) ]
           [ ("publicPath", JStr "app") ] "app").
  - reflexivity.
  - reflexivity.
  - reflexivity.
  - discriminate.
Defined.



Lemma assign_lookup_same (k : string) (v : JsValue) l :
  Js.lookup k l = Some v -> Js.assign k v l = l.
Proof.
  induction l as [|[k' v'] tl IH]; cbn [Js.lookup Js.assign]; [discriminate|].
  destruct (k =? k')%string eqn:E.
  - apply String.eqb_eq in E. intros H. injection H as ->. now subst k'.
  - intros H. now rewrite (IH H).
Qed.

Lemma requestedField_value (k : string) (fromOpts dflt : JsValue)
    (props ds : list (string * JsValue)) :
  Js.lookup "devServer" props = Some (JObj ds) ->
  exists ds',
    requestedField k fromOpts dflt (JObj props)
    = Ok (JObj (Js.assign "devServer" (JObj ds') props))
    /\ Js.prop (JObj ds') k
       = (if Js.truthy fromOpts then fromOpts
          else if Js.truthy (Js.prop (JObj ds) k) then Js.prop (JObj ds) k
          else dflt)
    /\ forall k', k <> k' -> Js.prop (JObj ds') k' = Js.prop (JObj ds) k'.
Proof.
  intros Hds. unfold requestedField.
  destruct (Js.truthy fromOpts) eqn:Ho.
  - exists (Js.assign k fromOpts ds). split; [now apply set_path2|].
    split; [apply prop_assign_same|]. intros k' Hk.
    now apply prop_assign_other.
  - rewrite (get_path2 _ _ _ _ Hds). cbn [rbind].
    destruct (Js.truthy (Js.prop (JObj ds) k)) eqn:Hk; cbn [negb].
    + exists ds. split; [|now split].
      f_equal. f_equal. symmetry. now apply assign_lookup_same.
    + exists (Js.assign k dflt ds). split; [now apply set_path2|].
      split; [apply prop_assign_same|]. intros k' Hk'.
      now apply prop_assign_other.
Qed.

(** X17: the requested dev-server host and port follow a fixed precedence:
    the command-line option when it is truthy, else the configured value
    when it is truthy, else 0.0.0.0 and 8080. *)
Theorem requested_precedence (o : Opts) (props ds : list (string * JsValue)) :
  Js.lookup "devServer" props = Some (JObj ds) ->
  exists cfg',
    resolveRequested o (JObj props) = Ok cfg'
    /\ Js.get_path cfg' ["devServer"; "host"]
       = Ok (if Js.truthy (opts_host o) then opts_host o
             else if Js.truthy (Js.prop (JObj ds) "host")
                  then Js.prop (JObj ds) "host"
                  else JStr "0.0.0.0")
    /\ Js.get_path cfg' ["devServer"; "port"]
       = Ok (if Js.truthy (opts_port o) then opts_port o
             else if Js.truthy (Js.prop (JObj ds) "port")
                  then Js.prop (JObj ds) "port"
                  else JNum 8080).
Proof.
  intros Hds. unfold resolveRequested.
  destruct (requestedField_value "host" (opts_host o) (JStr "0.0.0.0")
              props ds Hds) as (ds1 & E1 & Hh1 & Ho1).
  rewrite E1. cbn [rbind].
  set (props1 := Js.assign "devServer" (JObj ds1) props).
  assert (H1 : Js.lookup "devServer" props1 = Some (JObj ds1))
    by apply lookup_assign_same.
  destruct (requestedField_value "port" (opts_port o) (JNum 8080)
              props1 ds1 H1) as (ds2 & E2 & Hp2 & Ho2).
  rewrite E2. eexists. split; [reflexivity|].
  rewrite !(get_path2 _ ds2) by apply lookup_assign_same.
  split.
  - rewrite Ho2 by discriminate. now rewrite Hh1.
  - rewrite Hp2. now rewrite (Ho1 "port") by discriminate.
Qed.

(** The option wins for the host, the configuration for the port. *)
Lemma requested_precedence_witness :
  exists cfg',
    resolveRequested
      {| opts_host := JStr "localhost"; opts_port := JUndefined;
         opts_watch := false; opts_onAddress := None |}
      (JObj [ ("devServer", JObj [ ("host", JStr "10.0.0.1");
                                   ("port", JNum 9000) ]) ]) = Ok cfg'
    /\ Js.get_path cfg' ["devServer"; "host"] = Ok (JStr "localhost")
    /\ Js.get_path cfg' ["devServer"; "port"] = Ok (JNum 9000).
Proof.
  apply (requested_precedence
           {| opts_host := JStr "localhost"; opts_port := JUndefined;
              opts_watch := false; opts_onAddress := None |}
           [ ("devServer", JObj [ ("host", JStr "10.0.0.1");
                                  ("port", JNum 9000) ]) ]
           [ ("host", JStr "10.0.0.1"); ("port", JNum 9000) ]).
  reflexivity.
Defined.

(** X18: the encoding used for the snapshot is lossy in two ways: a
    property whose value is [undefined] leaves no trace, and a function is
    encoded exactly as the string that holds its source between [/fn(] and
    [)]. *)
Theorem encode_lossy (k : string) (l1 l2 : list (string * JsValue))
    (src : string) :
  encode (JObj (l1 ++ (k, JUndefined) :: l2)) = encode (JObj (l1 ++ l2))
  /\ encode (JFun src) = encode (JStr ("/fn(" ++ src ++ ")")).
Proof.
  split; [|reflexivity].
  unfold encode. cbn [stringify]. do 4 f_equal.
  induction l1 as [|[k' v'] tl IH]; cbn [app]; [reflexivity|].
  destruct (stringify v'); [now rewrite IH|exact IH].
Qed.

(** Hash routing asked for in the ssr mode still yields [/]. *)
Lemma ssr_public_path_witness :
  exists cfg1 cfg2,
    applyModeOverrides prodSsr
      (JObj [ ("build", JObj [ ("vueRouterMode", JStr "hash") ]) ]) = Ok cfg1
    /\ derivePublicPath prodSsr cfg1 = Ok cfg2
    /\ Js.get_path cfg2 ["build"; "publicPath"] = Ok (JStr "/").
Proof.
  apply (ssr_public_path prodSsr
           [ ("build", JObj [ ("vueRouterMode", JStr "hash") ]) ]
           [ ("vueRouterMode", JStr "hash") ]).
  - reflexivity.
  - reflexivity.
  - reflexivity.
Defined.
